(** * Rec-Writer: the letter-assembly engine

    A shallow embedding of the three services that make up the
    letter-assembly core of the application:

    - [QueryService]           (queryService.ts):  the call to the model backend;
    - [WritingSampleAnalyzer]  (writingSampleAnalyzer.ts): sentence categories
      and the per-teacher category store kept in [localStorage];
    - [ContentGenerator]       (contentGenerator.ts): pattern extraction,
      template building, assembly and personalization.

    Conventions of the embedding.

    - A JavaScript string is a [string]: a sequence of code units, here
      restricted to the code units below 256.
    - A value decoded from JSON, or any value whose TypeScript type the code
      does not check at run time, is a [json].
    - An exception is a [Throw] completion; [try]/[catch] is [tryCatch].
    - Everything outside the program (the key/value storage, the IndexedDB
      object store, the HTTP backend, the clock, the random generator) is a
      field of [World]; the backend, the database, the clock and the random
      generator are tapes of the answers they will give, consumed one per
      call.
    - The quotients that the code computes as doubles and compares with a
      threshold ([length / average], [intersection / union]) are exact
      rationals [Q]; the product of a random draw and a length, of which
      the code takes the floor, is rounded as a double is ([Double]).
    - [console.log] and friends have no effect in the model. *)

From Stdlib Require Import String Ascii List Bool Arith PeanoNat NArith ZArith QArith Lia.
From Stdlib Require Import DecimalString Qround Qpower Lqa Permutation SpecFloat.
Import ListNotations.

Close Scope Q_scope.
Local Open Scope string_scope.
Local Open Scope list_scope.
Local Open Scope nat_scope.

(** ** JavaScript strings *)

Module JsString.

(** The double quote [U+0022] and the line feed [U+000A]. *)
Definition dquote : ascii := ascii_of_nat 34.
Definition newline : ascii := ascii_of_nat 10.

Definition singleton (c : ascii) : string := String c EmptyString.

Definition isEmpty (s : string) : bool :=
  match s with EmptyString => true | String _ _ => false end.

(** [\s], which is also what [trim] removes: TAB, LF, VT, FF, CR, SPACE and
    NBSP are the white space and line terminator code units below 256. *)
Definition isWhiteSpace (c : ascii) : bool :=
  let n := nat_of_ascii c in
  ((9 <=? n) && (n <=? 13)) || (n =? 32) || (n =? 160).

(** [\d] *)
Definition isDigit (c : ascii) : bool :=
  let n := nat_of_ascii c in (48 <=? n) && (n <=? 57).

Fixpoint trimStart (s : string) : string :=
  match s with
  | EmptyString => EmptyString
  | String c r => if isWhiteSpace c then trimStart r else s
  end.

Fixpoint trimEnd (s : string) : string :=
  match s with
  | EmptyString => EmptyString
  | String c r =>
      match trimEnd r with
      | EmptyString => if isWhiteSpace c then EmptyString else singleton c
      | r' => String c r'
      end
  end.

(** [s.trim()] *)
Definition trim (s : string) : string := trimEnd (trimStart s).

Definition lowerChar (c : ascii) : ascii :=
  let n := nat_of_ascii c in
  if ((65 <=? n) && (n <=? 90))
     || ((192 <=? n) && (n <=? 222) && negb (n =? 215))
  then ascii_of_nat (n + 32) else c.

(** [s.toLowerCase()] *)
Fixpoint toLowerCase (s : string) : string :=
  match s with
  | EmptyString => EmptyString
  | String c r => String (lowerChar c) (toLowerCase r)
  end.

(** [s.startsWith(p)] *)
Definition startsWith (s p : string) : bool := String.prefix p s.

(** [s.includes(sub)], equally [s.indexOf(sub) !== -1] *)
Fixpoint includes (s sub : string) : bool :=
  String.prefix sub s
  || match s with
     | EmptyString => false
     | String _ r => includes r sub
     end.

(** [parts.join(sep)] *)
Definition join (sep : string) (parts : list string) : string :=
  String.concat sep parts.

(** [s.split(sep)] for a separator of one character *)
Fixpoint split (sep : ascii) (s : string) : list string :=
  match s with
  | EmptyString => [EmptyString]
  | String c r =>
      if Ascii.eqb c sep then EmptyString :: split sep r
      else match split sep r with
           | h :: t => String c h :: t
           | [] => [singleton c]
           end
  end.

(** [s.split(/\s+/)]: the pieces between maximal runs of white space; the
    flag tells that the previous character was part of a separator. *)
Fixpoint splitWhiteSpaceFrom (inSeparator : bool) (s : string) : list string :=
  match s with
  | EmptyString => [EmptyString]
  | String c r =>
      if isWhiteSpace c then
        if inSeparator then splitWhiteSpaceFrom true r
        else EmptyString :: splitWhiteSpaceFrom true r
      else match splitWhiteSpaceFrom false r with
           | h :: t => String c h :: t
           | [] => [singleton c]
           end
  end.

Definition splitWhiteSpace (s : string) : list string :=
  splitWhiteSpaceFrom false s.

(** [s.replace(/\s+/g, '_')] *)
Fixpoint underscoreWhiteSpaceFrom (inRun : bool) (s : string) : string :=
  match s with
  | EmptyString => EmptyString
  | String c r =>
      if isWhiteSpace c then
        if inRun then underscoreWhiteSpaceFrom true r
        else String "_" (underscoreWhiteSpaceFrom true r)
      else String c (underscoreWhiteSpaceFrom false r)
  end.

Definition underscoreWhiteSpace (s : string) : string :=
  underscoreWhiteSpaceFrom false s.

(** [s.replace(/[chars]/g, '')] for a class of characters *)
Fixpoint removeAll (inClass : ascii -> bool) (s : string) : string :=
  match s with
  | EmptyString => EmptyString
  | String c r =>
      if inClass c then removeAll inClass r else String c (removeAll inClass r)
  end.

(** The greedy run [\d+] at the head of [s] and what follows it. *)
Fixpoint skipDigits (s : string) : string :=
  match s with
  | String c r => if isDigit c then skipDigits r else s
  | EmptyString => EmptyString
  end.

(** [s.replace(/^\d+\.\s*/, '')] *)
Definition stripNumbering (s : string) : string :=
  match s with
  | String c _ =>
      if isDigit c then
        match skipDigits s with
        | String "." r => trimStart r
        | _ => s
        end
      else s
  | EmptyString => s
  end.

(** [s.replace(/^[X]\s*/, '')] for a class [X] of characters *)
Definition stripLeading (inClass : ascii -> bool) (s : string) : string :=
  match s with
  | String c r => if inClass c then trimStart r else s
  | EmptyString => s
  end.

(** The prefix of [s] that ends with the last occurrence of [c]. *)
Fixpoint throughLast (c : ascii) (s : string) : option string :=
  match s with
  | EmptyString => None
  | String a r =>
      match throughLast c r with
      | Some p => Some (String a p)
      | None => if Ascii.eqb a c then Some (singleton a) else None
      end
  end.

(** [s.match(/O[\s\S]*C/)] for two characters [O] and [C]: the match starts
    at the first [O] and, the star being greedy, ends with the last [C]
    after it; there is none when no [C] follows the first [O]. *)
Fixpoint matchSpan (opening closing : ascii) (s : string) : option string :=
  match s with
  | EmptyString => None
  | String a r =>
      if Ascii.eqb a opening
      then option_map (String a) (throughLast closing r)
      else matchSpan opening closing r
  end.

(** [String(n)] for a non-negative integer *)
Definition ofN (n : N) : string := NilZero.string_of_uint (N.to_uint n).
Definition ofNat (n : nat) : string := ofN (N.of_nat n).

(** *** The sentence heuristic [/[^.!?]+[.!?]+/g] *)

Definition isTerminator (c : ascii) : bool :=
  Ascii.eqb c "." || Ascii.eqb c "!" || Ascii.eqb c "?".

(** Where the scan of [s.match(/[^.!?]+[.!?]+/g)] stands: looking for the
    start of a match, inside the run [[^.!?]+], or inside the run [[.!?]+];
    the last two carry the text matched so far. *)
Inductive Scan : Type :=
| Seeking
| InBody (matched : string)
| InTerminators (matched : string).

(** A match starts at the first character that is no terminator, takes the
    whole run of such characters, and needs at least one terminator after
    it, of which it takes the whole run; a run that reaches the end of the
    text without a terminator gives no match. *)
Fixpoint matchSentencesFrom (st : Scan) (s : string) : list string :=
  match s with
  | EmptyString =>
      match st with
      | InTerminators m => [m]
      | _ => []
      end
  | String c r =>
      match st with
      | Seeking =>
          if isTerminator c then matchSentencesFrom Seeking r
          else matchSentencesFrom (InBody (singleton c)) r
      | InBody m =>
          if isTerminator c then matchSentencesFrom (InTerminators (m ++ singleton c)%string) r
          else matchSentencesFrom (InBody (m ++ singleton c)%string) r
      | InTerminators m =>
          if isTerminator c then matchSentencesFrom (InTerminators (m ++ singleton c)%string) r
          else m :: matchSentencesFrom (InBody (singleton c)) r
      end
  end.

(** [s.match(/[^.!?]+[.!?]+/g)], with the empty list for [null] *)
Definition matchSentences (s : string) : list string :=
  matchSentencesFrom Seeking s.

End JsString.

Import JsString.

(** ** Doubles

    Where the code takes the floor of a product of doubles, the rounding of
    the product decides the integer, so the product is rounded here as
    IEEE 754 rounds it. *)

Module Double.

(** The binade of a rational above 0: the largest [e] with [2 ^ e <= q]. *)
Definition binade (q : Q) : Z :=
  let l := (Z.log2 (Qnum q) - Z.log2 (Zpos (Qden q)))%Z in
  if Qle_bool (2 ^ l) q then l else (l - 1)%Z.

(** The nearest integer, and the even one of the two when both are as near. *)
Definition nearestEven (x : Q) : Z :=
  let below := Qfloor x in
  match (x - inject_Z below ?= 1 # 2)%Q with
  | Lt => below
  | Gt => (below + 1)%Z
  | Eq => if Z.even below then below else (below + 1)%Z
  end.

(** The double that an operation answers when its exact result is [q], for
    [q] not negative and below [2 ^ 1024]: the multiple of [2 ^ e] nearest
    to [q], the even one in a tie, where [e] leaves 53 bits to the quotient
    and is at least -1074. *)
Definition round (q : Q) : Q :=
  if Qle_bool q 0 then 0%Q
  else
    let e := Z.max (binade q - 52) (-1074) in
    (inject_Z (nearestEven (q * 2 ^ (- e))) * 2 ^ e)%Q.

(** What [Math.random()] draws: a double in [0, 1), [mantissa / 2 ^ scale]
    with a mantissa of 53 bits at most. *)
Record Draw : Type := { mantissa : N; scale : N }.

Definition valueOf (d : Draw) : Q :=
  (inject_Z (Z.of_N (mantissa d)) / 2 ^ Z.of_N (scale d))%Q.

Definition isDraw (d : Draw) : bool :=
  (mantissa d <? 2 ^ 53)%N && (mantissa d <? 2 ^ scale d)%N && (scale d <=? 1074)%N.

Definition zero : Draw := {| mantissa := 0; scale := 1 |}.

(** [Math.floor(d * n)] for a draw [d] and the length [n] of an array, which
    is below [2 ^ 32] and so a double itself: the product is rounded to a
    double, and the floor is taken of that. *)
Definition scaled (d : Draw) (n : nat) : nat :=
  Z.to_nat (Qfloor (round (valueOf d * inject_Z (Z.of_nat n)))).

End Double.

(** ** JavaScript values, exceptions and the world *)

#[local] Set Warnings "-register-all".

(** A value as [JSON.parse] produces it.  The members of an object are its
    own properties, each key once. *)
Inductive json : Type :=
| JNull
| JBool (b : bool)
| JNum (q : Q)
| JStr (s : string)
| JArr (items : list json)
| JObj (members : list (string * json)).

(** The global [JSON] object.  [JSON_parse] gives [None] where [JSON.parse]
    throws a [SyntaxError]. *)
Class JSON : Type := {
  JSON_parse : string -> option json;
  JSON_stringify : json -> string
}.

Inductive Thrown : Type :=
| SyntaxError
| TypeError
| Error (message : string)
(** a promise rejected with a string, as those of indexedDBStorage.ts are *)
| Rejection (reason : string).

Inductive Completion (A : Type) : Type :=
| Normal (value : A)
| Throw (e : Thrown).
Arguments Normal {A} value.
Arguments Throw {A} e.

(** What is truthy: everything but [null], [false], [0] and [''];
    [undefined] is [None] and falsy. *)
Definition truthy (v : json) : bool :=
  match v with
  | JNull => false
  | JBool b => b
  | JNum q => negb (Qeq_bool q 0)
  | JStr s => negb (isEmpty s)
  | JArr _ | JObj _ => true
  end.

Definition truthyValue (v : option json) : bool :=
  match v with Some x => truthy x | None => false end.

Fixpoint member (name : string) (members : list (string * json)) : option json :=
  match members with
  | [] => None
  | (k, v) :: rest => if String.eqb k name then Some v else member name rest
  end.

(** [v.name] for a name that no prototype defines: reading a property of
    [null] throws, a primitive or an array has no such property. *)
Definition property (v : json) (name : string) : Completion (option json) :=
  match v with
  | JNull => Throw TypeError
  | JObj members => Normal (member name members)
  | _ => Normal None
  end.

(** *** Storage, records and the backend *)

(** [localStorage]: the entries in the order in which [key(i)] enumerates
    them.  The order is the user agent's; here a new key goes last and the
    other keys keep their order when one is removed. *)
Definition Storage : Type := list (string * string).

Inductive InputType : Type :=
| StudentNote | WritingSample | GeneratedContent | SampleAnalysis.

(** A record of the [userInputs] object store (indexedDBStorage.ts). *)
Record UserInput : Type := {
  id : string;
  timestamp : N;
  content : string;
  type : InputType;
  teacherName : string;
  metadata : option json
}.

(** The body that [generateText] posts to [/api/generate]. *)
Record ApiBody : Type := {
  body_model : string;
  body_prompt : string;
  body_temperature : Q;
  body_max_tokens : N
}.

Record HttpResponse : Type := {
  status : N;
  body : string
}.

(** [response.ok] *)
Definition ok (r : HttpResponse) : bool :=
  (200 <=? status r)%N && (status r <=? 299)%N.

Inductive FetchOutcome : Type :=
| NetworkFailure
| Responds (r : HttpResponse).

(** How a request to IndexedDB ends: its promise is fulfilled, and the
    request has had its effect, or it is rejected (the database does not
    open, the transaction or the request fails) and has had none. *)
Inductive DbOutcome : Type :=
| Fulfilled
| Rejected (e : Thrown).

Record World : Type := {
  localStorage : Storage;
  userInputs : list UserInput;
  (** the bodies posted to the backend so far, oldest first *)
  posted : list ApiBody;
  (** what the backend will answer to the next calls *)
  backend : list FetchOutcome;
  (** the next readings of [Date.now()] *)
  clock : list N;
  (** the next draws of [Math.random()], each in [0, 1) *)
  entropy : list Double.Draw;
  (** how the next requests to IndexedDB will end; with none left, they
      are fulfilled *)
  database : list DbOutcome
}.

Definition M (A : Type) : Type := World -> Completion A * World.

Definition ret {A} (a : A) : M A := fun w => (Normal a, w).

Definition throw {A} (e : Thrown) : M A := fun w => (Throw e, w).

Definition bind {A B} (m : M A) (k : A -> M B) : M B :=
  fun w =>
    match m w with
    | (Normal a, w') => k a w'
    | (Throw e, w') => (Throw e, w')
    end.

(** [try { body } catch (e) { handler }]; what [body] did to the world
    before it threw stays done. *)
Definition tryCatch {A} (body : M A) (handler : Thrown -> M A) : M A :=
  fun w =>
    match body w with
    | (Normal a, w') => (Normal a, w')
    | (Throw e, w') => handler e w'
    end.

Definition lift {A} (c : Completion A) : M A := fun w => (c, w).

Declare Scope js_scope.
Delimit Scope js_scope with js.
Notation "x <- m ;; k" := (bind m (fun x => k))
  (at level 61, m at next level, right associativity) : js_scope.
Notation "m ;; k" := (bind m (fun _ => k))
  (at level 61, right associativity) : js_scope.
Local Open Scope js_scope.

Module LocalStorage.

Fixpoint lookup (key : string) (ls : Storage) : option string :=
  match ls with
  | [] => None
  | (k, v) :: rest => if String.eqb k key then Some v else lookup key rest
  end.

(** An existing key keeps its place, a new key goes last. *)
Fixpoint update (key value : string) (ls : Storage) : Storage :=
  match ls with
  | [] => [(key, value)]
  | (k, v) :: rest =>
      if String.eqb k key then (k, value) :: rest else (k, v) :: update key value rest
  end.

Definition remove (key : string) (ls : Storage) : Storage :=
  filter (fun entry => negb (String.eqb (fst entry) key)) ls.

Definition withStorage (f : Storage -> Storage) (w : World) : World :=
  {| localStorage := f (localStorage w); userInputs := userInputs w;
     posted := posted w; backend := backend w;
     clock := clock w; entropy := entropy w;
     database := database w |}.

(** [localStorage.getItem(key)], [None] for [null] *)
Definition getItem (key : string) : M (option string) :=
  fun w => (Normal (lookup key (localStorage w)), w).

(** [localStorage.setItem(key, value)]; the quota is not modelled. *)
Definition setItem (key value : string) : M unit :=
  fun w => (Normal tt, withStorage (update key value) w).

(** [localStorage.removeItem(key)] *)
Definition removeItem (key : string) : M unit :=
  fun w => (Normal tt, withStorage (remove key) w).

(** [localStorage.length] *)
Definition length : M nat :=
  fun w => (Normal (List.length (localStorage w)), w).

(** [localStorage.key(i)], [None] for [null] *)
Definition key (i : nat) : M (option string) :=
  fun w => (Normal (option_map fst (nth_error (localStorage w) i)), w).

End LocalStorage.

(** [Date.now()]: the next reading of the clock. *)
Definition Date_now : M N :=
  fun w =>
    (Normal (hd 0%N (clock w)),
     {| localStorage := localStorage w; userInputs := userInputs w;
        posted := posted w; backend := backend w;
        clock := tl (clock w); entropy := entropy w;
     database := database w |}).

(** [Math.random()]: the next draw. *)
Definition Math_random : M Double.Draw :=
  fun w =>
    (Normal (hd Double.zero (entropy w)),
     {| localStorage := localStorage w; userInputs := userInputs w;
        posted := posted w; backend := backend w;
        clock := clock w; entropy := tl (entropy w);
        database := database w |}).

(** [Math.floor(Math.random() * n)] for the length [n] of an array: the
    next draw scaled to an index. *)
Definition randomIndex (n : nat) : M nat :=
  fun w =>
    (Normal (Double.scaled (hd Double.zero (entropy w)) n),
     {| localStorage := localStorage w; userInputs := userInputs w;
        posted := posted w; backend := backend w;
        clock := clock w; entropy := tl (entropy w);
        database := database w |}).

(** [fetch(baseUrl + '/api/generate', { method: 'POST', body })]: the body
    is recorded and the backend gives its next answer; a backend that has
    none left is unreachable, and [fetch] then rejects with a [TypeError]. *)
Definition fetchGenerate (b : ApiBody) : M HttpResponse :=
  fun w =>
    let w' := {| localStorage := localStorage w; userInputs := userInputs w;
                 posted := posted w ++ [b]; backend := tl (backend w);
                 clock := clock w; entropy := entropy w;
     database := database w |} in
    match backend w with
    | Responds r :: _ => (Normal r, w')
    | NetworkFailure :: _ | [] => (Throw TypeError, w')
    end.

(** [fetch(url)] without a body, as for [/health] and [/api/tags]: the
    backend gives its next answer, and nothing is recorded. *)
Definition fetchGet : M HttpResponse :=
  fun w =>
    let w' := {| localStorage := localStorage w; userInputs := userInputs w;
                 posted := posted w; backend := tl (backend w);
                 clock := clock w; entropy := entropy w;
     database := database w |} in
    match backend w with
    | Responds r :: _ => (Normal r, w')
    | NetworkFailure :: _ | [] => (Throw TypeError, w')
    end.

Module DbStorage.

Definition isWritingSample (t : InputType) : bool :=
  match t with WritingSample => true | _ => false end.

(** What every method does first: [if (!this.db) await this.initDB()], then
    the transaction and the request.  The next outcome of the database
    tells whether all this goes through or the promise of the method is
    rejected. *)
Definition settle : M unit :=
  fun w =>
    let w' := {| localStorage := localStorage w; userInputs := userInputs w;
                 posted := posted w; backend := backend w;
                 clock := clock w; entropy := entropy w;
                 database := tl (database w) |} in
    match database w with
    | Rejected e :: _ => (Throw e, w')
    | Fulfilled :: _ | [] => (Normal tt, w')
    end.

(** [getTeacherWritingSamples]: the records of the index
    [by_teacher_and_type] at [[teacherName, 'writing-sample']]. *)
Definition getTeacherWritingSamples (teacher : string) : M (list UserInput) :=
  settle ;;
  fun w =>
    (Normal (filter (fun u => String.eqb (teacherName u) teacher
                              && isWritingSample (type u)) (userInputs w)),
     w).

(** The records are kept in the order of their keys, in which an index
    yields the records of one index key. *)
Fixpoint put (input : UserInput) (records : list UserInput) : list UserInput :=
  match records with
  | [] => [input]
  | r :: rest =>
      match String.compare (id r) (id input) with
      | Eq => input :: rest
      | Lt => r :: put input rest
      | Gt => input :: r :: rest
      end
  end.

(** [saveUserInput]: [store.put(input)], keyed by [id]. *)
Definition saveUserInput (input : UserInput) : M unit :=
  settle ;;
  fun w =>
    (Normal tt,
     {| localStorage := localStorage w; userInputs := put input (userInputs w);
        posted := posted w; backend := backend w;
        clock := clock w; entropy := entropy w;
        database := database w |}).

End DbStorage.

(** ** queryService.ts *)

Record GenerationOptions : Type := {
  temperature : option Q;
  top_p : option Q;
  max_tokens : option N
}.

Record GenerationRequest : Type := {
  prompt : string;
  model : string;
  options : option GenerationOptions
}.

(** [text] is [data.response], whatever the backend put there; [None] is
    [undefined]. *)
Record GenerationResponse : Type := {
  text : option json;
  response_model : string;
  created : N
}.

Module QueryService.
Section WithJSON.
Context {J : JSON}.

(** [request.options?.temperature || 0.7] *)
Definition temperatureOf (request : GenerationRequest) : Q :=
  match options request with
  | Some o =>
      match temperature o with
      | Some t => if Qeq_bool t 0 then (7 # 10)%Q else t
      | None => (7 # 10)%Q
      end
  | None => (7 # 10)%Q
  end.

(** [request.options?.max_tokens || 1000] *)
Definition maxTokensOf (request : GenerationRequest) : N :=
  match options request with
  | Some o =>
      match max_tokens o with
      | Some n => if (n =? 0)%N then 1000%N else n
      | None => 1000%N
      end
  | None => 1000%N
  end.

(** [testConnection]; its [catch] answers [false]. *)
Definition testConnection : M bool :=
  tryCatch
    (response <- fetchGet ;;
     ret (ok response))
    (fun _ => ret false).

(** [generateText]; its [catch] logs and rethrows, so every exception of
    the body leaves the function as it is. *)
Definition generateText (request : GenerationRequest) : M GenerationResponse :=
  response <- fetchGenerate {| body_model := model request;
                               body_prompt := prompt request;
                               body_temperature := temperatureOf request;
                               body_max_tokens := maxTokensOf request |} ;;
  if negb (ok response)
  then throw (Error ("HTTP error: " ++ ofN (status response)))
  else
    match JSON_parse (body response) with
    | None => throw SyntaxError
    | Some data =>
        response_text <- lift (property data "response") ;;
        now <- Date_now ;;
        ret {| text := response_text; response_model := model request; created := now |}
    end.

(** [models.map(model => model.name)] over the elements of an array: the
    name of an element that has none is [undefined], and reading the name of
    [null] throws. *)
Fixpoint modelNames (models : list json) : Completion (list (option json)) :=
  match models with
  | [] => Normal []
  | model :: rest =>
      match property model "name" with
      | Normal name =>
          match modelNames rest with
          | Normal names => Normal (name :: names)
          | Throw e => Throw e
          end
      | Throw e => Throw e
      end
  end.

(** [getAvailableModels]: the status of the response is not looked at; only
    an array has [map]; the [catch] answers [['gemma3']]. *)
Definition getAvailableModels : M (list (option json)) :=
  tryCatch
    (response <- fetchGet ;;
     match JSON_parse (body response) with
     | None => throw SyntaxError
     | Some data =>
         models <- lift (property data "models") ;;
         match models with
         | Some (JArr items) => lift (modelNames items)
         | _ => throw TypeError
         end
     end)
    (fun _ => ret [Some (JStr "gemma3")]).

End WithJSON.
End QueryService.

(** ** writingSampleAnalyzer.ts *)

(** The five slots of [AnalysisCategories].  The interface declares arrays of
    strings; what [parseAnalysisResponse] returns holds whatever the arrays
    of the model's JSON held, hence the parameter. *)
Record Categories (A : Type) : Type := {
  introduction_context : list A;
  endorsement : list A;
  commentary : list A;
  qualities : list A;
  further_discussion : list A
}.
Arguments introduction_context {A} _.
Arguments endorsement {A} _.
Arguments commentary {A} _.
Arguments qualities {A} _.
Arguments further_discussion {A} _.

Definition AnalysisCategories : Type := Categories string.

(** [keyof AnalysisCategories] *)
Inductive Category : Type :=
| IntroductionContext
| Endorsement
| Commentary
| Qualities
| FurtherDiscussion.

Definition categoryName (c : Category) : string :=
  match c with
  | IntroductionContext => "introduction_context"
  | Endorsement => "endorsement"
  | Commentary => "commentary"
  | Qualities => "qualities"
  | FurtherDiscussion => "further_discussion"
  end.

Definition emptyCategories {A} : Categories A :=
  {| introduction_context := []; endorsement := []; commentary := [];
     qualities := []; further_discussion := [] |}.

(** [categories[c]] *)
Definition get {A} (c : Category) (m : Categories A) : list A :=
  match c with
  | IntroductionContext => introduction_context m
  | Endorsement => endorsement m
  | Commentary => commentary m
  | Qualities => qualities m
  | FurtherDiscussion => further_discussion m
  end.

(** [categories[c].push(x)] *)
Definition push {A} (c : Category) (x : A) (m : Categories A) : Categories A :=
  match c with
  | IntroductionContext =>
      {| introduction_context := introduction_context m ++ [x]; endorsement := endorsement m;
         commentary := commentary m; qualities := qualities m;
         further_discussion := further_discussion m |}
  | Endorsement =>
      {| introduction_context := introduction_context m; endorsement := endorsement m ++ [x];
         commentary := commentary m; qualities := qualities m;
         further_discussion := further_discussion m |}
  | Commentary =>
      {| introduction_context := introduction_context m; endorsement := endorsement m;
         commentary := commentary m ++ [x]; qualities := qualities m;
         further_discussion := further_discussion m |}
  | Qualities =>
      {| introduction_context := introduction_context m; endorsement := endorsement m;
         commentary := commentary m; qualities := qualities m ++ [x];
         further_discussion := further_discussion m |}
  | FurtherDiscussion =>
      {| introduction_context := introduction_context m; endorsement := endorsement m;
         commentary := commentary m; qualities := qualities m;
         further_discussion := further_discussion m ++ [x] |}
  end.

(** [Object.entries(categories)], in the order in which every object of this
    type is written in the source. *)
Definition entries {A} (m : Categories A) : list (Category * list A) :=
  [ (IntroductionContext, introduction_context m);
    (Endorsement, endorsement m);
    (Commentary, commentary m);
    (Qualities, qualities m);
    (FurtherDiscussion, further_discussion m) ].

Definition mapCategories {A B} (f : A -> B) (m : Categories A) : Categories B :=
  {| introduction_context := map f (introduction_context m);
     endorsement := map f (endorsement m);
     commentary := map f (commentary m);
     qualities := map f (qualities m);
     further_discussion := map f (further_discussion m) |}.

(** The object as [JSON.stringify] sees it. *)
Definition toJson (m : Categories json) : json :=
  JObj (map (fun e => (categoryName (fst e), JArr (snd e))) (entries m)).

Definition categoriesToJson (m : AnalysisCategories) : json :=
  toJson (mapCategories JStr m).

(** The strings of an array, when it holds nothing else. *)
Fixpoint stringItems (items : list json) : option (list string) :=
  match items with
  | [] => Some []
  | JStr s :: rest => option_map (cons s) (stringItems rest)
  | _ :: _ => None
  end.

Definition asSentences (m : Categories json) : option AnalysisCategories :=
  match stringItems (introduction_context m), stringItems (endorsement m),
        stringItems (commentary m), stringItems (qualities m),
        stringItems (further_discussion m) with
  | Some a, Some b, Some c, Some d, Some e =>
      Some {| introduction_context := a; endorsement := b; commentary := c;
              qualities := d; further_discussion := e |}
  | _, _, _, _, _ => None
  end.

Module WritingSampleAnalyzer.
Section WithJSON.
Context {J : JSON}.

Definition DEFAULT_MODEL : string := "gemma3".

Definition analysisPrompt (sample : string) : string :=
  "
Split the sentences from the following passage into these categories: 
- introduction/context (sentences that introduce the student or provide background)
- endorsement (sentences that directly support/endorse the student)
- commentary (sentences that offer opinions or observations)
- qualities (sentences that highlight specific skills or attributes)
- requests for further discussion (sentences inviting follow-up or providing contact information)

Format your response as a JSON object with these exact keys: introduction_context, endorsement, commentary, qualities, further_discussion. 
Each key should have an array of strings, with each string being a complete sentence from the passage.
Every sentence from the passage must be included in exactly one category.

PASSAGE:
" ++ sample ++ "
".

(** [Array.isArray(x) ? x : []] *)
Definition arrayOrEmpty (x : option json) : list json :=
  match x with
  | Some (JArr items) => items
  | _ => []
  end.

(** The [try] block of [parseAnalysisResponse]: [None] when [JSON.parse] or
    a property access throws. *)
Definition parseCategoriesObject (matched : string) : option (Categories json) :=
  match JSON_parse matched with
  | None => None
  | Some parsedData =>
      match property parsedData "introduction_context",
            property parsedData "endorsement",
            property parsedData "commentary",
            property parsedData "qualities",
            property parsedData "further_discussion" with
      | Normal a, Normal b, Normal c, Normal d, Normal e =>
          Some {| introduction_context := arrayOrEmpty a;
                  endorsement := arrayOrEmpty b;
                  commentary := arrayOrEmpty c;
                  qualities := arrayOrEmpty d;
                  further_discussion := arrayOrEmpty e |}
      | _, _, _, _, _ => None
      end
  end.

Definition categoryHeaders : list string :=
  [ "introduction/context"; "endorsement"; "commentary"; "qualities";
    "requests for further discussion" ].

(** The class of [/^[...]\s*/] in the fallback: the characters of the source
    text between the brackets that are below 256, namely U+00E2, U+00A2,
    [-] and [*]. *)
Definition isBullet (c : ascii) : bool :=
  let n := nat_of_ascii c in
  (n =? 226) || (n =? 162) || Ascii.eqb c "-" || Ascii.eqb c "*".

(** One round of the [for ... of responseText.split('\n')] loop. *)
Definition scanLine (st : option Category * Categories json) (line : string)
  : option Category * Categories json :=
  let '(currentCategory, defaultResult) := st in
  let trimmedLine := trim line in
  let lower := toLowerCase trimmedLine in
  if existsb (fun header => includes lower (toLowerCase header)) categoryHeaders then
    if includes lower "introduction" then (Some IntroductionContext, defaultResult)
    else if includes lower "endorsement" then (Some Endorsement, defaultResult)
    else if includes lower "commentary" then (Some Commentary, defaultResult)
    else if includes lower "qualities" then (Some Qualities, defaultResult)
    else if includes lower "further" || includes lower "discussion"
         then (Some FurtherDiscussion, defaultResult)
    else st
  else
    match currentCategory with
    | Some c =>
        if (0 <? String.length trimmedLine)
           && negb (startsWith trimmedLine "-") && negb (startsWith trimmedLine "#")
        then
          let cleanedLine := trim (stripLeading isBullet trimmedLine) in
          if 0 <? String.length cleanedLine
          then (currentCategory, push c (JStr cleanedLine) defaultResult)
          else st
        else st
    | None => st
    end.

(** [parseAnalysisResponse] on a string. *)
Definition parseAnalysisText (responseText : string) : Categories json :=
  let parsed :=
    match matchSpan "{" "}" responseText with
    | Some matched => parseCategoriesObject matched
    | None => None
    end in
  match parsed with
  | Some result => result
  | None => snd (fold_left scanLine (split newline responseText) (None, emptyCategories))
  end.

(** [parseAnalysisResponse(response.text)]: the first thing it does is
    [responseText.match(...)], a [TypeError] when the value is no string. *)
Definition parseAnalysisResponse (responseText : option json) : Completion (Categories json) :=
  match responseText with
  | Some (JStr s) => Normal (parseAnalysisText s)
  | _ => Throw TypeError
  end.

Definition getCategoryStorageKey (teacherName : string) : string :=
  "categorized_sentences_" ++ underscoreWhiteSpace teacherName.

(** What [storeAndAppendCategories] and [getCategories] both make of the
    stored text: the empty categories when there is none ([null] and ['']
    are falsy) or when [JSON.parse] throws, the parsed value otherwise. *)
Definition storedOrEmpty (stored : option string) : json :=
  match stored with
  | Some text =>
      if isEmpty text then categoriesToJson emptyCategories
      else match JSON_parse text with
           | Some v => v
           | None => categoriesToJson emptyCategories
           end
  | None => categoriesToJson emptyCategories
  end.

(** [Object.values(v)] *)
Definition objectValues (v : json) : Completion (list json) :=
  match v with
  | JNull => Throw TypeError
  | JBool _ | JNum _ => Normal []
  | JStr s => Normal (map (fun c => JStr (singleton c)) (list_ascii_of_string s))
  | JArr items => Normal items
  | JObj members => Normal (map snd members)
  end.

(** [sentences.forEach(sentence => existingSentences.add(sentence.trim()))]:
    only an array has [forEach], only a string has [trim]. *)
Definition trimmedSentences (sentences : json) : Completion (list string) :=
  match sentences with
  | JArr items =>
      match stringItems items with
      | Some l => Normal (map trim l)
      | None => Throw TypeError
      end
  | _ => Throw TypeError
  end.

Fixpoint collectSentences (values : list json) : Completion (list string) :=
  match values with
  | [] => Normal []
  | v :: rest =>
      match trimmedSentences v with
      | Normal here =>
          match collectSentences rest with
          | Normal there => Normal (here ++ there)
          | Throw e => Throw e
          end
      | Throw e => Throw e
      end
  end.

(** [[...existingCategories.name]]: [undefined], [null], a number, a boolean
    and an object are not iterable; a string spreads into its characters.
    After [collectSentences] has gone through, a property that exists is
    an array of strings. *)
Definition spread (v : json) (name : string) : Completion (list string) :=
  match property v name with
  | Normal (Some (JArr items)) =>
      match stringItems items with
      | Some l => Normal l
      | None => Throw TypeError
      end
  | Normal (Some (JStr s)) => Normal (map singleton (list_ascii_of_string s))
  | Normal _ => Throw TypeError
  | Throw e => Throw e
  end.

Definition copyCategories (existingCategories : json) : Completion AnalysisCategories :=
  match spread existingCategories "introduction_context",
        spread existingCategories "endorsement",
        spread existingCategories "commentary",
        spread existingCategories "qualities",
        spread existingCategories "further_discussion" with
  | Normal a, Normal b, Normal c, Normal d, Normal e =>
      Normal {| introduction_context := a; endorsement := b; commentary := c;
                qualities := d; further_discussion := e |}
  | Throw x, _, _, _, _ => Throw x
  | _, Throw x, _, _, _ => Throw x
  | _, _, Throw x, _, _ => Throw x
  | _, _, _, Throw x, _ => Throw x
  | _, _, _, _, Throw x => Throw x
  end.

(** [existingSentences.has(x)] on the set kept as a list *)
Definition has (existingSentences : list string) (x : string) : bool :=
  existsb (String.eqb x) existingSentences.

(** [sentences.forEach(sentence => { ... })] of the merge: a sentence whose
    trimmed text is new is pushed, trimmed, and remembered. *)
Fixpoint appendSentences (categoryKey : Category) (sentences : list string)
  (st : AnalysisCategories * list string) : AnalysisCategories * list string :=
  match sentences with
  | [] => st
  | sentence :: rest =>
      let '(mergedCategories, existingSentences) := st in
      let trimmed := trim sentence in
      if has existingSentences trimmed
      then appendSentences categoryKey rest st
      else appendSentences categoryKey rest
             (push categoryKey trimmed mergedCategories, trimmed :: existingSentences)
  end.

(** [Object.entries(newCategories).forEach(([category, sentences]) => ...)] *)
Definition appendEntries (newEntries : list (Category * list string))
  (st : AnalysisCategories * list string) : AnalysisCategories * list string :=
  fold_left (fun acc e => appendSentences (fst e) (snd e) acc) newEntries st.

(** [storeAndAppendCategories] for [newCategories] of the declared type.
    The whole body is in a [try] whose [catch] only logs. *)
Definition storeAndAppendCategories (newCategories : AnalysisCategories)
  (teacherName sampleContent : string) : M unit :=
  tryCatch
    (let storageKey := getCategoryStorageKey teacherName in
     existingCategoriesJson <- LocalStorage.getItem storageKey ;;
     let existingCategories := storedOrEmpty existingCategoriesJson in
     values <- lift (objectValues existingCategories) ;;
     existingSentences <- lift (collectSentences values) ;;
     copied <- lift (copyCategories existingCategories) ;;
     let mergedCategories :=
       fst (appendEntries (entries newCategories) (copied, existingSentences)) in
     LocalStorage.setItem storageKey (JSON_stringify (categoriesToJson mergedCategories)) ;;
     sampleTimestamp <- Date_now ;;
     let sampleKey :=
       ("sample_" ++ underscoreWhiteSpace teacherName ++ "_" ++ ofN sampleTimestamp)%string in
     LocalStorage.setItem sampleKey sampleContent)
    (fun _ => ret tt).

(** [getCategories]; the value of a stored text that parses is returned as
    it is. *)
Definition getCategories (teacherName : string) : M json :=
  let storageKey := getCategoryStorageKey teacherName in
  categoriesJson <- LocalStorage.getItem storageKey ;;
  ret (storedOrEmpty categoriesJson).

(** [for (let i = 0; i < localStorage.length; i++) { ... }] of
    [clearCategories].  The length never grows and [i] grows by one each
    round, so there are at most as many rounds as there were entries. *)
Fixpoint removeSampleKeys (rounds : nat) (sampleKeyPrefix : string) (i : nat) : M unit :=
  match rounds with
  | 0 => ret tt
  | S rounds' =>
      len <- LocalStorage.length ;;
      if i <? len then
        key <- LocalStorage.key i ;;
        match key with
        | Some k =>
            if negb (isEmpty k) && startsWith k sampleKeyPrefix
            then LocalStorage.removeItem k else ret tt
        | None => ret tt
        end ;;
        removeSampleKeys rounds' sampleKeyPrefix (S i)
      else ret tt
  end.

Definition clearCategories (teacherName : string) : M unit :=
  let storageKey := getCategoryStorageKey teacherName in
  LocalStorage.removeItem storageKey ;;
  let sampleKeyPrefix := ("sample_" ++ underscoreWhiteSpace teacherName)%string in
  entriesAtStart <- LocalStorage.length ;;
  removeSampleKeys entriesAtStart sampleKeyPrefix 0.

Definition lengthOf (items : list json) : json :=
  JNum (inject_Z (Z.of_nat (List.length items))).

(** [saveAnalysisToDatabase]; its [catch] only logs. *)
Definition saveAnalysisToDatabase (analysis : Categories json)
  (originalSample teacherName' : string) : M unit :=
  tryCatch
    (idStamp <- Date_now ;;
     stamp <- Date_now ;;
     sampleStamp <- Date_now ;;
     DbStorage.saveUserInput
       {| id := "analysis-" ++ ofN idStamp;
          timestamp := stamp;
          content := JSON_stringify (toJson analysis);
          type := SampleAnalysis;
          teacherName := teacherName';
          metadata := Some (JObj
            [ ("originalSample", JStr originalSample);
              ("originalSampleId", JStr ("sample-" ++ ofN sampleStamp));
              ("categoryCounts", JObj
                 (map (fun e => (categoryName (fst e), lengthOf (snd e)))
                      (entries analysis))) ]) |})
    (fun _ => ret tt).

(** [analyzeSample].  The outer [catch] logs and rethrows.  When an array of
    the result holds something that is no string, [sentence.trim()] throws
    inside [storeAndAppendCategories] before anything is stored, and its
    [catch] swallows that. *)
Definition analyzeSample (sample teacherName : string) : M (Categories json) :=
  response <- QueryService.generateText
                {| prompt := analysisPrompt sample;
                   model := DEFAULT_MODEL;
                   options := Some {| temperature := Some (3 # 10)%Q;
                                      top_p := Some (9 # 10)%Q;
                                      max_tokens := Some 2000%N |} |} ;;
  tryCatch
    (analysisResult <- lift (parseAnalysisResponse (text response)) ;;
     match asSentences analysisResult with
     | Some sentences => storeAndAppendCategories sentences teacherName sample
     | None => ret tt
     end ;;
     saveAnalysisToDatabase analysisResult sample teacherName ;;
     ret analysisResult)
    (fun _ => throw (Error "Failed to parse categorization result")).

End WithJSON.
End WritingSampleAnalyzer.

(** ** contentGenerator.ts *)

Record StudentInfo : Type := {
  studentName : string;
  schoolProgram : string;
  course : string;
  customCourse : option string;
  whenTaught : string;
  academicStrength : string;
  characterWords : list string;
  academicAnecdote : string;
  characterAnecdote : string
}.

Inductive Position : Type :=
| Opening
| Middle
| Closing.

(** An item of the template structure.  [category] is an element of the
    array that the model answered, or a name that the code supplies. *)
Record TemplateItem : Type := {
  category : json;
  originalSentence : string;
  position : Position
}.

Record PatternSet : Type := {
  openingSentences : list string;
  closingSentences : list string
}.

(** An item after the [map] of [generateLetter]; [None] is the
    [undefined] that an index outside the array reads. *)
Record ReplacedItem : Type := {
  replaced : TemplateItem;
  replacementSentence : option string
}.

Module ContentGenerator.
Section WithJSON.
Context {J : JSON}.

Definition DEFAULT_MODEL : string := "gemma3".

(** [x || ''] for a string that may be [undefined] *)
Definition orEmpty (x : option string) : string :=
  match x with Some s => s | None => EmptyString end.

(** *** areSentencesSimilar *)

Definition isPunctuation (c : ascii) : bool :=
  Ascii.eqb c "." || Ascii.eqb c "," || Ascii.eqb c "?" || Ascii.eqb c "!"
  || Ascii.eqb c ";" || Ascii.eqb c ":" || Ascii.eqb c "(" || Ascii.eqb c ")"
  || Ascii.eqb c dquote || Ascii.eqb c "'".

Definition tokenizeSentence (s : string) : list string :=
  filter (fun w => 3 <? String.length w)
         (splitWhiteSpace (removeAll isPunctuation (toLowerCase s))).

(** [array.indexOf(word) !== -1] *)
Definition occursIn (array : list string) (word : string) : bool :=
  existsb (String.eqb word) array.

(** [Object.keys(uniqueWords).length] after [uniqueWords[word] = true] for
    every word: the number of distinct words, where an assignment to
    [__proto__] creates no key. *)
Definition uniqueCount (words : list string) : nat :=
  List.length (nodup string_dec
                 (filter (fun w => negb (String.eqb w "__proto__")) words)).

Definition ofNatQ (n : nat) : Q := inject_Z (Z.of_nat n).

(** The [similarity] of one pair of word arrays. *)
Definition similarity (a b : list string) : Q :=
  let intersection := filter (occursIn b) a in
  let unionSize := uniqueCount (a ++ b) in
  if 0 <? unionSize
  then (ofNatQ (List.length intersection) / ofNatQ unionSize)%Q
  else 0%Q.

(** The similarities in the order of the two nested loops
    ([i] outside, [j] from [i + 1] inside). *)
Fixpoint pairSimilarities (wordArrays : list (list string)) : list Q :=
  match wordArrays with
  | [] => []
  | a :: rest => map (similarity a) rest ++ pairSimilarities rest
  end.

Definition openingPhrases : list string :=
  [ "i am writing"; "it is with"; "i am pleased"; "i am delighted";
    "i am happy"; "i have known"; "this letter"; "to whom" ].

Definition closingPhrases : list string :=
  [ "if you have"; "please feel"; "please do not"; "i would be";
    "i can be"; "i am available"; "sincerely"; "do not hesitate";
    "i highly recommend"; "i recommend"; "i endorse"; "without reservation" ].

Definition hasKeyPhrase (s : string) : bool :=
  let lower := toLowerCase s in
  existsb (includes lower) openingPhrases || existsb (includes lower) closingPhrases.

Definition sumOfLengths (sentences : list string) : nat :=
  fold_left (fun sum s => sum + String.length s) sentences 0.

(** [s.length / avgLength] *)
Definition lenRatio (sentences : list string) (s : string) : Q :=
  let avgLength := (ofNatQ (sumOfLengths sentences) / ofNatQ (List.length sentences))%Q in
  (ofNatQ (String.length s) / avgLength)%Q.

Definition withinLength (sentences : list string) (s : string) : bool :=
  Qle_bool (7 # 10) (lenRatio sentences s) && Qle_bool (lenRatio sentences s) (13 # 10).

Definition avgSimilarity (wordArrays : list (list string)) : Q :=
  let similarities := pairSimilarities wordArrays in
  let totalSimilarity := fold_left Qplus similarities 0%Q in
  let pairCount := List.length similarities in
  if 0 <? pairCount then (totalSimilarity / ofNatQ pairCount)%Q else 0%Q.

(** [areSentencesSimilar].  An element that the caller read outside an
    array is [undefined]; it is falsy like [''], the test [!s] is all that
    ever looks at it, and the model has [''] in its place.

    The code compares doubles, the model exact quotients.  For two
    sentences the two agree: every quotient is a ratio of integers below
    2^32, which differs from 0.7, 1.3 and 0.3 by 0 or by more than 10^-11,
    far more than the rounding of a double moves it, and a quotient that is
    exactly 3/10, 7/10 or 13/10 rounds to the same double as the literal.
    For more sentences the code adds the similarities up as doubles and
    divides by a mean length that is rounded itself; the model is exact
    there too, and the two can part where a quotient or a mean is within
    the rounding of a threshold.  They agree again for sentences that are
    all the same, where every similarity is 0 or 1 and every length ratio
    is 1. *)
Definition areSentencesSimilar (sentences : list string) : bool :=
  if List.length sentences <? 2 then true
  else if existsb isEmpty sentences then false
  else
    let filteredSentences := filter (withinLength sentences) sentences in
    if negb (Qle_bool (ofNatQ (List.length sentences) * (7 # 10))
                      (ofNatQ (List.length filteredSentences)))
    then false
    else
      let wordArrays := map tokenizeSentence filteredSentences in
      let isOpeningOrClosing := existsb hasKeyPhrase filteredSentences in
      Qle_bool (3 # 10) (avgSimilarity wordArrays) || isOpeningOrClosing.

(** *** getRandomWritingSample *)

(** [getRandomWritingSample]: [None] is [null], and also the [undefined]
    that an index outside the array reads. *)
Definition getRandomWritingSample (teacherName : string) : M (option UserInput) :=
  samples <- DbStorage.getTeacherWritingSamples teacherName ;;
  if List.length samples =? 0 then ret None
  else
    randomIndex' <- randomIndex (List.length samples) ;;
    ret (nth_error samples randomIndex').

(** *** extractCommonPatterns *)

(** One round of [for (const sample of samples)]. *)
Definition parseSample (acc : list (list string) * nat) (sample : UserInput)
  : list (list string) * nat :=
  let '(sampleSentences, maxOpeningPatternLength) := acc in
  if isEmpty (content sample) then acc
  else
    let sentences := matchSentences (content sample) in
    if 0 <? List.length sentences then
      (sampleSentences ++ [map trim sentences],
       if maxOpeningPatternLength =? 0
       then List.length sentences / 2
       else Nat.min maxOpeningPatternLength (List.length sentences / 2))
    else acc.

(** [for (let position = 0; position < maxOpeningPatternLength; position++)];
    [rounds] is the number of rounds that the bound still allows. *)
Fixpoint openingLoop (rounds position : nat) (sampleSentences : list (list string))
  (found : list string) : list string :=
  match rounds with
  | 0 => found
  | S rounds' =>
      let sentencesAtPosition :=
        map (fun sentences => nth position sentences EmptyString) sampleSentences in
      if areSentencesSimilar sentencesAtPosition
      then openingLoop rounds' (S position) sampleSentences
             (found ++ [nth 0 sentencesAtPosition EmptyString])
      else found
  end.

(** [sentences[sentences.length - posFromEnd]], [undefined] below index 0 *)
Definition fromEnd (posFromEnd : nat) (sentences : list string) : string :=
  if posFromEnd <=? List.length sentences
  then nth (List.length sentences - posFromEnd) sentences EmptyString
  else EmptyString.

(** [for (let posFromEnd = 1; posFromEnd <= maxOpeningPatternLength; posFromEnd++)] *)
Fixpoint closingLoop (rounds posFromEnd : nat) (sampleSentences : list (list string))
  (found : list string) : list string :=
  match rounds with
  | 0 => found
  | S rounds' =>
      let sentencesAtPosition := map (fromEnd posFromEnd) sampleSentences in
      if areSentencesSimilar sentencesAtPosition
      then closingLoop rounds' (S posFromEnd) sampleSentences
             (nth 0 sentencesAtPosition EmptyString :: found)
      else found
  end.

(** What [extractCommonPatterns] computes from the samples it has read. *)
Definition patternsOf (samples : list UserInput) : PatternSet :=
  if List.length samples <? 2 then
    match samples with
    | [sample] =>
        if negb (isEmpty (content sample)) then
          let sentences := matchSentences (content sample) in
          {| openingSentences := [orEmpty (option_map trim (hd_error sentences))];
             closingSentences := [orEmpty (option_map trim (hd_error (rev sentences)))] |}
        else {| openingSentences := []; closingSentences := [] |}
    | _ => {| openingSentences := []; closingSentences := [] |}
    end
  else
    let '(sampleSentences, maxOpeningPatternLength) :=
      fold_left parseSample samples ([], 0) in
    if List.length sampleSentences <? 2
    then {| openingSentences := []; closingSentences := [] |}
    else
      {| openingSentences := openingLoop maxOpeningPatternLength 0 sampleSentences [];
         closingSentences := closingLoop maxOpeningPatternLength 1 sampleSentences [] |}.

Definition extractCommonPatterns (teacherName : string) : M PatternSet :=
  samples <- DbStorage.getTeacherWritingSamples teacherName ;;
  ret (patternsOf samples).

(** *** categorizeTemplate *)

Definition validateCategory (category : string) : string :=
  if isEmpty category then "commentary"
  else
    let normalizedCategory := trim (toLowerCase category) in
    if includes normalizedCategory "introduction" || includes normalizedCategory "context"
    then "introduction_context"
    else if includes normalizedCategory "endorse" then "endorsement"
    else if includes normalizedCategory "comment" then "commentary"
    else if includes normalizedCategory "quality" || includes normalizedCategory "qualities"
    then "qualities"
    else if includes normalizedCategory "further" || includes normalizedCategory "discussion"
    then "further_discussion"
    else "commentary".

(** The lines [`${i+1}. ${s.trim()}`] of the prompt. *)
Fixpoint numbered (i : nat) (sentences : list string) : list string :=
  match sentences with
  | [] => []
  | s :: rest => (ofNat (i + 1) ++ ". " ++ trim s)%string :: numbered (S i) rest
  end.

Definition templatePrompt (sentences : list string) : string :=
  "
Categorize each of the following sentences from a teacher's recommendation letter into one of these categories:
- introduction_context (sentences that introduce the student or provide background)
- endorsement (sentences that directly support/endorse the student)
- commentary (sentences that offer opinions or observations)
- qualities (sentences that highlight specific skills or attributes)
- further_discussion (sentences inviting follow-up or providing contact information)

For each sentence, respond ONLY with the category name. Provide your answers as a JSON array of strings, with each element being just the category name.

Sentences to categorize:
" ++ join (singleton newline) (numbered 0 sentences) ++ "
".

(** The fallback by position in the letter: [index / sentences.length]
    against 0.2, 0.4, 0.7 and 0.9. *)
Definition positionalCategory (len index : nat) : string :=
  let position := (ofNatQ index / ofNatQ len)%Q in
  if negb (Qle_bool (2 # 10) position) then "introduction_context"
  else if negb (Qle_bool (4 # 10) position) then "qualities"
  else if negb (Qle_bool (7 # 10) position) then "endorsement"
  else if negb (Qle_bool (9 # 10) position) then "commentary"
  else "further_discussion".

(** The [try] block that reads the categories out of the response, with its
    [catch].  [response.text || ''] is a string unless the backend put a
    truthy value of another type there; [match] is then no function, and the
    [TypeError] takes the code to the fallback by position.  A text that
    begins with a bracket parses to an array or not at all; the model throws
    a [TypeError], as [categories.slice] would, for a [JSON_parse] that
    answers otherwise. *)
Definition extractCategories (response_text : option json) (sentences : list string)
  : Completion (list json) :=
  match (if truthyValue response_text then response_text else Some (JStr EmptyString)) with
  | Some (JStr responseText) =>
      match matchSpan "[" "]" responseText with
      | Some matched =>
          match JSON_parse matched with
          | Some (JArr categories) => Normal categories
          | Some _ => Throw TypeError
          | None => Normal []
          end
      | None =>
          Normal (map (fun line => JStr (validateCategory (trim (stripNumbering line))))
                      (filter (fun line => 0 <? String.length (trim line))
                              (split newline responseText)))
      end
  | _ =>
      Normal (map (fun index => JStr (positionalCategory (List.length sentences) index))
                  (seq 0 (List.length sentences)))
  end.

(** [while (categories.length < n) categories.push('commentary')] and then
    [categories.slice(0, n)] *)
Definition align (categories : list json) (n : nat) : list json :=
  if List.length categories =? n then categories
  else firstn n (categories ++ repeat (JStr "commentary") (n - List.length categories)).

Definition positionOf (len index : nat) : Position :=
  if index =? 0 then Opening
  else if (3 <=? len) && (len - 2 <=? index) then Closing
  else if (len <? 3) && (index =? len - 1) then Closing
  else Middle.

(** [categories[index] || 'commentary'] *)
Definition categoryAt (categories : list json) (index : nat) : json :=
  match nth_error categories index with
  | Some c => if truthy c then c else JStr "commentary"
  | None => JStr "commentary"
  end.

(** The final [sentences.map((sentence, index) => ...)]. *)
Fixpoint tagFrom (index len : nat) (categories : list json) (sentences : list string)
  : list TemplateItem :=
  match sentences with
  | [] => []
  | sentence :: rest =>
      {| category := categoryAt categories index;
         originalSentence := trim sentence;
         position := positionOf len index |}
      :: tagFrom (S index) len categories rest
  end.

Definition categorizeTemplate (templateContent : string) : M (list TemplateItem) :=
  if isEmpty templateContent then ret []
  else
    let sentences := matchSentences templateContent in
    if List.length sentences =? 0 then ret []
    else
      response <- QueryService.generateText
                    {| prompt := templatePrompt sentences;
                       model := DEFAULT_MODEL;
                       options := Some {| temperature := Some (3 # 10)%Q;
                                          top_p := Some (9 # 10)%Q;
                                          max_tokens := Some 1000%N |} |} ;;
      categories <- lift (extractCategories (text response) sentences) ;;
      ret (tagFrom 0 (List.length sentences)
             (align categories (List.length sentences)) sentences).

(** *** generateLetter and personalizeLetter *)

(** Whether [String(v)] is [name], for a name made of letters and
    underscores: a string is itself, an array of one element is that
    element; numbers, booleans, objects and longer arrays print otherwise. *)
Fixpoint printsAs (name : string) (v : json) : bool :=
  match v with
  | JStr s => String.eqb s name
  | JArr [x] => printsAs name x
  | _ => false
  end.

(** The members that every object inherits from [Object.prototype], each
    with its [length]: a function has the number of its parameters, and
    [__proto__] reads the prototype itself, an object without a [length]. *)
Definition objectPrototype : list (string * option nat) :=
  [ ("constructor", Some 1); ("hasOwnProperty", Some 1); ("isPrototypeOf", Some 1);
    ("propertyIsEnumerable", Some 1); ("toLocaleString", Some 0); ("toString", Some 0);
    ("valueOf", Some 0); ("__defineGetter__", Some 2); ("__defineSetter__", Some 2);
    ("__lookupGetter__", Some 1); ("__lookupSetter__", Some 1); ("__proto__", None) ].

(** What [categorizedSentences[category]] reads: one of the five arrays, a
    member of [Object.prototype] with its [length], or [undefined]. *)
Inductive Member : Type :=
| Stored (sentences : list string)
| Inherited (parameters : option nat)
| Undefined.

Definition memberFor (categorizedSentences : AnalysisCategories) (category : json)
  : Member :=
  if printsAs "introduction_context" category
  then Stored (introduction_context categorizedSentences)
  else if printsAs "endorsement" category then Stored (endorsement categorizedSentences)
  else if printsAs "commentary" category then Stored (commentary categorizedSentences)
  else if printsAs "qualities" category then Stored (qualities categorizedSentences)
  else if printsAs "further_discussion" category
  then Stored (further_discussion categorizedSentences)
  else match find (fun m => printsAs (fst m) category) objectPrototype with
       | Some (_, parameters) => Inherited parameters
       | None => Undefined
       end.

Definition isOpening (p : Position) : bool :=
  match p with Opening => true | _ => false end.

Definition isClosing (p : Position) : bool :=
  match p with Closing => true | _ => false end.

(** The function that [generateLetter] maps over the template.  In its last
    part, [categorizedSentences[category] || []] is an array of the store,
    [[]] for [undefined], or a member of [Object.prototype]: a function
    whose [length] is not 0 makes the code draw and read an index of the
    function, which is [undefined], and so does the prototype that
    [__proto__] reads, whose [length] is [undefined] and not [0]. *)
Definition replaceItem (categorizedSentences : AnalysisCategories)
  (openingSentences closingSentences : list string) (item : TemplateItem) : M ReplacedItem :=
  if isOpening (position item) && (0 <? List.length openingSentences) then
    randomOpeningIndex <- randomIndex (List.length openingSentences) ;;
    ret {| replaced := item;
           replacementSentence := nth_error openingSentences randomOpeningIndex |}
  else if isClosing (position item) && (0 <? List.length closingSentences) then
    randomClosingIndex <- randomIndex (List.length closingSentences) ;;
    ret {| replaced := item;
           replacementSentence := nth_error closingSentences randomClosingIndex |}
  else
    match memberFor categorizedSentences (category item) with
    | Stored sentencesInCategory =>
        if List.length sentencesInCategory =? 0
        then ret {| replaced := item; replacementSentence := Some (originalSentence item) |}
        else
          randomIndex' <- randomIndex (List.length sentencesInCategory) ;;
          ret {| replaced := item;
                 replacementSentence := nth_error sentencesInCategory randomIndex' |}
    | Inherited (Some parameters) =>
        if parameters =? 0
        then ret {| replaced := item; replacementSentence := Some (originalSentence item) |}
        else
          randomIndex parameters ;;
          ret {| replaced := item; replacementSentence := None |}
    | Inherited None =>
        Math_random ;;
        ret {| replaced := item; replacementSentence := None |}
    | Undefined =>
        ret {| replaced := item; replacementSentence := Some (originalSentence item) |}
    end.

(** [templateStructure.map(item => ...)], first item first. *)
Fixpoint replaceAll (categorizedSentences : AnalysisCategories)
  (openingSentences closingSentences : list string) (templateStructure : list TemplateItem)
  : M (list ReplacedItem) :=
  match templateStructure with
  | [] => ret []
  | item :: rest =>
      r <- replaceItem categorizedSentences openingSentences closingSentences item ;;
      rs <- replaceAll categorizedSentences openingSentences closingSentences rest ;;
      ret (r :: rs)
  end.

(** [item.replacementSentence || item.originalSentence] *)
Definition finalSentence (r : ReplacedItem) : string :=
  match replacementSentence r with
  | Some s => if isEmpty s then originalSentence (replaced r) else s
  | None => originalSentence (replaced r)
  end.

Definition draftOf (replacedStructure : list ReplacedItem) : string :=
  join " " (map finalSentence replacedStructure).

(** [customCourse || course] *)
Definition courseTaken (studentInfo : StudentInfo) : string :=
  match customCourse studentInfo with
  | Some c => if isEmpty c then course studentInfo else c
  | None => course studentInfo
  end.

Definition personalizePrompt (draftLetter : string) (studentInfo : StudentInfo)
  (teacherName : string) : string :=
  "
You are helping a teacher named " ++ teacherName ++ " write a recommendation letter for a student applying to a college/university program.

I'll provide you with:
1. A draft recommendation letter created from pieces of previous letters
2. Information about the specific student

Your task is to personalize the letter to the student by:
1. Replacing ONLY words (names, pronouns, subjects, etc.) to match the student. You can replace as many words as you want, since we aren't trying to repeat what we have written for prior students.
2. The only exception to point 1 is when incorporating the student's academic and character anecdotes. Integrate them into the paper while trying to precisely match the writing style of the rest of the letter.
3. Ensuring the letter flows naturally and is addressed to the correct program/school
4. DO NOT change sentence structures except when incorporating the anecdotes

STUDENT INFORMATION:
- Name: " ++ studentName studentInfo ++ "
- Applying to: " ++ schoolProgram studentInfo ++ "
- Course taken: " ++ courseTaken studentInfo ++ "
- When taken: " ++ whenTaught studentInfo ++ "
- Academic strength: " ++ academicStrength studentInfo ++ "
- Character described as: " ++ join ", " (characterWords studentInfo) ++ "
- Academic anecdote: " ++ academicAnecdote studentInfo ++ "
- Character anecdote: " ++ characterAnecdote studentInfo ++ "

DRAFT LETTER:
" ++ draftLetter ++ "

Please provide the personalized letter that maintains the teacher's writing style but is tailored to this specific student.
".

Definition personalizeFallback : string :=
  "Unable to generate personalized content. Please try again.".

Definition personalizeRequest (draftLetter : string) (studentInfo : StudentInfo)
  (teacherName : string) : GenerationRequest :=
  {| prompt := personalizePrompt draftLetter studentInfo teacherName;
     model := DEFAULT_MODEL;
     options := Some {| temperature := Some (7 # 10)%Q;
                        top_p := Some (9 # 10)%Q;
                        max_tokens := Some 2000%N |} |}.

(** [response.text || fallback] *)
Definition textOrFallback (response : GenerationResponse) : json :=
  match text response with
  | Some v => if truthy v then v else JStr personalizeFallback
  | None => JStr personalizeFallback
  end.

Definition personalizeLetter (draftLetter : string) (studentInfo : StudentInfo)
  (teacherName : string) : M json :=
  response <- QueryService.generateText
                (personalizeRequest draftLetter studentInfo teacherName) ;;
  ret (textOrFallback response).

Definition insufficientTemplate : string :=
  "I couldn't generate a recommendation letter due to insufficient template structure. Please ensure there are enough writing samples with complete sentences.".

Definition generateLetter (templateStructure : list TemplateItem)
  (categorizedSentences : AnalysisCategories) (studentInfo : StudentInfo)
  (teacherName : string) (openingSentences closingSentences : list string) : M json :=
  if List.length templateStructure =? 0 then ret (JStr insufficientTemplate)
  else
    replacedStructure <- replaceAll categorizedSentences openingSentences
                           closingSentences templateStructure ;;
    let draftLetter := draftOf replacedStructure in
    personalizeLetter draftLetter studentInfo teacherName.

End WithJSON.
End ContentGenerator.

(** ** A JSON codec

    An instance of [JSON] to run the services on: a compact printer that
    escapes strings the way [JSON.stringify] does, and a recursive descent
    parser for the texts it prints and their variants with white space.
    Numbers are integers here; the printer writes the integer part of a
    number. *)

Module MiniJson.

Definition backslash : ascii := "\".

Definition hexDigit (n : nat) : ascii :=
  if n <? 10 then ascii_of_nat (48 + n) else ascii_of_nat (87 + n).

Definition escapeChar (c : ascii) : string :=
  let n := nat_of_ascii c in
  if Ascii.eqb c dquote then String backslash (singleton dquote)
  else if Ascii.eqb c backslash then String backslash (singleton backslash)
  else if n =? 8 then String backslash "b"
  else if n =? 9 then String backslash "t"
  else if n =? 10 then String backslash "n"
  else if n =? 12 then String backslash "f"
  else if n =? 13 then String backslash "r"
  else if n <? 32
       then String backslash
              (String "u" (String "0" (String "0"
                 (String (hexDigit (n / 16)) (singleton (hexDigit (n mod 16)))))))
  else singleton c.

Fixpoint escape (s : string) : string :=
  match s with
  | EmptyString => EmptyString
  | String c r => (escapeChar c ++ escape r)%string
  end.

Definition printString (s : string) : string :=
  String dquote (escape s ++ singleton dquote).

Definition printZ (z : Z) : string :=
  match z with
  | Zneg p => String "-" (ofN (Npos p))
  | _ => ofN (Z.to_N z)
  end.

Fixpoint print (v : json) : string :=
  match v with
  | JNull => "null"
  | JBool true => "true"
  | JBool false => "false"
  | JNum q => printZ (Qfloor q)
  | JStr s => printString s
  | JArr items => String "[" (join "," (map print items) ++ "]")
  | JObj members =>
      String "{"
        (join "," (map (fun kv => (printString (fst kv) ++ ":" ++ print (snd kv))%string)
                       members) ++ "}")
  end.

Definition hexValue (c : ascii) : option nat :=
  let n := nat_of_ascii c in
  if (48 <=? n) && (n <=? 57) then Some (n - 48)
  else if (97 <=? n) && (n <=? 102) then Some (n - 87)
  else if (65 <=? n) && (n <=? 70) then Some (n - 55)
  else None.

(** The rest of a string literal after its opening quote: the text it
    denotes and what follows the closing quote. *)
Fixpoint parseStringBody (s : string) : option (string * string) :=
  match s with
  | EmptyString => None
  | String c r =>
      if Ascii.eqb c dquote then Some (EmptyString, r)
      else if Ascii.eqb c backslash then
        match r with
        | String e r' =>
            let continue (c' : ascii) (rest : string) :=
              match parseStringBody rest with
              | Some (t, after) => Some (String c' t, after)
              | None => None
              end in
            if Ascii.eqb e dquote then continue dquote r'
            else if Ascii.eqb e backslash then continue backslash r'
            else if Ascii.eqb e "/" then continue "/"%char r'
            else if Ascii.eqb e "b" then continue (ascii_of_nat 8) r'
            else if Ascii.eqb e "t" then continue (ascii_of_nat 9) r'
            else if Ascii.eqb e "n" then continue (ascii_of_nat 10) r'
            else if Ascii.eqb e "f" then continue (ascii_of_nat 12) r'
            else if Ascii.eqb e "r" then continue (ascii_of_nat 13) r'
            else if Ascii.eqb e "u" then
              match r' with
              | String "0" (String "0" (String h (String l r''))) =>
                  match hexValue h, hexValue l with
                  | Some a, Some b => continue (ascii_of_nat (16 * a + b)) r''
                  | _, _ => None
                  end
              | _ => None
              end
            else None
        | EmptyString => None
        end
      else if nat_of_ascii c <? 32 then None
      else
        match parseStringBody r with
        | Some (t, after) => Some (String c t, after)
        | None => None
        end
  end.

(** JSON white space: space, tab, line feed, carriage return. *)
Definition isJsonSpace (c : ascii) : bool :=
  let n := nat_of_ascii c in (n =? 32) || (n =? 9) || (n =? 10) || (n =? 13).

Fixpoint skipSpace (s : string) : string :=
  match s with
  | String c r => if isJsonSpace c then skipSpace r else s
  | EmptyString => EmptyString
  end.

Fixpoint parseDigits (acc : N) (s : string) : N * string :=
  match s with
  | String c r =>
      if isDigit c
      then parseDigits (10 * acc + N.of_nat (nat_of_ascii c - 48))%N r
      else (acc, s)
  | EmptyString => (acc, s)
  end.

Definition parseNumber (s : string) : option (json * string) :=
  match s with
  | String "-" (String c r) =>
      if isDigit c
      then let '(n, rest) := parseDigits 0%N (String c r) in
           Some (JNum (inject_Z (- Z.of_N n)), rest)
      else None
  | String c _ =>
      if isDigit c
      then let '(n, rest) := parseDigits 0%N s in Some (JNum (inject_Z (Z.of_N n)), rest)
      else None
  | EmptyString => None
  end.

Definition parseLiteral (s : string) : option (json * string) :=
  match s with
  | String "n" (String "u" (String "l" (String "l" r))) => Some (JNull, r)
  | String "t" (String "r" (String "u" (String "e" r))) => Some (JBool true, r)
  | String "f" (String "a" (String "l" (String "s" (String "e" r)))) => Some (JBool false, r)
  | _ => parseNumber s
  end.

(** A value, the elements of an array after its bracket, the members of an
    object after its brace.  Each call reads at least one character, so a
    text needs no more [fuel] than it has characters. *)
Fixpoint parseValue (fuel : nat) (s : string) : option (json * string) :=
  match fuel with
  | 0 => None
  | S fuel' =>
      match skipSpace s with
      | String c r =>
          if Ascii.eqb c dquote then
            match parseStringBody r with
            | Some (t, after) => Some (JStr t, after)
            | None => None
            end
          else if Ascii.eqb c "[" then
            match skipSpace r with
            | String "]" after => Some (JArr [], after)
            | _ =>
                match parseElements fuel' r with
                | Some (items, after) => Some (JArr items, after)
                | None => None
                end
            end
          else if Ascii.eqb c "{" then
            match skipSpace r with
            | String "}" after => Some (JObj [], after)
            | _ =>
                match parseMembers fuel' r with
                | Some (members, after) => Some (JObj members, after)
                | None => None
                end
            end
          else parseLiteral (String c r)
      | EmptyString => None
      end
  end
with parseElements (fuel : nat) (s : string) : option (list json * string) :=
  match fuel with
  | 0 => None
  | S fuel' =>
      match parseValue fuel' s with
      | Some (v, r) =>
          match skipSpace r with
          | String "," r' =>
              match parseElements fuel' r' with
              | Some (vs, after) => Some (v :: vs, after)
              | None => None
              end
          | String "]" after => Some ([v], after)
          | _ => None
          end
      | None => None
      end
  end
with parseMembers (fuel : nat) (s : string) : option (list (string * json) * string) :=
  match fuel with
  | 0 => None
  | S fuel' =>
      match skipSpace s with
      | String c r =>
          if Ascii.eqb c dquote then
            match parseStringBody r with
            | Some (k, afterKey) =>
                match skipSpace afterKey with
                | String ":" r' =>
                    match parseValue fuel' r' with
                    | Some (v, r'') =>
                        match skipSpace r'' with
                        | String "," r3 =>
                            match parseMembers fuel' r3 with
                            | Some (ms, after) => Some ((k, v) :: ms, after)
                            | None => None
                            end
                        | String "}" after => Some ([(k, v)], after)
                        | _ => None
                        end
                    | None => None
                    end
                | _ => None
                end
            | None => None
            end
          else None
      | EmptyString => None
      end
  end.

Definition parse (s : string) : option json :=
  match parseValue (S (String.length s)) s with
  | Some (v, after) => if isEmpty (skipSpace after) then Some v else None
  | None => None
  end.

#[export] Instance codec : JSON := {| JSON_parse := parse; JSON_stringify := print |}.

(** For the proofs: a member whose value is an array of strings, as text and
    as value; the fuel that a list of such members needs; the members of
    the stored categories. *)
Definition memberText (m : string * list string) : string :=
  (printString (fst m) ++ ":" ++ print (JArr (map JStr (snd m))))%string.

Definition memberValue (m : string * list string) : string * json :=
  (fst m, JArr (map JStr (snd m))).

Fixpoint weight (ms : list (string * list string)) : nat :=
  match ms with
  | [] => 0
  | m :: rest => List.length (snd m) + 4 + weight rest
  end.

Definition fields (c : AnalysisCategories) : list (string * list string) :=
  [ ("introduction_context", introduction_context c);
    ("endorsement", endorsement c);
    ("commentary", commentary c);
    ("qualities", qualities c);
    ("further_discussion", further_discussion c) ].

End MiniJson.

Import WritingSampleAnalyzer ContentGenerator.

(** ** Predicates of the statements *)

(** A word that counts in the union of two word arrays. *)
Definition countsAsKey (w : string) : bool := negb (String.eqb w "__proto__").

(** What makes a sentence count as a pattern member when every sample has
    it: a word of more than three characters (other than [__proto__]) or a
    phrase of the lexicon. *)
Definition recognizable (s : string) : bool :=
  existsb countsAsKey (tokenizeSentence s) || hasKeyPhrase s.

(** The longest run of elements that satisfy [p] at the start of a list,
    and at its end. *)
Fixpoint takeWhile {A : Type} (p : A -> bool) (l : list A) : list A :=
  match l with
  | [] => []
  | x :: rest => if p x then x :: takeWhile p rest else []
  end.

Definition takeWhileEnd {A : Type} (p : A -> bool) (l : list A) : list A :=
  rev (takeWhile p (rev l)).

(** The Jaccard index of two word arrays, as the specification names it:
    the number of distinct words that both arrays have over the number of
    distinct words that either has, and 0 for two empty arrays. *)
Definition jaccard (a b : list string) : Q :=
  let common := nodup string_dec (filter (occursIn b) a) in
  let either := nodup string_dec (a ++ b) in
  if 0 <? List.length either
  then (ofNatQ (List.length common) / ofNatQ (List.length either))%Q
  else 0%Q.

(** An item that receives no pattern sentence. *)
Definition keepsCategory (openingSentences closingSentences : list string)
  (item : TemplateItem) : Prop :=
  (position item = Opening -> openingSentences = [])
  /\ (position item = Closing -> closingSentences = []).

(** The sentences of all five categories. *)
Definition allSentences (c : AnalysisCategories) : list string :=
  introduction_context c ++ endorsement c ++ commentary c ++ qualities c
  ++ further_discussion c.

(** What the merge computes from the categories it found and the new ones. *)
Definition mergedWith (existing newCategories : AnalysisCategories) : AnalysisCategories :=
  fst (appendEntries (entries newCategories) (existing, map trim (allSentences existing))).

(** The teacher's entry, when there is one and it is JSON, is the JSON of
    some categories: the only writer of the key, [storeAndAppendCategories],
    writes nothing else. *)
Definition holdsCategories {J : JSON} (teacherName : string) (w : World) : Prop :=
  forall (stored : string) (v : json),
    LocalStorage.lookup (getCategoryStorageKey teacherName) (localStorage w) = Some stored ->
    JSON_parse stored = Some v ->
    exists c : AnalysisCategories, v = categoriesToJson c.

(** What one round of appending keeps true: everything seen is the trimmed
    text of a sentence of the merged categories. *)
Definition seenInMerged (st : AnalysisCategories * list string) : Prop :=
  forall x, In x (snd st) -> In x (map trim (allSentences (fst st))).

(** Everything seen is a trimmed text of the merged categories and the other
    way round, and no trimmed text is there twice. *)
Definition deduplicated (st : AnalysisCategories * list string) : Prop :=
  (forall x, In x (snd st) <-> In x (map trim (allSentences (fst st))))
  /\ NoDup (map trim (allSentences (fst st))).

(** Whether the database carries out the operation that comes next, or
    rejects its promise. *)
Definition carriesOut (w : World) : bool :=
  match database w with
  | Rejected _ :: _ => false
  | Fulfilled :: _ | [] => true
  end.

(** The value of a float of the standard library's specification of
    IEEE 754 that is finite and not negative, a draw as such a float, and
    whether the product of a draw and a length is rounded here to the value
    that the multiplication of binary64 has there. *)
Definition floatValue (f : spec_float) : Q :=
  match f with
  | S754_finite false m e => (inject_Z (Zpos m) * 2 ^ e)%Q
  | _ => 0%Q
  end.

Definition asBinary64 (d : Double.Draw) : spec_float :=
  match Double.mantissa d with
  | Npos m => S754_finite false m (- Z.of_N (Double.scale d))
  | N0 => S754_zero false
  end.

Definition roundsAsBinary64 (d : Double.Draw) (n : positive) : bool :=
  Qeq_bool (Double.round (Double.valueOf d * inject_Z (Zpos n)))
           (floatValue (SFmul 53 1024 (asBinary64 d) (S754_finite false n 0))).

(** The world after the database has settled an operation, and the world
    after a draw. *)
Definition settled (w : World) : World :=
  {| localStorage := localStorage w; userInputs := userInputs w; posted := posted w;
     backend := backend w; clock := clock w; entropy := entropy w;
     database := tl (database w) |}.

Definition afterDraw (w : World) : World :=
  {| localStorage := localStorage w; userInputs := userInputs w; posted := posted w;
     backend := backend w; clock := clock w; entropy := tl (entropy w);
     database := database w |}.

(** The world after [storeAndAppendCategories] has stored [merged] for the
    teacher and the snapshot of the sample. *)
Definition afterStore {J : JSON} (merged : AnalysisCategories)
  (teacherName sampleContent : string) (w : World) : World :=
  {| localStorage :=
       LocalStorage.update
         ("sample_" ++ underscoreWhiteSpace teacherName ++ "_" ++ ofN (hd 0%N (clock w)))
         sampleContent
         (LocalStorage.update (getCategoryStorageKey teacherName)
            (JSON_stringify (categoriesToJson merged)) (localStorage w));
     userInputs := userInputs w; posted := posted w; backend := backend w;
     clock := tl (clock w); entropy := entropy w;
     database := database w |}.

(** What the loop of [clearCategories] leaves of the entries it walks
    through: an entry whose key starts with the prefix goes, the entry after
    it moves into the place just looked at and is passed over. *)
Fixpoint sweep (sampleKeyPrefix : string) (ls : Storage) : Storage :=
  match ls with
  | [] => []
  | (k, v) :: rest =>
      if startsWith k sampleKeyPrefix then
        match rest with
        | [] => []
        | next :: rest' => next :: sweep sampleKeyPrefix rest'
        end
      else (k, v) :: sweep sampleKeyPrefix rest
  end.

(** No two neighbours both have a key that starts with the prefix. *)
Fixpoint apart (sampleKeyPrefix : string) (ls : Storage) : bool :=
  match ls with
  | [] => true
  | (k, _) :: rest =>
      match rest with
      | [] => true
      | (k', _) :: _ =>
          negb (startsWith k sampleKeyPrefix && startsWith k' sampleKeyPrefix)
          && apart sampleKeyPrefix rest
      end
  end.

(** The prefix of the snapshot keys of a teacher. *)
Definition sampleKeyPrefixOf (teacherName : string) : string :=
  "sample_" ++ underscoreWhiteSpace teacherName.

(** What the line scan keeps true: the result holds strings only, each one
    trimmed and not empty. *)
Definition cleanLines (result : Categories json) : Prop :=
  exists c : AnalysisCategories,
    result = mapCategories JStr c
    /\ forall s, In s (allSentences c) -> s <> EmptyString /\ trim s = s.

(** One of the five names of the categories, as a label of a template
    item. *)
Definition canonical (label : json) : Prop :=
  exists k : Category, label = JStr (categoryName k).

(** The sentences of a sample as [extractCommonPatterns] keeps them, and
    whether it keeps the sample at all. *)
Definition sentencesOf (sample : UserInput) : list string :=
  map trim (matchSentences (content sample)).

Definition usable (sample : UserInput) : bool :=
  negb (isEmpty (content sample)) && (0 <? List.length (matchSentences (content sample))).

(** The text after the terminators it begins with. *)
Fixpoint skipTerminators (s : string) : string :=
  match s with
  | String c r => if isTerminator c then skipTerminators r else s
  | EmptyString => EmptyString
  end.

(** Every character of [s] satisfies [p]. *)
Fixpoint allChars (p : ascii -> bool) (s : string) : bool :=
  match s with
  | String c r => p c && allChars p r
  | EmptyString => true
  end.

Definition isBodyChar (c : ascii) : bool := negb (isTerminator c).

(** A match of the sentence heuristic: a run of characters that are no
    terminators, then a run of terminators, neither of them empty. *)
Definition sentenceShaped (sentence : string) : Prop :=
  exists body terminators : string,
    sentence = (body ++ terminators)%string
    /\ body <> EmptyString /\ allChars isBodyChar body = true
    /\ terminators <> EmptyString /\ allChars isTerminator terminators = true.

(** What the scan has matched so far, and that it has the form it must
    have at that point. *)
Definition pending (st : Scan) : string :=
  match st with
  | Seeking => EmptyString
  | InBody matched | InTerminators matched => matched
  end.

Definition wellScanned (st : Scan) : Prop :=
  match st with
  | Seeking => True
  | InBody matched => matched <> EmptyString /\ allChars isBodyChar matched = true
  | InTerminators matched => sentenceShaped matched
  end.

(** The sentences that the store holds under a label: those of the category
    that the label names, and none under a label that names no category,
    be it the name of a member of [Object.prototype]. *)
Definition storedFor (categorizedSentences : AnalysisCategories) (label : json)
  : list string :=
  match memberFor categorizedSentences label with
  | Stored sentences => sentences
  | Inherited _ | Undefined => []
  end.

(** The sentences among which [generateLetter] draws the replacement of an
    item: the opening patterns for an opening item and the closing patterns
    for a closing item, when there are any, and the sentences that the store
    holds under the label of the item otherwise. *)
Definition pool (categorizedSentences : AnalysisCategories)
  (openingSentences closingSentences : list string) (item : TemplateItem) : list string :=
  if isOpening (position item) && (0 <? List.length openingSentences) then openingSentences
  else if isClosing (position item) && (0 <? List.length closingSentences)
       then closingSentences
       else storedFor categorizedSentences (category item).

(** ** Sample data

    Concrete worlds and inputs on which the statements below are run. *)

Definition damagedStore : World :=
  {| localStorage := [("categorized_sentences_Ms_Smith", "{oops")];
     userInputs := []; posted := []; backend := []; clock := []; entropy := [];
     database := [] |}.

Definition sampleOf (ident : string) (stamp : N) (teacher text : string) : UserInput :=
  {| id := ident; timestamp := stamp; content := text; type := WritingSample;
     teacherName := teacher; metadata := None |}.

Definition worldWithInputs (inputs : list UserInput) : World :=
  {| localStorage := []; userInputs := inputs; posted := []; backend := [];
     clock := []; entropy := [];
     database := [] |}.

Definition unpunctuated : UserInput :=
  sampleOf "sample-1" 1%N "Ms Smith" "Dear committee, more to follow".

Definition threeSentences : UserInput :=
  sampleOf "sample-1" 1%N "Ms Smith" "A. B. C.".

Definition letterText : string :=
  "I am writing to recommend Jane. She works hard. Please feel free to contact me. Sincerely yours.".

Definition letterA : UserInput := sampleOf "sample-1" 1%N "Ms Smith" letterText.

Definition letterB : UserInput := sampleOf "sample-2" 2%N "Ms Smith" letterText.

(** Five sentences of which the second and the fourth have no word of more
    than three characters and no phrase of the lexicon. *)
Definition mixedText : string :=
  "I am writing to recommend Jane. Ok. She works hard. So. Sincerely yours.".

Definition mixedA : UserInput := sampleOf "sample-1" 1%N "Ms Smith" mixedText.

Definition mixedB : UserInput := sampleOf "sample-2" 2%N "Ms Smith" mixedText.

Definition threeSentencesAgain : UserInput :=
  sampleOf "sample-2" 2%N "Ms Smith" "A. B. C.".

(** A world whose backend answers the next calls with status 200 and the
    given texts in the [response] field of the body. *)
Definition worldAnswering (texts : list string) : World :=
  {| localStorage := []; userInputs := []; posted := [];
     backend := map (fun t => Responds {| status := 200%N;
                                          body := MiniJson.print (JObj [("response", JStr t)]) |})
                    texts;
     clock := []; entropy := [];
     database := [] |}.

Definition worldFailing (outcome : FetchOutcome) : World :=
  {| localStorage := []; userInputs := []; posted := []; backend := [outcome];
     clock := []; entropy := [];
     database := [] |}.

Definition fiveSentences : string :=
  "I have known Jane for two years. She is diligent. She leads her team well. I recommend her highly. Please contact me with any question.".

Definition fiveLabels : string :=
  MiniJson.print (JArr [ JStr "introduction_context"; JStr "qualities"; JStr "qualities";
                         JStr "endorsement"; JStr "further_discussion" ]).

Definition knownItem : TemplateItem :=
  {| category := JStr "introduction_context";
     originalSentence := "I have known Jane for two years."; position := Opening |}.

Definition leadsItem : TemplateItem :=
  {| category := JStr "qualities";
     originalSentence := "She leads her team well."; position := Middle |}.

Definition recommendItem : TemplateItem :=
  {| category := JStr "endorsement";
     originalSentence := "I recommend her highly."; position := Closing |}.

Definition diligentItem : TemplateItem :=
  {| category := JStr "qualities";
     originalSentence := "She is diligent."; position := Middle |}.

Definition fiveItems : list TemplateItem :=
  [ knownItem;
    diligentItem;
    leadsItem;
    recommendItem;
    {| category := JStr "further_discussion";
       originalSentence := "Please contact me with any question."; position := Closing |} ].

Definition twoItems : list TemplateItem :=
  [ {| category := JStr "commentary";
       originalSentence := "Jane is kind."; position := Opening |};
    {| category := JStr "commentary";
       originalSentence := "Write to me."; position := Closing |} ].

Definition jane : StudentInfo :=
  {| studentName := "Jane Doe"; schoolProgram := "State University";
     course := "Physics"; customCourse := None; whenTaught := "Fall 2023";
     academicStrength := "excellent";
     characterWords := ["kind"; "curious"; "steady"];
     academicAnecdote := "She rebuilt the lab pendulum.";
     characterAnecdote := "She tutors her classmates." |}.

Definition endorsementAnswer : string :=
  MiniJson.print (JObj [("endorsement", JArr [JStr "She is great."])]).

Definition firstBatch : AnalysisCategories :=
  {| introduction_context := ["I have known Jane for two years."];
     endorsement := ["I recommend her highly."; "  I recommend her highly. "];
     commentary := []; qualities := ["She is diligent."];
     further_discussion := ["I recommend her highly."] |}.

Definition secondBatch : AnalysisCategories :=
  {| introduction_context := []; endorsement := []; commentary := ["She asks good questions."];
     qualities := ["She is diligent."]; further_discussion := [] |}.

(** An empty storage and a clock that will read two consecutive instants. *)
Definition freshWorld : World :=
  {| localStorage := []; userInputs := []; posted := []; backend := [];
     clock := [1700000000001%N; 1700000000002%N]; entropy := [];
     database := [] |}.

(** The world after two samples of one teacher have been stored. *)
Definition twoSnapshots : World :=
  snd (@storeAndAppendCategories MiniJson.codec secondBatch "Ms Smith" "Second sample."
         (snd (@storeAndAppendCategories MiniJson.codec firstBatch "Ms Smith" "First sample."
                 freshWorld))).

(** A store with no sentence of the category [qualities], and a world whose
    random generator will draw 1/2, 0 and 7/8. *)
Definition sparseStore : AnalysisCategories :=
  {| introduction_context := ["I taught Tom for a year."];
     endorsement := ["I endorse Tom."; "Tom has my full support."];
     commentary := ["Tom asks good questions."]; qualities := [];
     further_discussion := ["Please write to me."] |}.

Definition drawingWorld : World :=
  {| localStorage := []; userInputs := []; posted := [];
     backend := [Responds {| status := 200%N;
                             body := MiniJson.print (JObj [("response", JStr "Dear committee.")]) |}];
     clock := []; entropy := [ {| Double.mantissa := 1; Double.scale := 1 |}; Double.zero;
                               {| Double.mantissa := 7; Double.scale := 3 |} ];
     database := [] |}.

(** A stored object with a sixth key, as no run of the program writes it,
    and categories whose only sentence is the one under that key. *)
Definition foreignEntry : World :=
  {| localStorage :=
       [ ("categorized_sentences_Ms_Smith",
          MiniJson.print
            (JObj [ ("introduction_context", JArr []); ("endorsement", JArr []);
                    ("commentary", JArr []); ("qualities", JArr []);
                    ("further_discussion", JArr []);
                    ("archived", JArr [JStr "She is diligent."]) ])) ];
     userInputs := []; posted := []; backend := []; clock := []; entropy := [];
     database := [] |}.

Definition diligentOnly : AnalysisCategories :=
  {| introduction_context := []; endorsement := []; commentary := [];
     qualities := ["She is diligent."]; further_discussion := [] |}.

(** An entry of another module and a damaged entry of another teacher. *)
Definition sharedStorage : World :=
  {| localStorage := [ ("theme", "dark"); ("categorized_sentences_Mr_Jones", "{oops") ];
     userInputs := []; posted := []; backend := [];
     clock := [1700000000001%N]; entropy := [];
     database := [] |}.

(** A stored object that lacks four of the five categories. *)
Definition partialEntry : World :=
  {| localStorage :=
       [ ("categorized_sentences_Ms_Smith",
          MiniJson.print (JObj [("endorsement", JArr [JStr "She is great."])])) ];
     userInputs := []; posted := []; backend := [];
     clock := [1700000000001%N]; entropy := [];
     database := [] |}.

(** Two teachers have had samples analyzed in turn: no two snapshots of
    Ms Smith are neighbours. *)
Definition interleavedStorage : World :=
  {| localStorage :=
       [ ("categorized_sentences_Ms_Smith", "{oops");
         ("sample_Ms_Smith_1700000000001", "First sample.");
         ("categorized_sentences_Mr_Jones", "{oops");
         ("sample_Mr_Jones_1700000000002", "A sample of Mr Jones.");
         ("sample_Ms_Smith_1700000000003", "Second sample.") ];
     userInputs := []; posted := []; backend := []; clock := []; entropy := [];
     database := [] |}.

(** An answer of the model in plain text, without a JSON object. *)
Definition plainAnswer : string :=
  "Endorsement:" ++ singleton newline ++ "* She is great. " ++ singleton newline
  ++ singleton newline ++ "Qualities" ++ singleton newline ++ "She is diligent.".

(** A backend that lists two models under an error status. *)
Definition listingBackend : World :=
  {| localStorage := []; userInputs := []; posted := [];
     backend := [ Responds {| status := 500%N;
                              body := MiniJson.print
                                        (JObj [("models",
                                                JArr [ JObj [("name", JStr "gemma3")];
                                                       JObj [("name", JStr "llama3")] ])]) |} ];
     clock := []; entropy := [];
     database := [] |}.

Definition shortNote : UserInput := sampleOf "sample-0" 0%N "Ms Smith" "Sincerely yours.".

Definition janeSample : UserInput :=
  sampleOf "sample-7" 7%N "Ms Smith" "Jane is kind. Write to me.".

Definition drawingFrom (inputs : list UserInput) (draws : list Double.Draw) : World :=
  {| localStorage := []; userInputs := inputs; posted := []; backend := [];
     clock := []; entropy := draws;
     database := [] |}.

Definition letterC : UserInput := sampleOf "sample-3" 3%N "Ms Smith" letterText.

(** The double nearest to a third, which is below it, and the double
    nearest to two thirds. *)
Definition belowOneThird : Double.Draw :=
  {| Double.mantissa := 6004799503160661; Double.scale := 54 |}.

Definition twoThirds : Double.Draw :=
  {| Double.mantissa := 6004799503160661; Double.scale := 53 |}.

(** A template whose first label is the name of a member of
    [Object.prototype], and a world with the two draws 7/8 and 1/8. *)
Definition inheritedItems : list TemplateItem :=
  [ {| category := JStr "constructor"; originalSentence := "First stays.";
       position := Opening |};
    {| category := JStr "endorsement"; originalSentence := "Second goes.";
       position := Closing |} ].

Definition twoDraws : World :=
  drawingFrom [] [ {| Double.mantissa := 7; Double.scale := 3 |};
                   {| Double.mantissa := 1; Double.scale := 3 |} ].

(** The world in which the database rejects the next operation: it cannot
    be opened. *)
Definition rejecting (w : World) : World :=
  {| localStorage := localStorage w; userInputs := userInputs w; posted := posted w;
     backend := backend w; clock := clock w; entropy := entropy w;
     database := [Rejected (Rejection "Could not open IndexedDB")] |}.

(** * Properties *)

(** Unfolds the plumbing of [M]. *)
Ltac run :=
  unfold bind, ret, throw, lift, tryCatch,
    LocalStorage.getItem, LocalStorage.setItem, LocalStorage.removeItem,
    LocalStorage.length, LocalStorage.key, LocalStorage.withStorage,
    DbStorage.getTeacherWritingSamples, DbStorage.saveUserInput, DbStorage.settle,
    Date_now, Math_random, randomIndex, fetchGenerate;
  simpl.

(** ** The category store: [getCategories] *)

(** C9.  [getCategories] is total with a well-formed default: for a teacher
    with nothing stored, and for a teacher whose stored text [JSON.parse]
    rejects, it returns the object with the five category keys, each an
    empty array; it completes normally and leaves the world as it was. *)
Theorem getCategories_default :
  forall (J : JSON) (teacherName : string) (w : World),
    LocalStorage.lookup (getCategoryStorageKey teacherName) (localStorage w) = None
    \/ (exists stored,
          LocalStorage.lookup (getCategoryStorageKey teacherName) (localStorage w)
          = Some stored
          /\ JSON_parse stored = None) ->
    getCategories teacherName w
    = (Normal (JObj [ ("introduction_context", JArr []);
                      ("endorsement", JArr []);
                      ("commentary", JArr []);
                      ("qualities", JArr []);
                      ("further_discussion", JArr []) ]),
       w).
Proof.
  intros J teacherName w [Hnone | [stored [Hsome Hparse]]];
    unfold getCategories; run.
  - rewrite Hnone. reflexivity.
  - rewrite Hsome. unfold storedOrEmpty. destruct (isEmpty stored); [reflexivity |].
    rewrite Hparse. reflexivity.
Qed.

(** [getCategories] never throws, whatever is stored. *)
Lemma getCategories_total :
  forall (J : JSON) (teacherName : string) (w : World),
    exists v, getCategories teacherName w = (Normal v, w).
Proof.
  intros J teacherName w. unfold getCategories; run. eauto.
Qed.

Lemma getCategories_default_witness :
  @getCategories MiniJson.codec "Ms Smith" damagedStore
  = (Normal (JObj [ ("introduction_context", JArr []);
                    ("endorsement", JArr []);
                    ("commentary", JArr []);
                    ("qualities", JArr []);
                    ("further_discussion", JArr []) ]),
     damagedStore).
Proof.
  apply (getCategories_default MiniJson.codec "Ms Smith" damagedStore).
  right. exists "{oops". split; reflexivity.
Defined.

(** ** Pattern extraction with fewer than two samples *)

(** C10.  When exactly one writing sample exists for the teacher, its content
    is not empty and the sentence heuristic finds no sentence in it,
    [extractCommonPatterns] returns the one-element sequences [['']] for
    both the opening and the closing sentences. *)
Theorem single_sample_without_sentence :
  forall (teacherName : string) (w : World) (sample : UserInput),
    DbStorage.getTeacherWritingSamples teacherName w = (Normal [sample], w) ->
    content sample <> EmptyString ->
    matchSentences (content sample) = [] ->
    extractCommonPatterns teacherName w
    = (Normal {| openingSentences := [EmptyString];
                 closingSentences := [EmptyString] |}, w).
Proof.
  intros teacherName w sample Hread Hcontent Hnone.
  unfold extractCommonPatterns, bind. rewrite Hread. unfold ret, patternsOf. simpl.
  destruct (content sample) as [| c r] eqn:E; [contradiction |].
  simpl. rewrite Hnone. reflexivity.
Qed.

Lemma single_sample_without_sentence_witness :
  extractCommonPatterns "Ms Smith" (worldWithInputs [unpunctuated])
  = (Normal {| openingSentences := [EmptyString];
               closingSentences := [EmptyString] |},
     worldWithInputs [unpunctuated]).
Proof.
  apply (single_sample_without_sentence "Ms Smith" (worldWithInputs [unpunctuated])
           unpunctuated).
  - reflexivity.
  - discriminate.
  - reflexivity.
Defined.

(** ** The similarity test on a pair of sentences *)

Lemma Qle_bool_proper : forall a x y : Q, (x == y)%Q -> Qle_bool a x = Qle_bool a y.
Proof.
  intros a x y E. destruct (Qle_bool a x) eqn:H1, (Qle_bool a y) eqn:H2; auto.
  - apply Qle_bool_iff in H1. rewrite E in H1. apply Qle_bool_iff in H1. congruence.
  - apply Qle_bool_iff in H2. rewrite <- E in H2. apply Qle_bool_iff in H2. congruence.
Qed.

Lemma avgSimilarity_pair : forall a b,
  (avgSimilarity [a; b] == similarity a b)%Q.
Proof.
  intros. unfold avgSimilarity. simpl. unfold ofNatQ. simpl. field.
Qed.

Lemma enough_kept : forall k, k <= 2 ->
  Qle_bool (ofNatQ 2 * (7 # 10)) (ofNatQ k) = (2 <=? k).
Proof.
  intros k Hk. destruct k as [|[|[|k]]]; try reflexivity. lia.
Qed.

Lemma areSentencesSimilar_pair : forall s1 s2,
  areSentencesSimilar [s1; s2]
  = negb (isEmpty s1) && negb (isEmpty s2)
    && (withinLength [s1; s2] s1 && withinLength [s1; s2] s2)
    && (Qle_bool (3 # 10) (similarity (tokenizeSentence s1) (tokenizeSentence s2))
        || (hasKeyPhrase s1 || hasKeyPhrase s2)).
Proof.
  intros s1 s2. unfold areSentencesSimilar.
  cbn [List.length Nat.ltb Nat.leb existsb].
  destruct (isEmpty s1); [reflexivity |].
  destruct (isEmpty s2); [reflexivity |].
  cbn [orb negb andb filter].
  destruct (withinLength [s1; s2] s1), (withinLength [s1; s2] s2);
    cbn [List.length andb map existsb]; rewrite enough_kept by lia; cbn [Nat.leb negb];
    try reflexivity.
  rewrite (Qle_bool_proper _ _ _ (avgSimilarity_pair _ _)).
  rewrite orb_false_r. reflexivity.
Qed.

Lemma isEmpty_length : forall s, isEmpty s = false -> 0 < String.length s.
Proof. destruct s; simpl; [discriminate | lia]. Qed.

Lemma lenRatio_same : forall s, isEmpty s = false -> (lenRatio [s; s] s == 1)%Q.
Proof.
  intros s H. apply isEmpty_length in H.
  unfold lenRatio, sumOfLengths, ofNatQ. cbn [fold_left List.length Nat.add].
  rewrite Nat2Z.inj_add, inject_Z_plus.
  change (inject_Z (Z.of_nat 2)) with 2%Q. field. unfold Qeq, Qplus. simpl. lia.
Qed.

Lemma withinLength_same : forall s, isEmpty s = false -> withinLength [s; s] s = true.
Proof.
  intros s H. unfold withinLength.
  rewrite (Qle_bool_proper _ _ _ (lenRatio_same s H)).
  assert (E : Qle_bool (lenRatio [s; s] s) (13 # 10) = true).
  { apply Qle_bool_iff. rewrite (lenRatio_same s H). discriminate. }
  rewrite E. reflexivity.
Qed.

Lemma withinLength_nonempty : forall sentences s,
  withinLength sentences s = true -> isEmpty s = false.
Proof.
  intros sentences s H. destruct s; [| reflexivity].
  unfold withinLength, lenRatio in H. apply andb_prop in H. destruct H as [H _].
  apply Qle_bool_iff in H. unfold Qle, Qdiv, Qmult in H. simpl in H. lia.
Qed.

Lemma uniqueCount_positive : forall words,
  (0 <? uniqueCount words) = existsb countsAsKey words.
Proof.
  intros words. unfold uniqueCount. fold countsAsKey.
  induction words as [| w rest IH]; [reflexivity |].
  simpl. destruct (countsAsKey w) eqn:E; simpl; [| exact IH].
  destruct (in_dec string_dec w (filter countsAsKey rest)) as [Hin | Hout].
  - rewrite IH. apply existsb_exists. exists w. split; [| exact E].
    apply filter_In in Hin. tauto.
  - reflexivity.
Qed.

Lemma uniqueCount_bound : forall words pool,
  incl words pool -> uniqueCount words <= List.length pool.
Proof.
  intros words pool Hincl. unfold uniqueCount.
  apply NoDup_incl_length; [apply NoDup_nodup |].
  intros x Hx. apply nodup_In, filter_In in Hx. apply Hincl. tauto.
Qed.

Lemma filter_all : forall (A : Type) (p : A -> bool) (l : list A),
  (forall x, In x l -> p x = true) -> filter p l = l.
Proof.
  intros A p l H. induction l as [| x rest IH]; [reflexivity |].
  simpl. rewrite (H x (or_introl eq_refl)). f_equal. apply IH.
  intros y Hy. apply H. right. exact Hy.
Qed.

Lemma occursIn_self : forall words x, In x words -> occursIn words x = true.
Proof.
  intros words x H. apply existsb_exists. exists x. split; [exact H |].
  apply String.eqb_refl.
Qed.

(** A word array against itself: 1 or more when it has a word that counts,
    0 when it has none. *)
Lemma similarity_self : forall words,
  Qle_bool (3 # 10) (similarity words words) = existsb countsAsKey words.
Proof.
  intros words. unfold similarity.
  rewrite (filter_all _ _ words (occursIn_self words)).
  pose proof (uniqueCount_positive (words ++ words)) as Hpos.
  rewrite existsb_app, orb_diag in Hpos.
  assert (Hbound : uniqueCount (words ++ words) <= List.length words).
  { apply uniqueCount_bound. intros x Hx. apply in_app_or in Hx. tauto. }
  rewrite <- Hpos.
  destruct (0 <? uniqueCount (words ++ words)) eqn:E; [| reflexivity].
  apply Nat.ltb_lt in E. apply Qle_bool_iff.
  unfold Qle, Qdiv, Qmult, Qinv, ofNatQ, inject_Z. simpl.
  destruct (Z.of_nat (uniqueCount (words ++ words))) eqn:Eu; simpl; lia.
Qed.

Lemma recognizable_nonempty : forall s, recognizable s = true -> isEmpty s = false.
Proof. intros [| c r] H; [discriminate H | reflexivity]. Qed.

Lemma areSentencesSimilar_same : forall s,
  areSentencesSimilar [s; s] = negb (isEmpty s) && recognizable s.
Proof.
  intros s. rewrite areSentencesSimilar_pair.
  destruct (isEmpty s) eqn:E; [reflexivity |].
  rewrite (withinLength_same s E), similarity_self, orb_diag. reflexivity.
Qed.

Lemma areSentencesSimilar_recognizable : forall s,
  recognizable s = true -> areSentencesSimilar [s; s] = true.
Proof.
  intros s H. rewrite areSentencesSimilar_same, H, (recognizable_nonempty s H).
  reflexivity.
Qed.

(** For a pair, the length ratio of a sentence exceeds 1.3 exactly when it
    is more than 13/7 as long as the other one. *)
Lemma lenRatio_pair_threshold : forall s1 s2,
  (13 # 10 < lenRatio [s1; s2] s1)%Q
  <-> 13 * String.length s2 < 7 * String.length s1.
Proof.
  intros s1 s2. unfold lenRatio, sumOfLengths, ofNatQ.
  cbn [fold_left List.length Nat.add].
  unfold Qlt, Qdiv, Qmult, Qinv, inject_Z. cbn [Qnum Qden].
  destruct (String.length s1) as [| a]; destruct (String.length s2) as [| b];
    cbn [Nat.add Z.of_nat]; simpl; lia.
Qed.

Lemma ofNatQ_positive : forall n : nat, 0 < n -> (0 < ofNatQ n)%Q.
Proof.
  intros n Hn. unfold ofNatQ. change 0%Q with (inject_Z 0). rewrite <- Zlt_Qlt. lia.
Qed.

Lemma ratio_le : forall a b c d : nat,
  0 < b -> 0 < d -> a * d <= c * b ->
  (ofNatQ a / ofNatQ b <= ofNatQ c / ofNatQ d)%Q.
Proof.
  intros a b c d Hb Hd H.
  pose proof (ofNatQ_positive b Hb) as Hb'. pose proof (ofNatQ_positive d Hd) as Hd'.
  apply Qle_shift_div_l; [exact Hd' |].
  assert (E : (ofNatQ a / ofNatQ b * ofNatQ d == ofNatQ a * ofNatQ d / ofNatQ b)%Q).
  { field. intros E. rewrite E in Hb'. apply (Qlt_irrefl _ Hb'). }
  rewrite E. apply Qle_shift_div_r; [exact Hb' |].
  unfold ofNatQ. rewrite <- !inject_Z_mult, <- Zle_Qle. lia.
Qed.

Lemma nodup_length_le : forall l : list string,
  List.length (nodup string_dec l) <= List.length l.
Proof.
  intros l. apply NoDup_incl_length; [apply NoDup_nodup |].
  intros x Hx. apply nodup_In in Hx. exact Hx.
Qed.

(** As soon as a word counts, the similarity that the code computes is at
    least the Jaccard index: it counts a common word as often as the first
    array has it, and it leaves [__proto__] out of the union. *)
Lemma similarity_above_jaccard : forall a b : list string,
  existsb countsAsKey (a ++ b) = true ->
  (jaccard a b <= similarity a b)%Q.
Proof.
  intros a b Hkey. unfold jaccard, similarity.
  rewrite uniqueCount_positive, Hkey.
  assert (Hunion : 0 < uniqueCount (a ++ b)).
  { apply Nat.ltb_lt. rewrite uniqueCount_positive. exact Hkey. }
  assert (Hbound : uniqueCount (a ++ b) <= List.length (nodup string_dec (a ++ b))).
  { apply uniqueCount_bound. intros x Hx. apply nodup_In. exact Hx. }
  assert (E : (0 <? List.length (nodup string_dec (a ++ b))) = true)
    by (apply Nat.ltb_lt; lia).
  rewrite E.
  pose proof (nodup_length_le (filter (occursIn b) a)) as Hcommon.
  apply ratio_le; [lia | exact Hunion |]. nia.
Qed.

Lemma jaccard_none_left : forall b : list string, (jaccard [] b == 0)%Q.
Proof.
  intros b. unfold jaccard. cbn [filter nodup List.length app].
  destruct (0 <? List.length (nodup string_dec b)); [| reflexivity].
  unfold ofNatQ, Qdiv. cbn. apply Qmult_0_l.
Qed.

Lemma jaccard_none_right : forall a : list string, (jaccard a [] == 0)%Q.
Proof.
  intros a. unfold jaccard.
  assert (E : filter (occursIn []) a = []).
  { induction a as [| x rest IH]; [reflexivity | exact IH]. }
  rewrite E. cbn [nodup List.length].
  destruct (0 <? List.length (nodup string_dec (a ++ []))); [| reflexivity].
  unfold ofNatQ, Qdiv. cbn. apply Qmult_0_l.
Qed.

(** For two sentences, the length filter keeps a sentence exactly when it
    is at least 7/13 and at most 13/7 as long as the other one. *)
Lemma withinLength_pair : forall s1 s2 : string,
  0 < String.length s1 ->
  withinLength [s1; s2] s1
  = (7 * String.length s2 <=? 13 * String.length s1)
    && (7 * String.length s1 <=? 13 * String.length s2).
Proof.
  intros s1 s2 H1. unfold withinLength, lenRatio, sumOfLengths, ofNatQ.
  cbn [fold_left List.length Nat.add].
  set (a := String.length s1) in *. set (b := String.length s2).
  assert (Hsum : (0 < inject_Z (Z.of_nat (a + b)))%Q).
  { change 0%Q with (inject_Z 0). rewrite <- Zlt_Qlt. lia. }
  assert (Hratio : (inject_Z (Z.of_nat a) / (inject_Z (Z.of_nat (a + b)) / inject_Z (Z.of_nat 2))
                    == inject_Z (2 * Z.of_nat a) / inject_Z (Z.of_nat (a + b)))%Q).
  { rewrite inject_Z_mult. change (inject_Z (Z.of_nat 2)) with 2%Q. change (inject_Z 2) with 2%Q.
    field. intros E. rewrite E in Hsum. apply (Qlt_irrefl _ Hsum). }
  f_equal.
  - destruct (7 * b <=? 13 * a) eqn:E.
    + apply Nat.leb_le in E. apply Qle_bool_iff. rewrite Hratio.
      apply Qle_shift_div_l; [exact Hsum |].
      unfold Qle, Qmult, inject_Z. cbn [Qnum Qden]. lia.
    + apply Nat.leb_gt in E. destruct (Qle_bool _ _) eqn:Eq; [| reflexivity].
      apply Qle_bool_iff in Eq. rewrite Hratio in Eq. exfalso.
      apply (Qmult_le_compat_r _ _ (inject_Z (Z.of_nat (a + b)))) in Eq;
        [| apply Qlt_le_weak, Hsum].
      assert (E2 : (inject_Z (2 * Z.of_nat a) / inject_Z (Z.of_nat (a + b))
                    * inject_Z (Z.of_nat (a + b)) == inject_Z (2 * Z.of_nat a))%Q).
      { field. intros E0. rewrite E0 in Hsum. apply (Qlt_irrefl _ Hsum). }
      rewrite E2 in Eq. unfold Qle, Qmult, inject_Z in Eq. cbn [Qnum Qden] in Eq. lia.
  - destruct (7 * a <=? 13 * b) eqn:E.
    + apply Nat.leb_le in E. apply Qle_bool_iff. rewrite Hratio.
      apply Qle_shift_div_r; [exact Hsum |].
      unfold Qle, Qmult, inject_Z. cbn [Qnum Qden]. lia.
    + apply Nat.leb_gt in E. destruct (Qle_bool _ _) eqn:Eq; [| reflexivity].
      apply Qle_bool_iff in Eq. rewrite Hratio in Eq. exfalso.
      apply (Qmult_le_compat_r _ _ (inject_Z (Z.of_nat (a + b)))) in Eq;
        [| apply Qlt_le_weak, Hsum].
      assert (E2 : (inject_Z (2 * Z.of_nat a) / inject_Z (Z.of_nat (a + b))
                    * inject_Z (Z.of_nat (a + b)) == inject_Z (2 * Z.of_nat a))%Q).
      { field. intros E0. rewrite E0 in Hsum. apply (Qlt_irrefl _ Hsum). }
      rewrite E2 in Eq. unfold Qle, Qmult, inject_Z in Eq. cbn [Qnum Qden] in Eq. lia.
Qed.

Lemma lenRatio_swap : forall s1 s2 s : string,
  lenRatio [s1; s2] s = lenRatio [s2; s1] s.
Proof.
  intros s1 s2 s. unfold lenRatio, sumOfLengths. cbn [fold_left List.length Nat.add].
  rewrite (Nat.add_comm (String.length s1)). reflexivity.
Qed.

Lemma withinLength_pair_second : forall s1 s2 : string,
  0 < String.length s2 ->
  withinLength [s1; s2] s2
  = (7 * String.length s1 <=? 13 * String.length s2)
    && (7 * String.length s2 <=? 13 * String.length s1).
Proof.
  intros s1 s2 H2. rewrite <- (withinLength_pair s2 s1 H2).
  unfold withinLength. rewrite (lenRatio_swap s1 s2 s2). reflexivity.
Qed.

Lemma tokenizeSentence_nonempty : forall s : string,
  tokenizeSentence s <> [] -> 0 < String.length s.
Proof. intros [| c r] H; [exfalso; apply H; reflexivity | cbn; lia]. Qed.

(** C4, as the code has it.  The similarity test on a pair.  Two sentences
    of near-equal length, neither more than 13/7 as long as the other, which
    is what keeps both within 30% of their mean length, are judged similar
    when their word arrays (lower case, punctuation removed, words of more
    than three characters) have a Jaccard index of at least 0.3 and hold a
    word other than [__proto__].  Two sentences of which one is more than
    13/7 as long as the other, so that its length is more than 1.3 times
    the mean length of the two, are judged dissimilar whatever their words,
    because the length filter removes them before the word overlap and the
    key phrases are looked at. *)
Theorem similarity_threshold :
  (forall s1 s2 : string,
      7 * String.length s1 <= 13 * String.length s2 ->
      7 * String.length s2 <= 13 * String.length s1 ->
      (3 # 10 <= jaccard (tokenizeSentence s1) (tokenizeSentence s2))%Q ->
      existsb countsAsKey (tokenizeSentence s1 ++ tokenizeSentence s2) = true ->
      areSentencesSimilar [s1; s2] = true)
  /\ (forall s1 s2 : string,
         13 * String.length s2 < 7 * String.length s1
         \/ 13 * String.length s1 < 7 * String.length s2 ->
         areSentencesSimilar [s1; s2] = false).
Proof.
  split; intros s1 s2.
  - intros H12 H21 Hjaccard Hkey.
    assert (Ht1 : tokenizeSentence s1 <> []).
    { intros E. rewrite E, jaccard_none_left in Hjaccard.
      unfold Qle in Hjaccard. cbn in Hjaccard. lia. }
    assert (Ht2 : tokenizeSentence s2 <> []).
    { intros E. rewrite E, jaccard_none_right in Hjaccard.
      unfold Qle in Hjaccard. cbn in Hjaccard. lia. }
    pose proof (tokenizeSentence_nonempty s1 Ht1) as H1.
    pose proof (tokenizeSentence_nonempty s2 Ht2) as H2.
    rewrite areSentencesSimilar_pair.
    rewrite (withinLength_pair s1 s2 H1), (withinLength_pair_second s1 s2 H2).
    apply Nat.leb_le in H12. apply Nat.leb_le in H21. rewrite H12, H21.
    assert (E1 : isEmpty s1 = false) by (destruct s1; [cbn in H1; lia | reflexivity]).
    assert (E2 : isEmpty s2 = false) by (destruct s2; [cbn in H2; lia | reflexivity]).
    rewrite E1, E2. cbn [negb andb].
    assert (Hsim : Qle_bool (3 # 10)
                     (similarity (tokenizeSentence s1) (tokenizeSentence s2)) = true).
    { apply Qle_bool_iff.
      apply (Qle_trans _ _ _ Hjaccard (similarity_above_jaccard _ _ Hkey)). }
    rewrite Hsim. reflexivity.
  - intros Hfar. rewrite areSentencesSimilar_pair.
    destruct (isEmpty s1) eqn:E1; [reflexivity |].
    destruct (isEmpty s2) eqn:E2; [reflexivity |].
    rewrite (withinLength_pair s1 s2 (isEmpty_length s1 E1)).
    rewrite (withinLength_pair_second s1 s2 (isEmpty_length s2 E2)).
    cbn [negb andb].
    destruct Hfar as [H | H].
    + assert (E : (7 * String.length s1 <=? 13 * String.length s2) = false)
        by (apply Nat.leb_gt; exact H).
      rewrite E, andb_false_r. reflexivity.
    + assert (E : (7 * String.length s2 <=? 13 * String.length s1) = false)
        by (apply Nat.leb_gt; exact H).
      rewrite E. reflexivity.
Qed.

Lemma similarity_threshold_witness :
  areSentencesSimilar ["She works hard every week."; "She works hard every year."] = true
  /\ areSentencesSimilar
       ["A great, great, great and truly great student."; "A great student."] = false.
Proof.
  split.
  - apply (proj1 similarity_threshold); [cbn; lia | cbn; lia | |].
    + apply Qle_bool_iff. vm_compute. reflexivity.
    + reflexivity.
  - apply (proj2 similarity_threshold). left. cbn. lia.
Defined.

(** Where the wording of the claim and the code part.  "She works hard."
    has 15 characters and "She works hard!!!!!!!!!!" has 24, a ratio of 1.6,
    and the same words: both lengths are within 30% of the mean 19.5, and
    the pair is judged similar.  And a sentence whose only word of more
    than three characters is [__proto__] has a Jaccard index of 1 with
    itself, and is judged not similar to itself: the code adds no key to
    the union for that word, and sets the similarity to 0. *)
Lemma similar_despite_length :
  tokenizeSentence "She works hard." = tokenizeSentence "She works hard!!!!!!!!!!"
  /\ String.length "She works hard." = 15
  /\ String.length "She works hard!!!!!!!!!!" = 24
  /\ areSentencesSimilar ["She works hard."; "She works hard!!!!!!!!!!"] = true
  /\ tokenizeSentence "__proto__." = ["__proto__"]
  /\ (jaccard (tokenizeSentence "__proto__.") (tokenizeSentence "__proto__.") == 1)%Q
  /\ areSentencesSimilar ["__proto__."; "__proto__."] = false.
Proof. repeat split. Qed.

(** ** Pattern extraction *)

Lemma extractCommonPatterns_reads : forall teacherName w w' samples,
  DbStorage.getTeacherWritingSamples teacherName w = (Normal samples, w') ->
  extractCommonPatterns teacherName w = (Normal (patternsOf samples), w').
Proof.
  intros teacherName w w' samples H. unfold extractCommonPatterns, bind.
  rewrite H. reflexivity.
Qed.

Lemma skipn_nth : forall (l : list string) (p : nat),
  p < List.length l -> skipn p l = nth p l EmptyString :: skipn (S p) l.
Proof.
  induction l as [| x rest IH]; intros p Hp; simpl in Hp; [lia |].
  destruct p as [| p]; [reflexivity |].
  simpl. apply IH. lia.
Qed.

Lemma firstn_snoc : forall (l : list string) (q : nat),
  q < List.length l -> firstn (S q) l = firstn q l ++ [nth q l EmptyString].
Proof.
  induction l as [| x rest IH]; intros q Hq; simpl in Hq; [lia |].
  destruct q as [| q]; [reflexivity |].
  simpl. f_equal. apply IH. lia.
Qed.

(** The opening scan over two copies of the same sentences. *)
Lemma openingLoop_same : forall (S0 : list string) (rounds position : nat) (found : list string),
  position + rounds <= List.length S0 ->
  (forall s, In s (firstn rounds (skipn position S0)) -> recognizable s = true) ->
  openingLoop rounds position [S0; S0] found
  = found ++ firstn rounds (skipn position S0).
Proof.
  intros S0 rounds. induction rounds as [| r IH]; intros position found Hlen Hrec.
  - simpl. rewrite app_nil_r. reflexivity.
  - cbn [openingLoop map nth].
    rewrite (skipn_nth S0 position) in * by lia.
    cbn [firstn] in *.
    rewrite areSentencesSimilar_recognizable by (apply Hrec; left; reflexivity).
    rewrite IH; [| lia | intros s Hs; apply Hrec; right; exact Hs].
    rewrite <- app_assoc. reflexivity.
Qed.

Lemma fromEnd_nth : forall (S0 : list string) (j : nat),
  j < List.length S0 ->
  fromEnd (S j) S0 = nth (List.length S0 - S j) S0 EmptyString.
Proof.
  intros S0 j H. unfold fromEnd.
  destruct (S j <=? List.length S0) eqn:E; [reflexivity |].
  apply Nat.leb_gt in E. lia.
Qed.

(** The closing scan over two copies of the same sentences; [j] sentences
    from the end have been taken already. *)
Lemma closingLoop_same : forall (S0 : list string) (rounds j : nat) (found : list string),
  j + rounds <= List.length S0 ->
  (forall i, List.length S0 - j - rounds <= i < List.length S0 - j ->
             recognizable (nth i S0 EmptyString) = true) ->
  closingLoop rounds (S j) [S0; S0] found
  = skipn (List.length S0 - j - rounds) (firstn (List.length S0 - j) S0) ++ found.
Proof.
  intros S0 rounds. induction rounds as [| r IH]; intros j found Hlen Hrec.
  - cbn [closingLoop]. rewrite Nat.sub_0_r.
    rewrite skipn_all2; [reflexivity |].
    rewrite length_firstn. lia.
  - cbn [closingLoop map nth].
    rewrite fromEnd_nth by lia.
    rewrite areSentencesSimilar_recognizable by (apply Hrec; lia).
    rewrite IH; [| lia | intros i Hi; apply Hrec; lia].
    replace (List.length S0 - j) with (S (List.length S0 - S j)) by lia.
    rewrite (firstn_snoc S0 (List.length S0 - S j)) by lia.
    replace (S (List.length S0 - S j) - S r) with (List.length S0 - S j - r) by lia.
    rewrite skipn_app.
    replace (List.length S0 - S j - r - List.length (firstn (List.length S0 - S j) S0))
      with 0 by (rewrite length_firstn; lia).
    cbn [skipn]. rewrite <- app_assoc. reflexivity.
Qed.

Lemma parse_two_same : forall (a b : UserInput),
  content a = content b ->
  let sentences := map trim (matchSentences (content a)) in
  fold_left parseSample [a; b] ([], 0)
  = if isEmpty (content a) || (List.length sentences =? 0)
    then ([], 0)
    else ([sentences; sentences], List.length sentences / 2).
Proof.
  intros a b Hsame sentences. cbn [fold_left]. unfold parseSample at 2.
  unfold sentences. rewrite length_map.
  destruct (isEmpty (content a)) eqn:Eempty.
  { unfold parseSample. rewrite <- Hsame, Eempty. reflexivity. }
  cbn [orb].
  destruct (List.length (matchSentences (content a))) as [| n] eqn:Elen.
  { cbn [Nat.ltb Nat.leb Nat.eqb]. unfold parseSample.
    rewrite <- Hsame, Eempty, Elen. reflexivity. }
  cbn [Nat.ltb Nat.leb Nat.eqb app]. unfold parseSample.
  rewrite <- Hsame, Eempty, Elen. cbn [Nat.ltb Nat.leb app].
  f_equal. destruct (S n / 2 =? 0); [reflexivity | apply Nat.min_id].
Qed.

Lemma patternsOf_same : forall (a b : UserInput),
  content a = content b ->
  let sentences := map trim (matchSentences (content a)) in
  let maxOpeningPatternLength := List.length sentences / 2 in
  (forall s, In s (firstn maxOpeningPatternLength sentences) -> recognizable s = true) ->
  (forall s, In s (skipn (List.length sentences - maxOpeningPatternLength) sentences) ->
             recognizable s = true) ->
  patternsOf [a; b]
  = {| openingSentences := firstn maxOpeningPatternLength sentences;
       closingSentences :=
         skipn (List.length sentences - maxOpeningPatternLength) sentences |}.
Proof.
  intros a b Hsame sentences m Hopen Hclose.
  unfold patternsOf. cbn [List.length Nat.ltb Nat.leb].
  rewrite (parse_two_same a b Hsame). fold sentences.
  assert (Hm : m <= List.length sentences).
  { unfold m. apply Nat.Div0.div_le_upper_bound. lia. }
  destruct (isEmpty (content a) || (List.length sentences =? 0)) eqn:Enone.
  - cbn [List.length Nat.ltb Nat.leb].
    assert (E : sentences = []).
    { apply orb_prop in Enone. destruct Enone as [E | E].
      - unfold sentences. destruct (content a); [reflexivity | discriminate E].
      - apply Nat.eqb_eq in E. destruct sentences; [reflexivity | discriminate E]. }
    unfold m. rewrite E. reflexivity.
  - cbn [List.length Nat.ltb Nat.leb]. fold m.
    rewrite (openingLoop_same sentences m 0 []); [| lia | exact Hopen].
    rewrite (closingLoop_same sentences m 0 []).
    + rewrite Nat.sub_0_r, firstn_all, app_nil_r. reflexivity.
    + lia.
    + intros i Hi. apply Hclose.
      replace i with ((List.length sentences - m) + (i - (List.length sentences - m))) by lia.
      rewrite <- nth_skipn. apply nth_In. rewrite length_skipn. lia.
Qed.

Lemma areSentencesSimilar_twice : forall s,
  areSentencesSimilar [s; s] = recognizable s.
Proof.
  intros s. rewrite areSentencesSimilar_same.
  destruct (recognizable s) eqn:E; [| apply andb_false_r].
  rewrite (recognizable_nonempty s E). reflexivity.
Qed.

(** The opening scan over two copies of the same sentences stops at the
    first sentence that is not recognizable. *)
Lemma openingLoop_scan : forall (S0 : list string) (rounds position : nat) (found : list string),
  position + rounds <= List.length S0 ->
  openingLoop rounds position [S0; S0] found
  = found ++ takeWhile recognizable (firstn rounds (skipn position S0)).
Proof.
  intros S0 rounds. induction rounds as [| r IH]; intros position found Hlen.
  - simpl. rewrite app_nil_r. reflexivity.
  - cbn [openingLoop map nth].
    rewrite (skipn_nth S0 position) by lia.
    cbn [firstn takeWhile]. rewrite areSentencesSimilar_twice.
    destruct (recognizable (nth position S0 EmptyString)); [| rewrite app_nil_r; reflexivity].
    rewrite IH by lia. rewrite <- app_assoc. reflexivity.
Qed.

(** The closing scan, from the end. *)
Lemma closingLoop_scan : forall (S0 : list string) (rounds j : nat) (found : list string),
  j + rounds <= List.length S0 ->
  closingLoop rounds (S j) [S0; S0] found
  = takeWhileEnd recognizable
      (skipn (List.length S0 - j - rounds) (firstn (List.length S0 - j) S0)) ++ found.
Proof.
  intros S0 rounds. induction rounds as [| r IH]; intros j found Hlen.
  - cbn [closingLoop]. rewrite Nat.sub_0_r.
    rewrite skipn_all2; [reflexivity |].
    rewrite length_firstn. lia.
  - cbn [closingLoop map nth].
    rewrite fromEnd_nth by lia. rewrite areSentencesSimilar_twice.
    replace (List.length S0 - j) with (S (List.length S0 - S j)) by lia.
    rewrite (firstn_snoc S0 (List.length S0 - S j)) by lia.
    replace (S (List.length S0 - S j) - S r) with (List.length S0 - S j - r) by lia.
    rewrite skipn_app.
    replace (List.length S0 - S j - r - List.length (firstn (List.length S0 - S j) S0))
      with 0 by (rewrite length_firstn; lia).
    cbn [skipn]. unfold takeWhileEnd. rewrite rev_app_distr. cbn [rev app takeWhile].
    destruct (recognizable (nth (List.length S0 - S j) S0 EmptyString)); [| reflexivity].
    rewrite IH by lia. unfold takeWhileEnd. cbn [rev]. rewrite <- app_assoc. reflexivity.
Qed.

Lemma takeWhile_all : forall (A : Type) (p : A -> bool) (l : list A),
  (forall x, In x l -> p x = true) -> takeWhile p l = l.
Proof.
  intros A p l. induction l as [| x rest IH]; intros H; [reflexivity |].
  cbn [takeWhile]. rewrite (H x (or_introl eq_refl)). f_equal.
  apply IH. intros y Hy. apply H. right. exact Hy.
Qed.

Lemma takeWhileEnd_all : forall (A : Type) (p : A -> bool) (l : list A),
  (forall x, In x l -> p x = true) -> takeWhileEnd p l = l.
Proof.
  intros A p l H. unfold takeWhileEnd. rewrite takeWhile_all; [apply rev_involutive |].
  intros x Hx. apply H. apply in_rev. exact Hx.
Qed.

Lemma patternsOf_scan : forall (a b : UserInput),
  content a = content b ->
  let sentences := map trim (matchSentences (content a)) in
  let maxOpeningPatternLength := List.length sentences / 2 in
  patternsOf [a; b]
  = {| openingSentences :=
         takeWhile recognizable (firstn maxOpeningPatternLength sentences);
       closingSentences :=
         takeWhileEnd recognizable
           (skipn (List.length sentences - maxOpeningPatternLength) sentences) |}.
Proof.
  intros a b Hsame sentences m.
  unfold patternsOf. cbn [List.length Nat.ltb Nat.leb].
  rewrite (parse_two_same a b Hsame). fold sentences.
  assert (Hm : m <= List.length sentences).
  { unfold m. apply Nat.Div0.div_le_upper_bound. lia. }
  destruct (isEmpty (content a) || (List.length sentences =? 0)) eqn:Enone.
  - cbn [List.length Nat.ltb Nat.leb].
    assert (E : sentences = []).
    { apply orb_prop in Enone. destruct Enone as [E | E].
      - unfold sentences. destruct (content a); [reflexivity | discriminate E].
      - apply Nat.eqb_eq in E. destruct sentences; [reflexivity | discriminate E]. }
    unfold m. rewrite E. reflexivity.
  - cbn [List.length Nat.ltb Nat.leb]. fold m.
    rewrite (openingLoop_scan sentences m 0 []) by lia.
    rewrite (closingLoop_scan sentences m 0 []) by lia.
    rewrite Nat.sub_0_r, firstn_all, app_nil_r. reflexivity.
Qed.

(** C3, as the code has it.  With no sample, both sequences are empty.  With
    exactly one sample whose sentences are ["A."; "B."; "C."], the opening
    sentences are ["A."] and the closing sentences are ["C."].  With two
    samples of the same content, the opening pattern is made of the first
    [maxOpeningPatternLength] sentences, half the sentence count rounded
    down, up to the first of them that is not recognizable, and the closing
    pattern of the last [maxOpeningPatternLength] sentences, from the end
    back to the first that is not recognizable; a sentence is recognizable
    when it has a word of more than three characters other than
    [__proto__], or a phrase of the lexicon.  So when each of these
    sentences is recognizable, the first and the last
    [maxOpeningPatternLength] sentences are the two patterns. *)
Theorem extractCommonPatterns_boundary :
  (forall (teacherName : string) (w w' : World),
      DbStorage.getTeacherWritingSamples teacherName w = (Normal [], w') ->
      extractCommonPatterns teacherName w
      = (Normal {| openingSentences := []; closingSentences := [] |}, w'))
  /\ (forall (teacherName : string) (w w' : World) (sample : UserInput),
         DbStorage.getTeacherWritingSamples teacherName w = (Normal [sample], w') ->
         map trim (matchSentences (content sample)) = ["A."; "B."; "C."] ->
         extractCommonPatterns teacherName w
         = (Normal {| openingSentences := ["A."]; closingSentences := ["C."] |}, w'))
  /\ (forall (teacherName : string) (w w' : World) (a b : UserInput),
         DbStorage.getTeacherWritingSamples teacherName w = (Normal [a; b], w') ->
         content a = content b ->
         let sentences := map trim (matchSentences (content a)) in
         let maxOpeningPatternLength := List.length sentences / 2 in
         extractCommonPatterns teacherName w
         = (Normal {| openingSentences :=
                        takeWhile recognizable (firstn maxOpeningPatternLength sentences);
                      closingSentences :=
                        takeWhileEnd recognizable
                          (skipn (List.length sentences - maxOpeningPatternLength)
                                 sentences) |},
            w'))
  /\ (forall (teacherName : string) (w w' : World) (a b : UserInput),
         DbStorage.getTeacherWritingSamples teacherName w = (Normal [a; b], w') ->
         content a = content b ->
         let sentences := map trim (matchSentences (content a)) in
         let maxOpeningPatternLength := List.length sentences / 2 in
         (forall s, In s (firstn maxOpeningPatternLength sentences) ->
                    recognizable s = true) ->
         (forall s, In s (skipn (List.length sentences - maxOpeningPatternLength) sentences) ->
                    recognizable s = true) ->
         extractCommonPatterns teacherName w
         = (Normal {| openingSentences := firstn maxOpeningPatternLength sentences;
                      closingSentences :=
                        skipn (List.length sentences - maxOpeningPatternLength) sentences |},
            w')).
Proof.
  split; [| split; [| split]].
  - intros teacherName w w' Hread.
    rewrite (extractCommonPatterns_reads _ _ _ _ Hread). reflexivity.
  - intros teacherName w w' sample Hread Hsentences.
    rewrite (extractCommonPatterns_reads _ _ _ _ Hread). unfold patternsOf.
    cbn [List.length Nat.ltb Nat.leb].
    destruct (content sample) as [| c r] eqn:Econtent; [discriminate Hsentences |].
    cbn [isEmpty negb].
    destruct (matchSentences (String c r)) as [| x1 [| x2 [| x3 [| x4 rest]]]];
      try discriminate Hsentences.
    injection Hsentences as H1 H2 H3.
    cbn [hd_error rev app option_map orEmpty]. rewrite H1, H3. reflexivity.
  - intros teacherName w w' a b Hread Hsame sentences m.
    rewrite (extractCommonPatterns_reads _ _ _ _ Hread).
    rewrite (patternsOf_scan a b Hsame). reflexivity.
  - intros teacherName w w' a b Hread Hsame sentences m Hopen Hclose.
    rewrite (extractCommonPatterns_reads _ _ _ _ Hread).
    rewrite (patternsOf_same a b Hsame Hopen Hclose). reflexivity.
Qed.

Lemma extractCommonPatterns_boundary_witness :
  extractCommonPatterns "Ms Smith" (worldWithInputs [])
  = (Normal {| openingSentences := []; closingSentences := [] |}, worldWithInputs [])
  /\ extractCommonPatterns "Ms Smith" (worldWithInputs [threeSentences])
     = (Normal {| openingSentences := ["A."]; closingSentences := ["C."] |},
        worldWithInputs [threeSentences])
  /\ extractCommonPatterns "Ms Smith" (worldWithInputs [mixedA; mixedB])
     = (Normal {| openingSentences := ["I am writing to recommend Jane."];
                  closingSentences := ["Sincerely yours."] |},
        worldWithInputs [mixedA; mixedB])
  /\ extractCommonPatterns "Ms Smith" (worldWithInputs [letterA; letterB])
     = (Normal {| openingSentences :=
                    ["I am writing to recommend Jane."; "She works hard."];
                  closingSentences :=
                    ["Please feel free to contact me."; "Sincerely yours."] |},
        worldWithInputs [letterA; letterB]).
Proof.
  destruct extractCommonPatterns_boundary as [Hnone [Hone [Hscan Htwo]]].
  split; [| split; [| split]].
  - apply (Hnone "Ms Smith" (worldWithInputs [])). reflexivity.
  - apply (Hone "Ms Smith" (worldWithInputs [threeSentences])
             (worldWithInputs [threeSentences]) threeSentences);
      reflexivity.
  - apply (Hscan "Ms Smith" (worldWithInputs [mixedA; mixedB])
             (worldWithInputs [mixedA; mixedB]) mixedA mixedB);
      reflexivity.
  - apply (Htwo "Ms Smith" (worldWithInputs [letterA; letterB])
             (worldWithInputs [letterA; letterB]) letterA letterB).
    + reflexivity.
    + reflexivity.
    + intros s Hs. cbn in Hs.
      destruct Hs as [E | [E | []]]; subst s; reflexivity.
    + intros s Hs. cbn in Hs.
      destruct Hs as [E | [E | []]]; subst s; reflexivity.
Defined.

(** Two samples of the content "A. B. C.": [maxOpeningPatternLength] is 1,
    but "A." and "C." have no word of more than three characters and no
    phrase of the lexicon, so the similarity of each with itself is 0 and
    nothing is recognized. *)
Lemma identical_samples_unrecognized :
  content threeSentences = content threeSentencesAgain
  /\ map trim (matchSentences (content threeSentences)) = ["A."; "B."; "C."]
  /\ List.length (map trim (matchSentences (content threeSentences))) / 2 = 1
  /\ extractCommonPatterns "Ms Smith" (worldWithInputs [threeSentences; threeSentencesAgain])
     = (Normal {| openingSentences := []; closingSentences := [] |},
        worldWithInputs [threeSentences; threeSentencesAgain]).
Proof. repeat split. Qed.

(** ** The template *)

Lemma tagFrom_nth : forall (sentences : list string) (index len : nat)
                           (categories : list json) (i : nat) (item : TemplateItem),
  nth_error (tagFrom index len categories sentences) i = Some item ->
  position item = positionOf len (index + i)
  /\ (exists sentence, nth_error sentences i = Some sentence
                       /\ originalSentence item = trim sentence).
Proof.
  induction sentences as [| s rest IH]; intros index len categories i item H.
  - destruct i; discriminate H.
  - destruct i as [| i]; cbn [tagFrom nth_error] in H.
    + injection H as <-. cbn [position originalSentence nth_error].
      rewrite Nat.add_0_r. split; [reflexivity |]. exists s. split; reflexivity.
    + apply IH in H. rewrite Nat.add_succ_r. exact H.
Qed.

Lemma tagFrom_length : forall (sentences : list string) (index len : nat)
                              (categories : list json),
  List.length (tagFrom index len categories sentences) = List.length sentences.
Proof.
  induction sentences as [| s rest IH]; intros; [reflexivity |].
  cbn [tagFrom List.length]. rewrite IH. reflexivity.
Qed.

(** What [categorizeTemplate] returns when it returns: nothing, or one
    tagged item per sentence. *)
Lemma categorizeTemplate_returns :
  forall (J : JSON) (templateContent : string) (w w' : World) (items : list TemplateItem),
    categorizeTemplate templateContent w = (Normal items, w') ->
    exists categories,
      items = tagFrom 0 (List.length (matchSentences templateContent)) categories
                (matchSentences templateContent).
Proof.
  intros J templateContent w w' items H. unfold categorizeTemplate in H.
  destruct (isEmpty templateContent) eqn:Eempty.
  { destruct templateContent; [| discriminate Eempty].
    injection H as <- _. exists []. reflexivity. }
  destruct (List.length (matchSentences templateContent) =? 0) eqn:Elen.
  { apply Nat.eqb_eq in Elen.
    destruct (matchSentences templateContent); [| discriminate Elen].
    injection H as <- _. exists []. reflexivity. }
  unfold bind in H.
  destruct (QueryService.generateText _ w) as [[response | e] w1]; [| discriminate H].
  unfold lift in H.
  destruct (extractCategories (text response) (matchSentences templateContent))
    as [categories | e]; [| discriminate H].
  injection H as <- _. eexists. reflexivity.
Qed.

(** C5.  In the sequence that [categorizeTemplate] returns, item 0 is tagged
    opening; in a sequence of three items or more the last two are tagged
    closing; in a shorter one only the final item, when it is not item 0, is
    tagged closing; every other item is tagged middle. *)
Theorem template_position_tagging :
  forall (J : JSON) (templateContent : string) (w w' : World)
         (items : list TemplateItem) (i : nat) (item : TemplateItem),
    categorizeTemplate templateContent w = (Normal items, w') ->
    nth_error items i = Some item ->
    let n := List.length items in
    (i = 0 -> position item = Opening)
    /\ (3 <= n -> 0 < i -> n - 2 <= i -> position item = Closing)
    /\ (n < 3 -> 0 < i -> i = n - 1 -> position item = Closing)
    /\ (0 < i -> ~ (3 <= n /\ n - 2 <= i) -> ~ (n < 3 /\ i = n - 1) ->
        position item = Middle).
Proof.
  intros J templateContent w w' items i item Hrun Hnth n.
  destruct (categorizeTemplate_returns J _ _ _ _ Hrun) as [categories Hitems].
  assert (Hn : n = List.length (matchSentences templateContent)).
  { unfold n. rewrite Hitems. apply tagFrom_length. }
  rewrite Hitems in Hnth. apply tagFrom_nth in Hnth. destruct Hnth as [Hpos _].
  rewrite <- Hn in Hpos. cbn [Nat.add] in Hpos. rewrite Hpos. unfold positionOf.
  repeat split.
  - intros ->. reflexivity.
  - intros H3 Hi Hlast.
    destruct (Nat.eqb_spec i 0); [lia |].
    destruct (Nat.leb_spec 3 n); [| lia].
    destruct (Nat.leb_spec (n - 2) i); [reflexivity | lia].
  - intros H3 Hi Hlast.
    destruct (Nat.eqb_spec i 0); [lia |].
    destruct (Nat.leb_spec 3 n); [lia |]. cbn [andb].
    destruct (Nat.ltb_spec n 3); [| lia].
    destruct (Nat.eqb_spec i (n - 1)); [reflexivity | lia].
  - intros Hi Hnot3 Hnot2.
    destruct (Nat.eqb_spec i 0); [lia |].
    destruct (Nat.leb_spec 3 n), (Nat.leb_spec (n - 2) i), (Nat.ltb_spec n 3),
      (Nat.eqb_spec i (n - 1)); cbn [andb]; try reflexivity; lia.
Qed.

Lemma template_position_tagging_witness :
  @categorizeTemplate MiniJson.codec fiveSentences (worldAnswering [fiveLabels])
  = (Normal fiveItems,
     snd (@categorizeTemplate MiniJson.codec fiveSentences (worldAnswering [fiveLabels])))
  /\ nth_error fiveItems 0 = Some knownItem /\ position knownItem = Opening
  /\ nth_error fiveItems 3 = Some recommendItem /\ position recommendItem = Closing
  /\ nth_error fiveItems 2 = Some leadsItem /\ position leadsItem = Middle.
Proof.
  assert (Hrun : @categorizeTemplate MiniJson.codec fiveSentences (worldAnswering [fiveLabels])
                 = (Normal fiveItems,
                    snd (@categorizeTemplate MiniJson.codec fiveSentences
                           (worldAnswering [fiveLabels])))) by (vm_compute; reflexivity).
  split; [exact Hrun |].
  split; [reflexivity | split].
  { apply (proj1 (template_position_tagging MiniJson.codec _ _ _ _ 0 knownItem
                    Hrun eq_refl)).
    reflexivity. }
  split; [reflexivity | split].
  { apply (proj1 (proj2 (template_position_tagging MiniJson.codec _ _ _ _ 3 recommendItem
                           Hrun eq_refl)));
      cbn; lia. }
  split; [reflexivity |].
  apply (proj2 (proj2 (proj2
           (template_position_tagging MiniJson.codec _ _ _ _ 2 leadsItem Hrun eq_refl))));
    cbn; lia.
Defined.

(** The two templates of the specification: five sentences, and two. *)
Example five_sentence_template :
  fst (@categorizeTemplate MiniJson.codec fiveSentences (worldAnswering [fiveLabels]))
  = Normal fiveItems
  /\ map position fiveItems = [Opening; Middle; Middle; Closing; Closing].
Proof. split; vm_compute; reflexivity. Qed.

Example two_sentence_template :
  fst (@categorizeTemplate MiniJson.codec "Jane is kind. Write to me."
         (worldAnswering ["no labels"]))
  = Normal twoItems
  /\ map position twoItems = [Opening; Closing].
Proof. split; vm_compute; reflexivity. Qed.

(** A template of one sentence: its only item is item 0, tagged opening. *)
Example one_sentence_template :
  fst (@categorizeTemplate MiniJson.codec "Jane is kind." (worldAnswering ["commentary"]))
  = Normal [ {| category := JStr "commentary"; originalSentence := "Jane is kind.";
                position := Opening |} ].
Proof. vm_compute. reflexivity. Qed.

(** ** Calls to the model *)

(** Whatever it answers, [generateText] posts exactly one body. *)
Lemma generateText_posts :
  forall (J : JSON) (request : GenerationRequest) (w : World),
    posted (snd (QueryService.generateText request w))
    = posted w ++ [ {| body_model := model request;
                       body_prompt := prompt request;
                       body_temperature := QueryService.temperatureOf request;
                       body_max_tokens := QueryService.maxTokensOf request |} ].
Proof.
  intros J request w. unfold QueryService.generateText. run.
  destruct (backend w) as [| [| r] rest]; try reflexivity.
  destruct (ok r); [| reflexivity]. cbn [negb].
  destruct (JSON_parse (body r)) as [data |]; [| reflexivity].
  destruct (property data "response"); reflexivity.
Qed.

Lemma storeAndAppendCategories_posted :
  forall (J : JSON) (newCategories : AnalysisCategories) (teacherName sampleContent : string)
         (w : World),
    posted (snd (storeAndAppendCategories newCategories teacherName sampleContent w))
    = posted w.
Proof.
  intros J newCategories teacherName sampleContent w.
  unfold storeAndAppendCategories. run.
  destruct (objectValues _) as [values | e]; [| reflexivity].
  destruct (collectSentences values) as [seen | e]; [| reflexivity].
  destruct (copyCategories _) as [copied | e]; reflexivity.
Qed.

Lemma saveAnalysisToDatabase_posted :
  forall (J : JSON) (analysis : Categories json) (originalSample teacher : string)
         (w : World),
    posted (snd (saveAnalysisToDatabase analysis originalSample teacher w)) = posted w.
Proof.
  intros. unfold saveAnalysisToDatabase. run.
  destruct (database w) as [| [| e] rest]; reflexivity.
Qed.

(** [analyzeSample] has no test on its input: it posts its prompt to the
    backend for every sample. *)
Lemma analyzeSample_posts :
  forall (J : JSON) (sample teacherName : string) (w : World),
    posted (snd (analyzeSample sample teacherName w))
    = posted w ++ [ {| body_model := "gemma3";
                       body_prompt := analysisPrompt sample;
                       body_temperature := (3 # 10)%Q;
                       body_max_tokens := 2000%N |} ].
Proof.
  intros J sample teacherName w. unfold analyzeSample.
  unfold bind at 1.
  match goal with
  | |- context [QueryService.generateText ?r w] =>
      pose proof (generateText_posts J r w) as Hposted;
      destruct (QueryService.generateText r w) as [[response | e] w1]
  end; cbn [snd] in Hposted; [| cbn [snd]; exact Hposted].
  change (posted w ++ _) with (posted w ++ [ {| body_model := "gemma3";
                       body_prompt := analysisPrompt sample;
                       body_temperature := (3 # 10)%Q;
                       body_max_tokens := 2000%N |} ]) in Hposted.
  rewrite <- Hposted. unfold tryCatch, bind at 1, lift.
  destruct (parseAnalysisResponse (text response)) as [analysisResult | e];
    [| reflexivity].
  unfold bind at 1.
  destruct (asSentences analysisResult) as [sentences |].
  - pose proof (storeAndAppendCategories_posted J sentences teacherName sample w1) as Hs.
    destruct (storeAndAppendCategories sentences teacherName sample w1) as [[[] | e] w2];
      cbn [snd] in Hs.
    + unfold bind, ret. cbn.
      pose proof (saveAnalysisToDatabase_posted J analysisResult sample teacherName w2) as Hd.
      destruct (saveAnalysisToDatabase analysisResult sample teacherName w2)
        as [[[] | e] w3]; cbn in *; congruence.
    + cbn. exact Hs.
  - unfold bind, ret. cbn.
    pose proof (saveAnalysisToDatabase_posted J analysisResult sample teacherName w1) as Hd.
    destruct (saveAnalysisToDatabase analysisResult sample teacherName w1)
      as [[[] | e] w3]; cbn in *; congruence.
Qed.

(** C6, as the code has it.  For a template text in which the sentence
    heuristic finds no sentence, the empty text in particular,
    [categorizeTemplate] returns the empty sequence and makes no call to the
    model: the world, with the list of posted bodies, is as before. *)
Theorem empty_template_no_model_call :
  forall (J : JSON) (templateContent : string) (w : World),
    matchSentences templateContent = [] ->
    categorizeTemplate templateContent w = (Normal [], w).
Proof.
  intros J templateContent w Hnone. unfold categorizeTemplate.
  destruct (isEmpty templateContent); [reflexivity |].
  rewrite Hnone. reflexivity.
Qed.

Lemma empty_template_no_model_call_witness :
  @categorizeTemplate MiniJson.codec EmptyString (worldAnswering ["anything"])
  = (Normal [], worldAnswering ["anything"]).
Proof.
  apply (empty_template_no_model_call MiniJson.codec EmptyString
           (worldAnswering ["anything"])).
  reflexivity.
Defined.

(** [analyzeSample] on the empty text: the model is called, and what it
    answers is categorized and returned. *)
Lemma analyzeSample_empty_calls_model :
  fst (@analyzeSample MiniJson.codec EmptyString "Ms Smith"
         (worldAnswering [endorsementAnswer]))
  = Normal {| introduction_context := []; endorsement := [JStr "She is great."];
              commentary := []; qualities := []; further_discussion := [] |}
  /\ List.length (posted (snd (@analyzeSample MiniJson.codec EmptyString "Ms Smith"
                                 (worldAnswering [endorsementAnswer])))) = 1
  /\ posted (worldAnswering [endorsementAnswer]) = [].
Proof. repeat split; vm_compute; reflexivity. Qed.

(** ** Personalization *)

(** C8, as the code has it.  [personalizeLetter] returns the text of the
    model's response, or the fixed fallback when that text is empty or
    missing, whenever the call to the model succeeds.  When the call fails,
    because the backend cannot be reached, answers with a status outside
    200..299, or sends a body that is no JSON, the exception leaves
    [personalizeLetter] as it left [generateText]. *)
Theorem personalizeLetter_outcome :
  forall (J : JSON) (draftLetter : string) (studentInfo : StudentInfo)
         (teacherName : string) (w : World),
    fst (personalizeLetter draftLetter studentInfo teacherName w)
    = match backend w with
      | Responds r :: _ =>
          if ok r then
            match JSON_parse (body r) with
            | Some data =>
                match property data "response" with
                | Normal (Some v) =>
                    Normal (if truthy v then v else JStr personalizeFallback)
                | Normal None => Normal (JStr personalizeFallback)
                | Throw e => Throw e
                end
            | None => Throw SyntaxError
            end
          else Throw (Error ("HTTP error: " ++ ofN (status r)))
      | _ => Throw TypeError
      end.
Proof.
  intros J draftLetter studentInfo teacherName w.
  unfold personalizeLetter, QueryService.generateText. run.
  destruct (backend w) as [| [| r] rest]; try reflexivity.
  destruct (ok r); [| reflexivity]. cbn [negb].
  destruct (JSON_parse (body r)) as [data |]; [| reflexivity].
  destruct (property data "response") as [[v |] | e]; reflexivity.
Qed.

(** The two ways in which the call to the model fails at the transport. *)
Lemma personalizeLetter_throws :
  fst (@personalizeLetter MiniJson.codec "Jane is kind." jane "Ms Smith"
         (worldFailing NetworkFailure))
  = Throw TypeError
  /\ fst (@personalizeLetter MiniJson.codec "Jane is kind." jane "Ms Smith"
            (worldFailing (Responds {| status := 500%N; body := "Internal Server Error" |})))
     = Throw (Error "HTTP error: 500").
Proof. split; vm_compute; reflexivity. Qed.

Example personalizeLetter_text :
  fst (@personalizeLetter MiniJson.codec "Jane is kind." jane "Ms Smith"
         (worldAnswering ["Jane Doe is kind."]))
  = Normal (JStr "Jane Doe is kind.")
  /\ fst (@personalizeLetter MiniJson.codec "Jane is kind." jane "Ms Smith"
            (worldAnswering [EmptyString]))
     = Normal (JStr "Unable to generate personalized content. Please try again.").
Proof. split; vm_compute; reflexivity. Qed.

(** ** Clearing the store *)

Lemma lookup_remove_same : forall (key : string) (ls : Storage),
  LocalStorage.lookup key (LocalStorage.remove key ls) = None.
Proof.
  intros key ls. induction ls as [| [k v] rest IH]; [reflexivity |].
  unfold LocalStorage.remove in *. cbn [filter fst].
  destruct (String.eqb k key) eqn:E; cbn [negb]; [exact IH |].
  cbn [LocalStorage.lookup]. rewrite E. exact IH.
Qed.

Lemma lookup_remove_none : forall (key other : string) (ls : Storage),
  LocalStorage.lookup key ls = None ->
  LocalStorage.lookup key (LocalStorage.remove other ls) = None.
Proof.
  intros key other ls. induction ls as [| [k v] rest IH]; intros H; [reflexivity |].
  cbn [LocalStorage.lookup] in H. unfold LocalStorage.remove in *. cbn [filter fst].
  destruct (String.eqb k key) eqn:E; [discriminate H |].
  destruct (String.eqb k other); cbn [negb]; [exact (IH H) |].
  cbn [LocalStorage.lookup]. rewrite E. exact (IH H).
Qed.

Lemma removeSampleKeys_keeps_absent :
  forall (rounds : nat) (sampleKeyPrefix key : string) (i : nat) (w : World),
    LocalStorage.lookup key (localStorage w) = None ->
    LocalStorage.lookup key
      (localStorage (snd (removeSampleKeys rounds sampleKeyPrefix i w))) = None.
Proof.
  induction rounds as [| rounds IH]; intros sampleKeyPrefix key i w H; [exact H |].
  cbn [removeSampleKeys]. run.
  destruct (i <? List.length (localStorage w)); [| exact H].
  destruct (option_map fst (nth_error (localStorage w) i)) as [k |].
  - destruct (negb (isEmpty k) && startsWith k sampleKeyPrefix).
    + apply IH. cbn. apply lookup_remove_none. exact H.
    + apply IH. exact H.
  - apply IH. exact H.
Qed.

(** The part of [clearCategories] that holds for every storage: the entry of
    the teacher's categories is gone. *)
Lemma clearCategories_removes_categories :
  forall (teacherName : string) (w : World),
    LocalStorage.lookup (getCategoryStorageKey teacherName)
      (localStorage (snd (clearCategories teacherName w))) = None.
Proof.
  intros teacherName w. unfold clearCategories. run.
  apply removeSampleKeys_keeps_absent. cbn. apply lookup_remove_same.
Qed.

(** C7.  After two samples of a teacher have been stored, [clearCategories]
    removes the categories and the first snapshot, and leaves the second
    snapshot in the storage: removing the key at index [i] moves the next
    key to index [i], and the loop goes on at [i + 1]. *)
Theorem clearCategories_leaves_snapshot :
  map fst (localStorage twoSnapshots)
  = [ "categorized_sentences_Ms_Smith";
      "sample_Ms_Smith_1700000000001";
      "sample_Ms_Smith_1700000000002" ]
  /\ localStorage (snd (clearCategories "Ms Smith" twoSnapshots))
     = [ ("sample_Ms_Smith_1700000000002", "Second sample.") ].
Proof. split; vm_compute; reflexivity. Qed.

(** ** The assembler *)

Lemma append_assoc : forall s t u : string, ((s ++ t) ++ u = s ++ (t ++ u))%string.
Proof.
  induction s as [| c s IH]; intros t u; [reflexivity |].
  cbn [append]. rewrite IH. reflexivity.
Qed.

Lemma append_nil_r : forall s : string, (s ++ EmptyString = s)%string.
Proof.
  induction s as [| c s IH]; [reflexivity |]. cbn [append]. rewrite IH. reflexivity.
Qed.

(** A part of a joined text is in it, between what comes before and what
    comes after. *)
Lemma join_holds : forall (sep : string) (before : list string) (x : string)
                          (after : list string),
  exists pre post : string, join sep (before ++ x :: after) = (pre ++ x ++ post)%string.
Proof.
  intros sep before x after. unfold join.
  induction before as [| y before IH].
  - exists EmptyString. destruct after as [| z after].
    + exists EmptyString. cbn [app String.concat append].
      rewrite append_nil_r. reflexivity.
    + exists (sep ++ String.concat sep (z :: after))%string. reflexivity.
  - destruct IH as [pre [post IH]].
    exists (y ++ sep ++ pre)%string, post.
    cbn [app String.concat].
    destruct (before ++ x :: after) as [| z rest] eqn:E.
    { destruct before; discriminate E. }
    rewrite IH, !append_assoc. reflexivity.
Qed.

Lemma replaceItem_returns :
  forall (store : AnalysisCategories) (openingSentences closingSentences : list string)
         (item : TemplateItem) (w : World),
    exists r w', replaceItem store openingSentences closingSentences item w = (Normal r, w')
                 /\ replaced r = item.
Proof.
  intros store openingSentences closingSentences item w. unfold replaceItem.
  destruct (isOpening (position item) && (0 <? List.length openingSentences));
    [run; eauto |].
  destruct (isClosing (position item) && (0 <? List.length closingSentences));
    [run; eauto |].
  destruct (memberFor store (category item)) as [sentences | [parameters |] |].
  - destruct (List.length sentences =? 0); run; eauto.
  - destruct (parameters =? 0); run; eauto.
  - run; eauto.
  - run; eauto.
Qed.

Lemma finalSentence_kept : forall item : TemplateItem,
  finalSentence {| replaced := item; replacementSentence := Some (originalSentence item) |}
  = originalSentence item.
Proof.
  intros item. unfold finalSentence. cbn [replacementSentence replaced].
  destruct (originalSentence item); reflexivity.
Qed.

(** An item that gets no pattern and under whose label the store holds no
    sentence ends as its original sentence: the code keeps it at once, or
    it reads an index of an inherited member, which is [undefined], and
    falls back to the original when it joins the draft. *)
Lemma replaceItem_keeps :
  forall (store : AnalysisCategories) (openingSentences closingSentences : list string)
         (item : TemplateItem) (w : World),
    keepsCategory openingSentences closingSentences item ->
    storedFor store (category item) = [] ->
    exists (r : ReplacedItem) (w' : World),
      replaceItem store openingSentences closingSentences item w = (Normal r, w')
      /\ finalSentence r = originalSentence item.
Proof.
  intros store openingSentences closingSentences item w [Hopen Hclose] Hnone.
  assert (Hpatterns :
            isOpening (position item) && (0 <? List.length openingSentences) = false
            /\ isClosing (position item) && (0 <? List.length closingSentences) = false).
  { destruct (position item); cbn [isOpening isClosing andb].
    - rewrite (Hopen eq_refl). split; reflexivity.
    - split; reflexivity.
    - rewrite (Hclose eq_refl). split; reflexivity. }
  destruct Hpatterns as [Ho Hc]. unfold replaceItem. rewrite Ho, Hc.
  unfold storedFor in Hnone.
  destruct (memberFor store (category item)) as [sentences | [parameters |] |].
  - subst sentences. cbn [List.length Nat.eqb].
    eexists _, w. split; [reflexivity | apply finalSentence_kept].
  - destruct (parameters =? 0).
    + eexists _, w. split; [reflexivity | apply finalSentence_kept].
    + run. eexists _, _. split; reflexivity.
  - run. eexists _, _. split; reflexivity.
  - eexists _, w. split; [reflexivity | apply finalSentence_kept].
Qed.

Lemma replaceAll_keeps :
  forall (store : AnalysisCategories) (openingSentences closingSentences : list string)
         (templateStructure : list TemplateItem) (w : World) (i : nat) (item : TemplateItem),
    nth_error templateStructure i = Some item ->
    keepsCategory openingSentences closingSentences item ->
    storedFor store (category item) = [] ->
    exists (replacedStructure : list ReplacedItem) (w' : World),
      replaceAll store openingSentences closingSentences templateStructure w
      = (Normal replacedStructure, w')
      /\ List.length replacedStructure = List.length templateStructure
      /\ nth_error (map finalSentence replacedStructure) i = Some (originalSentence item).
Proof.
  intros store openingSentences closingSentences templateStructure.
  induction templateStructure as [| first rest IH]; intros w i item Hnth Hkeep Hnone.
  - destruct i; discriminate Hnth.
  - cbn [replaceAll]. unfold bind at 1.
    destruct i as [| i]; cbn [nth_error] in Hnth.
    + injection Hnth as ->.
      destruct (replaceItem_keeps store openingSentences closingSentences item w Hkeep Hnone)
        as [kept [w0 [Hkept Hfinal]]].
      rewrite Hkept.
      assert (Hrest : exists rs w', replaceAll store openingSentences closingSentences rest w0
                                    = (Normal rs, w')
                                    /\ List.length rs = List.length rest).
      { clear. revert w0. induction rest as [| x rest IHr]; intros w.
        - exists [], w. split; reflexivity.
        - cbn [replaceAll]. unfold bind at 1.
          destruct (replaceItem_returns store openingSentences closingSentences x w)
            as [r [w1 [Hr _]]].
          rewrite Hr. destruct (IHr w1) as [rs [w2 [Hrs Hlen]]].
          unfold bind, ret. rewrite Hrs. exists (r :: rs), w2.
          split; [reflexivity |]. cbn [List.length]. rewrite Hlen. reflexivity. }
      destruct Hrest as [rs [w' [Hrs Hlen]]].
      unfold bind, ret. rewrite Hrs. eexists _, w'.
      split; [reflexivity |]. split.
      * cbn [List.length]. rewrite Hlen. reflexivity.
      * cbn [map nth_error]. rewrite Hfinal. reflexivity.
    + destruct (replaceItem_returns store openingSentences closingSentences first w)
        as [r [w1 [Hr _]]].
      rewrite Hr.
      destruct (IH w1 i item Hnth Hkeep Hnone) as [rs [w' [Hrs [Hlen Hi]]]].
      unfold bind, ret. rewrite Hrs. exists (r :: rs), w'.
      split; [reflexivity |]. split.
      * cbn [List.length]. rewrite Hlen. reflexivity.
      * cbn [map nth_error]. exact Hi.
Qed.

Lemma nth_error_split_at : forall (l : list string) (i : nat) (x : string),
  nth_error l i = Some x -> l = firstn i l ++ x :: skipn (S i) l.
Proof.
  induction l as [| y l IH]; intros i x H.
  - destruct i; discriminate H.
  - destruct i as [| i]; cbn [nth_error] in H.
    + injection H as ->. reflexivity.
    + cbn [firstn skipn app]. f_equal. apply IH. exact H.
Qed.

(** C2.  The assembler never drops content.  For a template item that
    receives no pattern sentence (it is a middle item, or the pattern set
    of its position is empty) and under whose label the store holds no
    sentence (the category of the label is empty, or the label names no
    category, be it the name of a member that the store inherits from
    [Object.prototype]), the sentence at the item's position in the
    assembled sequence is the item's original sentence, so the draft, the
    sentences joined by spaces, holds it verbatim there; this draft is what
    [generateLetter] hands to [personalizeLetter]. *)
Theorem assembler_keeps_original :
  forall (J : JSON) (templateStructure : list TemplateItem)
         (categorizedSentences : AnalysisCategories) (studentInfo : StudentInfo)
         (teacherName : string) (openingSentences closingSentences : list string)
         (w : World) (i : nat) (item : TemplateItem),
    nth_error templateStructure i = Some item ->
    keepsCategory openingSentences closingSentences item ->
    storedFor categorizedSentences (category item) = [] ->
    exists (replacedStructure : list ReplacedItem) (w' : World),
      replaceAll categorizedSentences openingSentences closingSentences templateStructure w
      = (Normal replacedStructure, w')
      /\ List.length replacedStructure = List.length templateStructure
      /\ nth_error (map finalSentence replacedStructure) i = Some (originalSentence item)
      /\ draftOf replacedStructure
         = join " " (firstn i (map finalSentence replacedStructure)
                     ++ originalSentence item
                        :: skipn (S i) (map finalSentence replacedStructure))
      /\ (exists before after : string,
             draftOf replacedStructure = (before ++ originalSentence item ++ after)%string)
      /\ generateLetter templateStructure categorizedSentences studentInfo teacherName
           openingSentences closingSentences w
         = personalizeLetter (draftOf replacedStructure) studentInfo teacherName w'.
Proof.
  intros J templateStructure categorizedSentences studentInfo teacherName
         openingSentences closingSentences w i item Hnth Hkeep Hnone.
  destruct (replaceAll_keeps categorizedSentences openingSentences closingSentences
              templateStructure w i item Hnth Hkeep Hnone)
    as [rs [w' [Hrun [Hlen Hi]]]].
  exists rs, w'. split; [exact Hrun |]. split; [exact Hlen |]. split; [exact Hi |].
  pose proof (nth_error_split_at _ _ _ Hi) as Hsplit.
  split; [| split].
  - unfold draftOf. rewrite <- Hsplit. reflexivity.
  - unfold draftOf. rewrite Hsplit. apply join_holds.
  - unfold generateLetter.
    destruct templateStructure as [| first rest]; [destruct i; discriminate Hnth |].
    cbn [List.length Nat.eqb]. unfold bind. rewrite Hrun. reflexivity.
Qed.

Lemma assembler_keeps_original_witness :
  exists (replacedStructure : list ReplacedItem) (w' : World),
    replaceAll sparseStore ["I am writing to recommend Tom."] ["Sincerely yours."]
      fiveItems drawingWorld
    = (Normal replacedStructure, w')
    /\ nth_error (map finalSentence replacedStructure) 1 = Some "She is diligent."
    /\ (exists before after : string,
           draftOf replacedStructure = (before ++ "She is diligent." ++ after)%string).
Proof.
  destruct (assembler_keeps_original MiniJson.codec fiveItems sparseStore jane "Ms Smith"
              ["I am writing to recommend Tom."] ["Sincerely yours."] drawingWorld
              1 diligentItem)
    as [rs [w' [Hrun [_ [Hnth [_ [Hin _]]]]]]].
  - reflexivity.
  - split; discriminate.
  - reflexivity.
  - exists rs, w'. split; [exact Hrun |]. split; [exact Hnth | exact Hin].
Defined.

Example assembled_draft :
  option_map draftOf
    (match fst (replaceAll sparseStore ["I am writing to recommend Tom."] ["Sincerely yours."]
                  fiveItems drawingWorld) with
     | Normal replacedStructure => Some replacedStructure
     | Throw _ => None
     end)
  = Some "I am writing to recommend Tom. She is diligent. She leads her team well. Sincerely yours. Sincerely yours.".
Proof. vm_compute. reflexivity. Qed.

(** ** The codec reads back what it prints *)

Module MiniJsonFacts.
Import MiniJson.

Lemma append_length : forall s t : string,
  String.length (s ++ t) = String.length s + String.length t.
Proof.
  induction s as [| c s IH]; intros t; [reflexivity |].
  cbn [append String.length]. rewrite IH. reflexivity.
Qed.

Lemma parse_escaped_char : forall (c : ascii) (rest : string),
  parseStringBody (escapeChar c ++ rest)
  = match parseStringBody rest with
    | Some (t, after) => Some (String c t, after)
    | None => None
    end.
Proof.
  intros c rest.
  destruct c as [[] [] [] [] [] [] [] []]; reflexivity.
Qed.

Lemma parse_escaped : forall (s rest : string),
  parseStringBody (escape s ++ String dquote rest) = Some (s, rest).
Proof.
  induction s as [| c s IH]; intros rest; [reflexivity |].
  cbn [escape]. rewrite append_assoc, parse_escaped_char, IH. reflexivity.
Qed.

Lemma printString_append : forall (s rest : string),
  (printString s ++ rest)%string = String dquote (escape s ++ String dquote rest).
Proof.
  intros s rest. unfold printString. cbn [append]. rewrite append_assoc. reflexivity.
Qed.

Lemma parse_string_value : forall (fuel : nat) (s rest : string),
  0 < fuel ->
  parseValue fuel (printString s ++ rest) = Some (JStr s, rest).
Proof.
  intros fuel s rest Hfuel. destruct fuel as [| fuel]; [lia |].
  rewrite printString_append.
  cbn [parseValue skipSpace]. change (isJsonSpace dquote) with false. cbv iota.
  change (Ascii.eqb dquote dquote) with true. cbv iota.
  rewrite parse_escaped. reflexivity.
Qed.

Lemma join_cons2 : forall (sep x y : string) (l : list string),
  join sep (x :: y :: l) = (x ++ sep ++ join sep (y :: l))%string.
Proof. reflexivity. Qed.

Lemma parse_string_elements : forall (l : list string) (x : string) (fuel : nat) (rest : string),
  List.length l + 2 <= fuel ->
  parseElements fuel (join "," (map printString (x :: l)) ++ String "]" rest)
  = Some (map JStr (x :: l), rest).
Proof.
  induction l as [| y l IH]; intros x fuel rest Hfuel;
    destruct fuel as [| fuel]; cbn [List.length] in Hfuel; try lia.
  - cbn [map join String.concat parseElements].
    rewrite parse_string_value by lia. reflexivity.
  - cbn [map]. rewrite join_cons2, !append_assoc.
    cbn [parseElements]. rewrite parse_string_value by lia.
    cbn [append skipSpace]. change (isJsonSpace ",") with false. cbv iota.
    change (join "," (printString y :: map printString l))
      with (join "," (map printString (y :: l))).
    rewrite IH by lia. reflexivity.
Qed.

Lemma print_strings : forall l : list string,
  print (JArr (map JStr l)) = String "[" (join "," (map printString l) ++ "]").
Proof.
  intros l. cbn [print]. rewrite map_map. reflexivity.
Qed.

Lemma starts_with_quote : forall (x : string) (l : list string) (rest : string),
  exists tail,
    (join "," (map printString (x :: l)) ++ rest)%string = String dquote tail.
Proof.
  intros x l rest. destruct l; cbn [map join String.concat]; unfold printString;
    cbn [append]; eauto.
Qed.

Lemma parse_string_array : forall (l : list string) (fuel : nat) (rest : string),
  List.length l + 3 <= fuel ->
  parseValue fuel (print (JArr (map JStr l)) ++ rest) = Some (JArr (map JStr l), rest).
Proof.
  intros l fuel rest Hfuel. rewrite print_strings.
  destruct fuel as [| fuel]; [lia |].
  destruct l as [| x l].
  - reflexivity.
  - cbn [append]. rewrite append_assoc.
    cbn [parseValue skipSpace]. change (isJsonSpace "[") with false. cbv iota.
    change (Ascii.eqb "[" dquote) with false. change (Ascii.eqb "[" "[") with true.
    cbv iota.
    destruct (starts_with_quote x l ("]" ++ rest)) as [tail Hhead].
    rewrite Hhead at 1. cbn [skipSpace]. change (isJsonSpace dquote) with false.
    cbv iota.
    change ("]" ++ rest)%string with (String "]" rest).
    rewrite parse_string_elements by (cbn [List.length] in Hfuel; lia).
    reflexivity.
Qed.

Lemma parse_members : forall (ms : list (string * list string)) (m : string * list string)
                             (fuel : nat) (rest : string),
  weight (m :: ms) <= fuel ->
  parseMembers fuel (join "," (map memberText (m :: ms)) ++ String "}" rest)
  = Some (map memberValue (m :: ms), rest).
Proof.
  induction ms as [| m' ms IH]; intros [k l] fuel rest Hfuel;
    destruct fuel as [| fuel]; cbn [weight fst snd] in Hfuel; try lia.
  - cbn [map join String.concat]. unfold memberText at 1. cbn [fst snd].
    rewrite !append_assoc, printString_append.
    cbn [parseMembers skipSpace]. change (isJsonSpace dquote) with false. cbv iota.
    change (Ascii.eqb dquote dquote) with true. cbv iota.
    rewrite parse_escaped. cbn [append skipSpace].
    change (isJsonSpace ":") with false. cbv iota.
    rewrite parse_string_array by lia. reflexivity.
  - cbn [map]. rewrite join_cons2. unfold memberText at 1. cbn [fst snd].
    rewrite !append_assoc, printString_append.
    cbn [parseMembers skipSpace]. change (isJsonSpace dquote) with false. cbv iota.
    change (Ascii.eqb dquote dquote) with true. cbv iota.
    rewrite parse_escaped. cbn [append skipSpace].
    change (isJsonSpace ":") with false. cbv iota.
    rewrite parse_string_array by lia.
    cbn [skipSpace]. change (isJsonSpace ",") with false. cbv iota.
    change (join "," (memberText m' :: map memberText ms))
      with (join "," (map memberText (m' :: ms))).
    rewrite IH by (cbn [weight]; lia). reflexivity.
Qed.

Lemma join_length : forall (sep : string) (l : list string),
  list_sum (map String.length l) <= String.length (join sep l).
Proof.
  intros sep l. induction l as [| x l IH]; [apply Nat.le_refl |].
  destruct l as [| y l].
  - cbn. lia.
  - rewrite join_cons2, !append_length.
    unfold list_sum in *. cbn [map fold_right] in *. lia.
Qed.

Lemma printString_length : forall s : string, 2 <= String.length (printString s).
Proof.
  intros s. unfold printString. cbn [String.length]. rewrite append_length. cbn. lia.
Qed.

Lemma strings_length : forall l : list string,
  2 * List.length l <= list_sum (map String.length (map printString l)).
Proof.
  induction l as [| x l IH]; [apply Nat.le_refl |].
  unfold list_sum in *. cbn [map fold_right List.length].
  pose proof (printString_length x). lia.
Qed.

Lemma memberText_length : forall m : string * list string,
  List.length (snd m) + 4 <= String.length (memberText m).
Proof.
  intros [k l]. unfold memberText. cbn [fst snd].
  rewrite print_strings.
  repeat first [rewrite append_length | progress cbn [String.length append]].
  pose proof (printString_length k).
  pose proof (join_length "," (map printString l)).
  pose proof (strings_length l). lia.
Qed.

Lemma members_length : forall ms : list (string * list string),
  weight ms <= list_sum (map String.length (map memberText ms)).
Proof.
  induction ms as [| m ms IH]; [apply Nat.le_refl |].
  unfold list_sum in *. cbn [weight map fold_right].
  pose proof (memberText_length m). lia.
Qed.

Lemma print_categories : forall c : AnalysisCategories,
  print (categoriesToJson c) = String "{" (join "," (map memberText (fields c)) ++ "}").
Proof. intros c. reflexivity. Qed.

Lemma members_start_with_quote : forall (m : string * list string)
    (ms : list (string * list string)) (rest : string),
  exists tail,
    (join "," (map memberText (m :: ms)) ++ rest)%string = String dquote tail.
Proof.
  intros [k l] ms rest. destruct ms; cbn [map join String.concat]; unfold memberText;
    unfold printString; cbn [fst append]; eauto.
Qed.

Lemma parse_object : forall (ms : list (string * list string)) (m : string * list string)
                            (fuel : nat) (rest : string),
  weight (m :: ms) <= fuel ->
  parseValue (S fuel) (String "{" (join "," (map memberText (m :: ms)) ++ String "}" rest))
  = Some (JObj (map memberValue (m :: ms)), rest).
Proof.
  intros ms m fuel rest Hfuel.
  cbn [parseValue skipSpace]. change (isJsonSpace "{") with false. cbv iota.
  change (Ascii.eqb "{" dquote) with false. change (Ascii.eqb "{" "[") with false.
  change (Ascii.eqb "{" "{") with true. cbv iota.
  destruct (members_start_with_quote m ms (String "}" rest)) as [tail Hhead].
  rewrite Hhead at 1. cbn [skipSpace]. change (isJsonSpace dquote) with false.
  cbv iota.
  rewrite parse_members by exact Hfuel.
  reflexivity.
Qed.

Lemma categories_text_length : forall c : AnalysisCategories,
  weight (fields c)
  <= String.length (String "{" (join "," (map memberText (fields c)) ++ String "}" EmptyString)).
Proof.
  intros c. cbn [String.length]. rewrite append_length.
  pose proof (members_length (fields c)).
  pose proof (join_length "," (map memberText (fields c))). lia.
Qed.

(** [JSON.parse(JSON.stringify(categories))] gives the categories back. *)
Lemma roundtrip : forall c : AnalysisCategories,
  parse (print (categoriesToJson c)) = Some (categoriesToJson c).
Proof.
  intros c. rewrite print_categories. unfold parse.
  pose proof (categories_text_length c) as Hlen.
  unfold fields in *.
  rewrite parse_object by exact Hlen.
  reflexivity.
Qed.

Lemma parse_empty : parse EmptyString = None.
Proof. reflexivity. Qed.

End MiniJsonFacts.

(** ** The category store: merging *)

Lemma trimStart_head : forall s c r,
  trimStart s = String c r -> isWhiteSpace c = false.
Proof.
  induction s as [| a s IH]; intros c r H; [discriminate H |].
  cbn [trimStart] in H. destruct (isWhiteSpace a) eqn:E.
  - apply (IH c r H).
  - injection H as <- _. exact E.
Qed.

Lemma trimEnd_head : forall c r,
  isWhiteSpace c = false -> exists r', trimEnd (String c r) = String c r'.
Proof.
  intros c r H. cbn [trimEnd]. destruct (trimEnd r).
  - rewrite H. exists EmptyString. reflexivity.
  - eexists. reflexivity.
Qed.

Lemma trimEnd_idempotent : forall s, trimEnd (trimEnd s) = trimEnd s.
Proof.
  induction s as [| c s IH]; [reflexivity |].
  cbn [trimEnd]. destruct (trimEnd s) as [| a t] eqn:E.
  - destruct (isWhiteSpace c) eqn:Ec; [reflexivity |].
    cbn [singleton trimEnd]. rewrite Ec. reflexivity.
  - cbn [trimEnd]. cbn [trimEnd] in IH.
    destruct (match trimEnd t with
              | EmptyString => if isWhiteSpace a then EmptyString else singleton a
              | String a0 s0 => String a (String a0 s0)
              end) eqn:E2; [discriminate IH |].
    rewrite IH. reflexivity.
Qed.

(** [trim] does nothing to a text that is trimmed already. *)
Lemma trim_idempotent : forall s, trim (trim s) = trim s.
Proof.
  intros s. unfold trim.
  destruct (trimStart s) as [| c r] eqn:E; [reflexivity |].
  pose proof (trimStart_head s c r E) as Hc.
  destruct (trimEnd_head c r Hc) as [r' Hr']. rewrite Hr'.
  cbn [trimStart]. rewrite Hc. rewrite <- Hr'. apply trimEnd_idempotent.
Qed.

Lemma has_In : forall (seen : list string) (x : string),
  has seen x = true <-> In x seen.
Proof.
  intros seen x. unfold has. rewrite existsb_exists. split.
  - intros [y [Hy E]]. apply String.eqb_eq in E. subst y. exact Hy.
  - intros H. exists x. split; [exact H | apply String.eqb_refl].
Qed.

Lemma allSentences_push : forall (k : Category) (x : string) (m : AnalysisCategories) (y : string),
  In y (allSentences (push k x m)) <-> In y (allSentences m) \/ y = x.
Proof.
  intros k x m y. unfold allSentences.
  destruct k; cbn [push introduction_context endorsement commentary qualities
                   further_discussion];
    repeat rewrite in_app_iff; cbn [In]; intuition congruence.
Qed.

Lemma appendSentences_invariant :
  forall (k : Category) (sentences : list string) (st : AnalysisCategories * list string),
    seenInMerged st ->
    seenInMerged (appendSentences k sentences st)
    /\ (forall x, In x (snd st) -> In x (snd (appendSentences k sentences st)))
    /\ (forall s, In s sentences -> In (trim s) (snd (appendSentences k sentences st))).
Proof.
  intros k sentences. induction sentences as [| s rest IH]; intros [m seen] Hinv.
  - cbn [appendSentences]. repeat split; [exact Hinv | auto | intros s []].
  - cbn [appendSentences]. destruct (has seen (trim s)) eqn:Ehas.
    + destruct (IH (m, seen) Hinv) as [H1 [H2 H3]].
      split; [exact H1 |]. split; [exact H2 |].
      intros s' [-> | Hs']; [| apply H3; exact Hs'].
      apply H2. apply has_In. exact Ehas.
    + assert (Hinv' : seenInMerged (push k (trim s) m, trim s :: seen)).
      { intros x Hx. cbn [fst snd] in *. apply in_map_iff.
        destruct Hx as [<- | Hx].
        - exists (trim s). split; [apply trim_idempotent |].
          apply allSentences_push. right. reflexivity.
        - apply Hinv in Hx. cbn [fst] in Hx. apply in_map_iff in Hx.
          destruct Hx as [y [Hy Hin]]. exists y. split; [exact Hy |].
          apply allSentences_push. left. exact Hin. }
      destruct (IH _ Hinv') as [H1 [H2 H3]].
      split; [exact H1 |]. split.
      * intros x Hx. apply H2. right. exact Hx.
      * intros s' [-> | Hs']; [| apply H3; exact Hs'].
        apply H2. left. reflexivity.
Qed.

Lemma appendEntries_invariant :
  forall (newEntries : list (Category * list string)) (st : AnalysisCategories * list string),
    seenInMerged st ->
    seenInMerged (appendEntries newEntries st)
    /\ (forall x, In x (snd st) -> In x (snd (appendEntries newEntries st)))
    /\ (forall e s, In e newEntries -> In s (snd e) ->
                    In (trim s) (snd (appendEntries newEntries st))).
Proof.
  unfold appendEntries.
  induction newEntries as [| e rest IH]; intros st Hinv.
  - cbn [fold_left]. repeat split; [exact Hinv | auto | intros e s []].
  - cbn [fold_left].
    destruct (appendSentences_invariant (fst e) (snd e) st Hinv) as [A1 [A2 A3]].
    destruct (IH _ A1) as [B1 [B2 B3]].
    split; [exact B1 |]. split.
    + intros x Hx. apply B2, A2, Hx.
    + intros e' s [<- | He'] Hs.
      * apply B2, A3, Hs.
      * apply (B3 e' s He' Hs).
Qed.

(** Nothing is appended when every trimmed text has been seen. *)
Lemma appendSentences_seen :
  forall (k : Category) (sentences : list string) (st : AnalysisCategories * list string),
    (forall s, In s sentences -> In (trim s) (snd st)) ->
    appendSentences k sentences st = st.
Proof.
  intros k sentences. induction sentences as [| s rest IH]; intros [m seen] H;
    [reflexivity |].
  cbn [appendSentences].
  assert (E : has seen (trim s) = true).
  { apply has_In. apply (H s). left. reflexivity. }
  rewrite E. apply IH. intros s' Hs'. apply H. right. exact Hs'.
Qed.

Lemma appendEntries_seen :
  forall (newEntries : list (Category * list string)) (st : AnalysisCategories * list string),
    (forall e s, In e newEntries -> In s (snd e) -> In (trim s) (snd st)) ->
    appendEntries newEntries st = st.
Proof.
  unfold appendEntries.
  induction newEntries as [| e rest IH]; intros st H; [reflexivity |].
  cbn [fold_left]. rewrite appendSentences_seen.
  - apply IH. intros e' s He' Hs. apply (H e' s); [right; exact He' | exact Hs].
  - intros s Hs. apply (H e s); [left; reflexivity | exact Hs].
Qed.

(** Merging the same categories again changes nothing. *)
Lemma mergedWith_idempotent : forall existing newCategories : AnalysisCategories,
  mergedWith (mergedWith existing newCategories) newCategories
  = mergedWith existing newCategories.
Proof.
  intros existing newCategories. unfold mergedWith at 1.
  set (once := mergedWith existing newCategories).
  assert (Hinv : seenInMerged (existing, map trim (allSentences existing))).
  { intros x Hx. exact Hx. }
  destruct (appendEntries_invariant (entries newCategories) _ Hinv) as [H1 [_ H3]].
  rewrite appendEntries_seen; [reflexivity |].
  intros e s He Hs. cbn [snd]. fold once.
  apply (H1 (trim s)). apply (H3 e s He Hs).
Qed.

(** *** No sentence twice *)

Lemma allSentences_push_perm : forall (k : Category) (x : string) (m : AnalysisCategories),
  Permutation (allSentences (push k x m)) (x :: allSentences m).
Proof.
  intros k x [a b c d e]. unfold allSentences.
  destruct k; cbn [push introduction_context endorsement commentary qualities
                   further_discussion];
    symmetry; repeat rewrite <- app_assoc; cbn [app];
    repeat first
      [ apply Permutation_refl
      | apply Permutation_cons_append
      | etransitivity; [apply Permutation_middle |]; apply Permutation_app_head ].
Qed.

Lemma appendSentences_deduplicated :
  forall (k : Category) (sentences : list string) (st : AnalysisCategories * list string),
    deduplicated st -> deduplicated (appendSentences k sentences st).
Proof.
  intros k sentences. induction sentences as [| s rest IH]; intros [m seen] Hinv;
    [exact Hinv |].
  cbn [appendSentences]. destruct (has seen (trim s)) eqn:Ehas; [apply IH, Hinv |].
  apply IH. destruct Hinv as [Hseen Hnodup]. cbn [fst snd] in *.
  assert (Hperm : Permutation (map trim (allSentences (push k (trim s) m)))
                              (trim s :: map trim (allSentences m))).
  { rewrite (Permutation_map trim (allSentences_push_perm k (trim s) m)).
    cbn [map]. rewrite trim_idempotent. reflexivity. }
  split.
  - intros x. cbn [fst snd]. split; intros H.
    + apply (Permutation_in _ (Permutation_sym Hperm)).
      destruct H as [<- | H]; [left; reflexivity | right; apply Hseen; exact H].
    + apply (Permutation_in _ Hperm) in H.
      destruct H as [<- | H]; [left; reflexivity | right; apply Hseen; exact H].
  - apply (Permutation_NoDup (Permutation_sym Hperm)). constructor; [| exact Hnodup].
    intros Hin. apply Hseen, has_In in Hin. congruence.
Qed.

(** Merging keeps the store free of duplicates: when no trimmed text is twice
    in the categories found, none is twice in the merged categories. *)
Lemma mergedWith_deduplicated : forall existing newCategories : AnalysisCategories,
  NoDup (map trim (allSentences existing)) ->
  NoDup (map trim (allSentences (mergedWith existing newCategories))).
Proof.
  intros existing newCategories Hnodup. unfold mergedWith, appendEntries.
  assert (Hinv : deduplicated (existing, map trim (allSentences existing))).
  { split; [intros x; reflexivity | exact Hnodup]. }
  revert Hinv. generalize (existing, map trim (allSentences existing)).
  induction (entries newCategories) as [| e rest IH]; intros st Hinv.
  - exact (proj2 Hinv).
  - cbn [fold_left]. apply IH. apply appendSentences_deduplicated. exact Hinv.
Qed.

Lemma stringItems_strings : forall l : list string, stringItems (map JStr l) = Some l.
Proof.
  induction l as [| s l IH]; [reflexivity |].
  cbn [map stringItems]. rewrite IH. reflexivity.
Qed.

Lemma collect_categories : forall c : AnalysisCategories,
  objectValues (categoriesToJson c)
  = Normal [ JArr (map JStr (introduction_context c)); JArr (map JStr (endorsement c));
             JArr (map JStr (commentary c)); JArr (map JStr (qualities c));
             JArr (map JStr (further_discussion c)) ]
  /\ collectSentences
       [ JArr (map JStr (introduction_context c)); JArr (map JStr (endorsement c));
         JArr (map JStr (commentary c)); JArr (map JStr (qualities c));
         JArr (map JStr (further_discussion c)) ]
     = Normal (map trim (allSentences c)).
Proof.
  intros c. split; [reflexivity |].
  cbn [collectSentences trimmedSentences]. rewrite !stringItems_strings.
  unfold allSentences. rewrite !map_app, app_nil_r. reflexivity.
Qed.

Lemma copy_categories : forall c : AnalysisCategories,
  copyCategories (categoriesToJson c) = Normal c.
Proof.
  intros [a b c d e]. unfold copyCategories, spread.
  cbn [categoriesToJson toJson mapCategories entries map fst snd categoryName property
       member String.eqb Ascii.eqb Bool.eqb introduction_context endorsement commentary
       qualities further_discussion].
  rewrite !stringItems_strings. reflexivity.
Qed.

Lemma lookup_update_same : forall (key value : string) (ls : Storage),
  LocalStorage.lookup key (LocalStorage.update key value ls) = Some value.
Proof.
  intros key value ls. induction ls as [| [k v] rest IH].
  - cbn. rewrite String.eqb_refl. reflexivity.
  - cbn [LocalStorage.update]. destruct (String.eqb k key) eqn:E.
    + cbn [LocalStorage.lookup]. rewrite E. reflexivity.
    + cbn [LocalStorage.lookup]. rewrite E. exact IH.
Qed.

Lemma lookup_update_other : forall (key other value : string) (ls : Storage),
  String.eqb other key = false ->
  LocalStorage.lookup key (LocalStorage.update other value ls) = LocalStorage.lookup key ls.
Proof.
  intros key other value ls Hne. induction ls as [| [k v] rest IH].
  - cbn. rewrite Hne. reflexivity.
  - cbn [LocalStorage.update]. destruct (String.eqb k other) eqn:E.
    + apply String.eqb_eq in E. subst k. cbn [LocalStorage.lookup]. rewrite Hne.
      reflexivity.
    + cbn [LocalStorage.lookup]. destruct (String.eqb k key); [reflexivity | exact IH].
Qed.

(** A snapshot key is never the key of the categories. *)
Lemma sample_key_differs : forall (teacherName stamp : string),
  String.eqb ("sample_" ++ underscoreWhiteSpace teacherName ++ "_" ++ stamp)
             (getCategoryStorageKey teacherName) = false.
Proof. intros. reflexivity. Qed.

Section Merge.
Context {J : JSON}.

(** The two facts about [JSON] that the store relies on. *)
Hypothesis JSON_roundtrip :
  forall c : AnalysisCategories,
    JSON_parse (JSON_stringify (categoriesToJson c)) = Some (categoriesToJson c).
Hypothesis JSON_parse_empty : JSON_parse EmptyString = None.

Lemma stringify_not_empty : forall c : AnalysisCategories,
  isEmpty (JSON_stringify (categoriesToJson c)) = false.
Proof.
  intros c. destruct (JSON_stringify (categoriesToJson c)) eqn:E; [| reflexivity].
  pose proof (JSON_roundtrip c) as H. rewrite E, JSON_parse_empty in H. discriminate H.
Qed.

(** [storeAndAppendCategories] when the teacher's entry stands for the
    categories [existing]. *)
Lemma storeAndAppendCategories_runs :
  forall (newCategories existing : AnalysisCategories) (teacherName sampleContent : string)
         (w : World),
    storedOrEmpty (LocalStorage.lookup (getCategoryStorageKey teacherName) (localStorage w))
    = categoriesToJson existing ->
    storeAndAppendCategories newCategories teacherName sampleContent w
    = (Normal tt,
       afterStore (mergedWith existing newCategories) teacherName sampleContent w).
Proof.
  intros newCategories existing teacherName sampleContent w Hstored.
  unfold storeAndAppendCategories, tryCatch, bind at 1, LocalStorage.getItem.
  rewrite Hstored.
  destruct (collect_categories existing) as [Hvalues Hcollect].
  unfold bind at 1, lift. rewrite Hvalues.
  unfold bind at 1. rewrite Hcollect.
  unfold bind at 1. rewrite copy_categories.
  reflexivity.
Qed.

Lemma stored_after : forall (merged : AnalysisCategories) (teacherName sampleContent : string)
                            (w : World),
  LocalStorage.lookup (getCategoryStorageKey teacherName)
    (localStorage (afterStore merged teacherName sampleContent w))
  = Some (JSON_stringify (categoriesToJson merged)).
Proof.
  intros merged teacherName sampleContent w. unfold afterStore. cbn [localStorage].
  rewrite lookup_update_other by apply sample_key_differs.
  apply lookup_update_same.
Qed.

Lemma holdsCategories_stored : forall (teacherName : string) (w : World),
  holdsCategories teacherName w ->
  exists existing : AnalysisCategories,
    storedOrEmpty (LocalStorage.lookup (getCategoryStorageKey teacherName) (localStorage w))
    = categoriesToJson existing.
Proof.
  intros teacherName w Hholds. unfold storedOrEmpty.
  destruct (LocalStorage.lookup _ _) as [stored |] eqn:E; [| eauto].
  destruct (isEmpty stored); [eauto |].
  destruct (JSON_parse stored) as [v |] eqn:Ev; [| eauto].
  destruct (Hholds stored v E Ev) as [c ->]. eauto.
Qed.

(** C1.  Merge is idempotent.  Let the teacher's entry be absent, be no JSON,
    or be the JSON of some categories.  Merging the categories [C] into the
    store leaves an entry for the teacher, and merging the same [C] again,
    with whatever sample text and at whatever time, leaves the same entry:
    the second merge appends no sentence. *)
Theorem merge_idempotent :
  forall (C : AnalysisCategories) (teacherName sample1 sample2 : string) (w : World),
    holdsCategories teacherName w ->
    let w1 := snd (storeAndAppendCategories C teacherName sample1 w) in
    let w2 := snd (storeAndAppendCategories C teacherName sample2 w1) in
    exists merged : AnalysisCategories,
      LocalStorage.lookup (getCategoryStorageKey teacherName) (localStorage w1)
      = Some (JSON_stringify (categoriesToJson merged))
      /\ LocalStorage.lookup (getCategoryStorageKey teacherName) (localStorage w2)
         = Some (JSON_stringify (categoriesToJson merged))
      /\ fst (getCategories teacherName w1) = Normal (categoriesToJson merged)
      /\ fst (getCategories teacherName w2) = Normal (categoriesToJson merged).
Proof.
  intros C teacherName sample1 sample2 w Hholds w1 w2.
  destruct (holdsCategories_stored teacherName w Hholds) as [existing Hexisting].
  assert (E1 : w1 = afterStore (mergedWith existing C) teacherName sample1 w).
  { unfold w1. rewrite (storeAndAppendCategories_runs C existing _ _ _ Hexisting).
    reflexivity. }
  assert (Hstored1 : storedOrEmpty (LocalStorage.lookup (getCategoryStorageKey teacherName)
                                      (localStorage w1))
                     = categoriesToJson (mergedWith existing C)).
  { rewrite E1, stored_after. unfold storedOrEmpty.
    rewrite stringify_not_empty, JSON_roundtrip. reflexivity. }
  assert (E2 : w2 = afterStore (mergedWith existing C) teacherName sample2 w1).
  { unfold w2. rewrite (storeAndAppendCategories_runs C _ _ _ _ Hstored1).
    rewrite mergedWith_idempotent. reflexivity. }
  assert (Hstored2 : storedOrEmpty (LocalStorage.lookup (getCategoryStorageKey teacherName)
                                      (localStorage w2))
                     = categoriesToJson (mergedWith existing C)).
  { rewrite E2, stored_after. unfold storedOrEmpty.
    rewrite stringify_not_empty, JSON_roundtrip. reflexivity. }
  exists (mergedWith existing C). repeat split.
  - rewrite E1. apply stored_after.
  - rewrite E2. apply stored_after.
  - unfold getCategories, bind, ret, LocalStorage.getItem. cbn [fst].
    rewrite Hstored1. reflexivity.
  - unfold getCategories, bind, ret, LocalStorage.getItem. cbn [fst].
    rewrite Hstored2. reflexivity.
Qed.

(** The shape of the teacher's entry is kept by every merge. *)
Lemma holdsCategories_kept :
  forall (C : AnalysisCategories) (teacherName sampleContent : string) (w : World),
    holdsCategories teacherName w ->
    holdsCategories teacherName
      (snd (storeAndAppendCategories C teacherName sampleContent w)).
Proof.
  intros C teacherName sampleContent w Hholds.
  destruct (holdsCategories_stored teacherName w Hholds) as [existing Hexisting].
  rewrite (storeAndAppendCategories_runs C existing _ _ _ Hexisting). cbn [snd].
  intros stored v Hstored Hv. rewrite stored_after in Hstored.
  injection Hstored as <-. rewrite JSON_roundtrip in Hv. injection Hv as <-. eauto.
Qed.

End Merge.

Lemma freshWorld_holdsCategories : @holdsCategories MiniJson.codec "Ms Smith" freshWorld.
Proof. intros stored v Hstored. discriminate Hstored. Qed.

Lemma merge_idempotent_witness :
  exists merged : AnalysisCategories,
    LocalStorage.lookup "categorized_sentences_Ms_Smith"
      (localStorage
         (snd (@storeAndAppendCategories MiniJson.codec firstBatch "Ms Smith" "First sample."
                 freshWorld)))
    = Some (MiniJson.print (categoriesToJson merged))
    /\ LocalStorage.lookup "categorized_sentences_Ms_Smith"
         (localStorage
            (snd (@storeAndAppendCategories MiniJson.codec firstBatch "Ms Smith"
                    "First sample, again."
                    (snd (@storeAndAppendCategories MiniJson.codec firstBatch "Ms Smith"
                            "First sample." freshWorld)))))
       = Some (MiniJson.print (categoriesToJson merged)).
Proof.
  destruct (@merge_idempotent MiniJson.codec MiniJsonFacts.roundtrip MiniJsonFacts.parse_empty
              firstBatch "Ms Smith" "First sample." "First sample, again." freshWorld
              freshWorld_holdsCategories)
    as [merged [H1 [H2 _]]].
  exists merged. split; [exact H1 | exact H2].
Defined.

(** [firstBatch] holds one sentence three times, once with white space
    around it and once in another category: it is stored once, where it
    came first. *)
Example merged_once :
  fst (@getCategories MiniJson.codec "Ms Smith"
         (snd (@storeAndAppendCategories MiniJson.codec firstBatch "Ms Smith" "First sample."
                 freshWorld)))
  = Normal (categoriesToJson
              {| introduction_context := ["I have known Jane for two years."];
                 endorsement := ["I recommend her highly."];
                 commentary := []; qualities := ["She is diligent."];
                 further_discussion := [] |}).
Proof. vm_compute. reflexivity. Qed.

(** Why the entry has to be the JSON of some categories.  The sentences
    under a sixth key are seen when the first merge looks for duplicates and
    are dropped when it stores its result, so the second merge appends what
    the first one skipped. *)
Example foreign_key_merged_twice :
  fst (@getCategories MiniJson.codec "Ms Smith"
         (snd (@storeAndAppendCategories MiniJson.codec diligentOnly "Ms Smith" "Sample."
                 foreignEntry)))
  = Normal (categoriesToJson emptyCategories)
  /\ fst (@getCategories MiniJson.codec "Ms Smith"
            (snd (@storeAndAppendCategories MiniJson.codec diligentOnly "Ms Smith" "Sample."
                    (snd (@storeAndAppendCategories MiniJson.codec diligentOnly "Ms Smith"
                            "Sample." foreignEntry)))))
     = Normal (categoriesToJson diligentOnly).
Proof. split; vm_compute; reflexivity. Qed.

(** * Further properties *)

(** ** The category store: what a merge changes *)

(** [storeAndAppendCategories] either stores some merged categories and the
    snapshot, or changes nothing at all; it never throws. *)
Lemma storeAndAppendCategories_outcome :
  forall (J : JSON) (newCategories : AnalysisCategories) (teacherName sampleContent : string)
         (w : World),
    storeAndAppendCategories newCategories teacherName sampleContent w = (Normal tt, w)
    \/ exists merged : AnalysisCategories,
         storeAndAppendCategories newCategories teacherName sampleContent w
         = (Normal tt, afterStore merged teacherName sampleContent w).
Proof.
  intros J newCategories teacherName sampleContent w.
  unfold storeAndAppendCategories. run.
  destruct (objectValues _) as [values | e]; [| left; reflexivity].
  destruct (collectSentences values) as [seen | e]; [| left; reflexivity].
  destruct (copyCategories _) as [copied | e]; [| left; reflexivity].
  right. eexists. reflexivity.
Qed.

(** X1.  A merge touches two keys only.  Whatever [storeAndAppendCategories]
    finds and does, every entry of [localStorage] other than the teacher's
    categories and the snapshot key of this instant keeps its value, and the
    object store, the backend and the random generator are left alone. *)
Theorem storeAndAppendCategories_frame :
  forall (J : JSON) (newCategories : AnalysisCategories) (teacherName sampleContent : string)
         (w : World) (key : string),
    key <> getCategoryStorageKey teacherName ->
    key <> ("sample_" ++ underscoreWhiteSpace teacherName ++ "_" ++ ofN (hd 0%N (clock w)))%string ->
    let w' := snd (storeAndAppendCategories newCategories teacherName sampleContent w) in
    LocalStorage.lookup key (localStorage w') = LocalStorage.lookup key (localStorage w)
    /\ userInputs w' = userInputs w
    /\ posted w' = posted w
    /\ backend w' = backend w
    /\ entropy w' = entropy w.
Proof.
  intros J newCategories teacherName sampleContent w key Hkey Hsample w'.
  unfold w'.
  destruct (storeAndAppendCategories_outcome J newCategories teacherName sampleContent w)
    as [-> | [merged ->]]; cbn [snd]; [repeat split |].
  unfold afterStore. cbn [localStorage userInputs posted backend entropy].
  repeat split.
  rewrite !lookup_update_other; [reflexivity | |].
  - apply String.eqb_neq. congruence.
  - apply String.eqb_neq. congruence.
Qed.
Lemma storeAndAppendCategories_frame_witness :
  LocalStorage.lookup "theme"
    (localStorage (snd (@storeAndAppendCategories MiniJson.codec firstBatch "Ms Smith"
                          "First sample." sharedStorage)))
  = Some "dark".
Proof.
  exact (proj1 (storeAndAppendCategories_frame MiniJson.codec firstBatch "Ms Smith"
                  "First sample." sharedStorage "theme"
                  ltac:(intro H; vm_compute in H; discriminate H)
                  ltac:(intro H; vm_compute in H; discriminate H))).
Defined.

Lemma copyCategories_missing : forall (members : list (string * json)) (k : Category),
  member (categoryName k) members = None ->
  exists e, copyCategories (JObj members) = Throw e.
Proof.
  intros members k Hk. unfold copyCategories, spread. cbn [property].
  destruct k; cbn [categoryName] in Hk; rewrite Hk;
    repeat match goal with
           | |- context [match member ?n members with _ => _ end] =>
               destruct (member n members) as [[] |]
           | |- context [match stringItems ?l with _ => _ end] =>
               destruct (stringItems l)
           end;
    eexists; reflexivity.
Qed.

Lemma copyCategories_not_object : forall v : json,
  (forall members, v <> JObj members) ->
  exists e, copyCategories v = Throw e.
Proof.
  intros v Hv. destruct v as [| b | q | s | items | members];
    try (eexists; reflexivity).
  exfalso. apply (Hv members). reflexivity.
Qed.

(** X2.  An entry that cannot be used blocks the merge, silently.  When the
    teacher's entry parses, but to a value that is no object or to an object
    that lacks one of the five categories, [storeAndAppendCategories] stores
    nothing, neither the new sentences nor the snapshot, and returns as if it
    had. *)
Theorem storeAndAppendCategories_unusable_entry :
  forall (J : JSON) (newCategories : AnalysisCategories) (teacherName sampleContent : string)
         (w : World) (stored : string) (v : json),
    LocalStorage.lookup (getCategoryStorageKey teacherName) (localStorage w) = Some stored ->
    stored <> EmptyString ->
    JSON_parse stored = Some v ->
    (forall members, v <> JObj members)
    \/ (exists members k, v = JObj members /\ member (categoryName k) members = None) ->
    storeAndAppendCategories newCategories teacherName sampleContent w = (Normal tt, w).
Proof.
  intros J newCategories teacherName sampleContent w stored v Hstored Hne Hparse Hv.
  unfold storeAndAppendCategories. run. rewrite Hstored.
  unfold storedOrEmpty. destruct stored as [| c r]; [congruence |]. cbn [isEmpty].
  rewrite Hparse.
  assert (Hthrows : exists e, copyCategories v = Throw e).
  { destruct Hv as [Hv | [members [k [-> Hk]]]].
    - apply copyCategories_not_object, Hv.
    - apply (copyCategories_missing members k Hk). }
  destruct Hthrows as [e He].
  destruct (objectValues v) as [values | e0]; [| reflexivity].
  destruct (collectSentences values) as [seen | e1]; [| reflexivity].
  rewrite He. reflexivity.
Qed.

Lemma storeAndAppendCategories_unusable_entry_witness :
  @storeAndAppendCategories MiniJson.codec firstBatch "Ms Smith" "First sample." partialEntry
  = (Normal tt, partialEntry).
Proof.
  apply (storeAndAppendCategories_unusable_entry MiniJson.codec firstBatch "Ms Smith"
           "First sample." partialEntry
           (MiniJson.print (JObj [("endorsement", JArr [JStr "She is great."])]))
           (JObj [("endorsement", JArr [JStr "She is great."])])).
  - reflexivity.
  - vm_compute. discriminate.
  - vm_compute. reflexivity.
  - right. exists [("endorsement", JArr [JStr "She is great."])], Qualities.
    split; reflexivity.
Defined.
Lemma Category_eq_dec : forall c k : Category, {c = k} + {c <> k}.
Proof. decide equality. Qed.

Lemma get_push_same : forall (k : Category) (x : string) (m : AnalysisCategories),
  get k (push k x m) = get k m ++ [x].
Proof. intros k x m. destruct k; reflexivity. Qed.

Lemma get_push_other : forall (k c : Category) (x : string) (m : AnalysisCategories),
  c <> k -> get c (push k x m) = get c m.
Proof. intros k c x m H. destruct k, c; try reflexivity; congruence. Qed.

Lemma appendSentences_remembers :
  forall (k : Category) (sentences : list string) (st : AnalysisCategories * list string)
         (x : string),
    In x (snd st) -> In x (snd (appendSentences k sentences st)).
Proof.
  intros k sentences. induction sentences as [| s rest IH]; intros [m seen] x Hx;
    [exact Hx |].
  cbn [appendSentences]. destruct (has seen (trim s)).
  - apply IH, Hx.
  - apply IH. right. exact Hx.
Qed.

(** One category is only ever appended to, with trimmed texts that are new. *)
Lemma appendSentences_appends :
  forall (k : Category) (sentences : list string) (st : AnalysisCategories * list string)
         (c : Category),
    exists added : list string,
      get c (fst (appendSentences k sentences st)) = get c (fst st) ++ added
      /\ forall x, In x added ->
           c = k /\ ~ In x (snd st) /\ exists s, In s sentences /\ x = trim s.
Proof.
  intros k sentences. induction sentences as [| s rest IH]; intros [m seen] c.
  - exists []. cbn [appendSentences fst]. rewrite app_nil_r. split; [reflexivity |].
    intros x [].
  - cbn [appendSentences]. destruct (has seen (trim s)) eqn:Ehas.
    + destruct (IH (m, seen) c) as [added [Hget Hadded]].
      exists added. split; [exact Hget |].
      intros x Hx. destruct (Hadded x Hx) as [Hc [Hnew [s' [Hs' ->]]]].
      repeat split; [exact Hc | exact Hnew |].
      exists s'. split; [right; exact Hs' | reflexivity].
    + destruct (IH (push k (trim s) m, trim s :: seen) c) as [added [Hget Hadded]].
      cbn [fst snd] in *.
      assert (Hrest : forall x, In x added ->
                c = k /\ ~ In x seen /\ exists s', In s' (s :: rest) /\ x = trim s').
      { intros x Hx. destruct (Hadded x Hx) as [Hc [Hnew [s' [Hs' ->]]]].
        repeat split; [exact Hc | |].
        - intros Hin. apply Hnew. right. exact Hin.
        - exists s'. split; [right; exact Hs' | reflexivity]. }
      destruct (Category_eq_dec c k) as [-> | Hne].
      * exists (trim s :: added). rewrite Hget, get_push_same, <- app_assoc.
        split; [reflexivity |].
        intros x [<- | Hx]; [| apply Hrest, Hx].
        repeat split.
        -- intros Hin. apply has_In in Hin. congruence.
        -- exists s. split; [left; reflexivity | reflexivity].
      * exists added. rewrite Hget, get_push_other by exact Hne.
        split; [reflexivity | exact Hrest].
Qed.

Lemma appendEntries_appends :
  forall (newEntries : list (Category * list string)) (st : AnalysisCategories * list string)
         (c : Category),
    exists added : list string,
      get c (fst (appendEntries newEntries st)) = get c (fst st) ++ added
      /\ forall x, In x added ->
           ~ In x (snd st)
           /\ exists e s, In e newEntries /\ fst e = c /\ In s (snd e) /\ x = trim s.
Proof.
  unfold appendEntries.
  induction newEntries as [| e rest IH]; intros st c.
  - exists []. cbn [fold_left]. rewrite app_nil_r. split; [reflexivity |]. intros x [].
  - cbn [fold_left].
    destruct (appendSentences_appends (fst e) (snd e) st c) as [here [Hhere Hin_here]].
    destruct (IH (appendSentences (fst e) (snd e) st) c) as [there [Hthere Hin_there]].
    exists (here ++ there). rewrite Hthere, Hhere, <- app_assoc.
    split; [reflexivity |].
    intros x Hx. apply in_app_or in Hx. destruct Hx as [Hx | Hx].
    + destruct (Hin_here x Hx) as [Hc [Hnew [s [Hs ->]]]].
      split; [exact Hnew |].
      exists e, s. repeat split; [left; reflexivity | congruence | exact Hs].
    + destruct (Hin_there x Hx) as [Hnew [e' [s [He' [Hc [Hs ->]]]]]].
      split.
      * intros Hin. apply Hnew. apply appendSentences_remembers. exact Hin.
      * exists e', s. repeat split; [right; exact He' | exact Hc | exact Hs].
Qed.

Lemma entries_get : forall (C : AnalysisCategories) (e : Category * list string),
  In e (entries C) -> snd e = get (fst e) C.
Proof.
  intros C e He. unfold entries in He. cbn [In] in He.
  repeat (destruct He as [<- | He]; [reflexivity |]). destruct He.
Qed.

Lemma get_entries : forall (C : AnalysisCategories) (c : Category),
  In (c, get c C) (entries C).
Proof. intros C c. unfold entries. destruct c; cbn; auto 6. Qed.

(** What a merge makes of each category: what was there, then trimmed texts
    of new sentences of that category that were nowhere in the store. *)
Lemma mergedWith_appends : forall (existing C : AnalysisCategories) (c : Category),
  exists added : list string,
    get c (mergedWith existing C) = get c existing ++ added
    /\ forall x, In x added ->
         (exists s, In s (get c C) /\ x = trim s)
         /\ ~ In x (map trim (allSentences existing)).
Proof.
  intros existing C c. unfold mergedWith.
  destruct (appendEntries_appends (entries C) (existing, map trim (allSentences existing)) c)
    as [added [Hget Hadded]].
  exists added. split; [exact Hget |].
  intros x Hx. destruct (Hadded x Hx) as [Hnew [e [s [He [Hc [Hs ->]]]]]].
  split; [| exact Hnew].
  exists s. split; [| reflexivity].
  rewrite (entries_get C e He), Hc in Hs. exact Hs.
Qed.

Lemma mergedWith_holds_all : forall (existing C : AnalysisCategories) (c : Category) (s : string),
  In s (get c C) -> In (trim s) (map trim (allSentences (mergedWith existing C))).
Proof.
  intros existing C c s Hs. unfold mergedWith.
  assert (Hinv : seenInMerged (existing, map trim (allSentences existing))).
  { intros x Hx. exact Hx. }
  destruct (appendEntries_invariant (entries C) _ Hinv) as [H1 [_ H3]].
  apply (H1 (trim s)). apply (H3 (c, get c C) s); [apply get_entries | exact Hs].
Qed.

(** X3.  A merge only appends.  When the teacher's entry stands for the
    categories [existing] (or is absent, or is no JSON, which stands for the
    empty categories), [storeAndAppendCategories] leaves an entry in which
    every category begins with what it held, in the same order; what follows
    are trimmed texts of new sentences of that same category that the store
    held nowhere; and every new sentence is in the store afterwards, up to
    the white space around it. *)
Theorem merge_additive :
  forall (J : JSON) (C existing : AnalysisCategories) (teacherName sampleContent : string)
         (w : World),
    storedOrEmpty (LocalStorage.lookup (getCategoryStorageKey teacherName) (localStorage w))
    = categoriesToJson existing ->
    exists merged : AnalysisCategories,
      LocalStorage.lookup (getCategoryStorageKey teacherName)
        (localStorage (snd (storeAndAppendCategories C teacherName sampleContent w)))
      = Some (JSON_stringify (categoriesToJson merged))
      /\ (forall c : Category,
            exists added : list string,
              get c merged = get c existing ++ added
              /\ forall x, In x added ->
                   (exists s, In s (get c C) /\ x = trim s)
                   /\ ~ In x (map trim (allSentences existing)))
      /\ (forall (c : Category) (s : string),
            In s (get c C) -> In (trim s) (map trim (allSentences merged))).
Proof.
  intros J C existing teacherName sampleContent w Hstored.
  exists (mergedWith existing C).
  rewrite (storeAndAppendCategories_runs C existing _ _ _ Hstored). cbn [snd].
  split; [apply stored_after |]. split.
  - apply mergedWith_appends.
  - apply mergedWith_holds_all.
Qed.

Lemma merge_additive_witness :
  exists merged : AnalysisCategories,
    LocalStorage.lookup "categorized_sentences_Ms_Smith"
      (localStorage (snd (@storeAndAppendCategories MiniJson.codec secondBatch "Ms Smith"
                            "Second sample." freshWorld)))
    = Some (MiniJson.print (categoriesToJson merged))
    /\ In (trim "She asks good questions.") (map trim (allSentences merged)).
Proof.
  destruct (merge_additive MiniJson.codec secondBatch emptyCategories "Ms Smith"
              "Second sample." freshWorld eq_refl)
    as [merged [H1 [_ H3]]].
  exists merged. split; [exact H1 |].
  apply (H3 Commentary). left. reflexivity.
Defined.

(** X4.  A merge brings no duplicate.  When no text, trimmed, is twice in the
    categories that the teacher's entry stands for, none is twice in the
    entry that [storeAndAppendCategories] leaves, across all five
    categories. *)
Theorem merge_no_duplicates :
  forall (J : JSON) (C existing : AnalysisCategories) (teacherName sampleContent : string)
         (w : World),
    storedOrEmpty (LocalStorage.lookup (getCategoryStorageKey teacherName) (localStorage w))
    = categoriesToJson existing ->
    NoDup (map trim (allSentences existing)) ->
    exists merged : AnalysisCategories,
      LocalStorage.lookup (getCategoryStorageKey teacherName)
        (localStorage (snd (storeAndAppendCategories C teacherName sampleContent w)))
      = Some (JSON_stringify (categoriesToJson merged))
      /\ NoDup (map trim (allSentences merged)).
Proof.
  intros J C existing teacherName sampleContent w Hstored Hnodup.
  exists (mergedWith existing C).
  rewrite (storeAndAppendCategories_runs C existing _ _ _ Hstored). cbn [snd].
  split; [apply stored_after | apply mergedWith_deduplicated, Hnodup].
Qed.

Lemma merge_no_duplicates_witness :
  exists merged : AnalysisCategories,
    LocalStorage.lookup "categorized_sentences_Ms_Smith"
      (localStorage (snd (@storeAndAppendCategories MiniJson.codec firstBatch "Ms Smith"
                            "First sample." freshWorld)))
    = Some (MiniJson.print (categoriesToJson merged))
    /\ NoDup (map trim (allSentences merged)).
Proof.
  apply (merge_no_duplicates MiniJson.codec firstBatch emptyCategories "Ms Smith"
           "First sample." freshWorld eq_refl).
  constructor.
Defined.

(** ** The category store: [clearCategories] *)

Lemma lookup_remove_other : forall (key other : string) (ls : Storage),
  key <> other ->
  LocalStorage.lookup key (LocalStorage.remove other ls) = LocalStorage.lookup key ls.
Proof.
  intros key other ls Hne. unfold LocalStorage.remove.
  induction ls as [| [k v] rest IH]; [reflexivity |].
  cbn [filter fst]. destruct (String.eqb k other) eqn:E; cbn [negb].
  - apply String.eqb_eq in E. subst k. cbn [LocalStorage.lookup].
    assert (E : String.eqb other key = false) by (apply String.eqb_neq; congruence).
    rewrite E. exact IH.
  - cbn [LocalStorage.lookup]. destruct (String.eqb k key); [reflexivity | exact IH].
Qed.

Lemma removeSampleKeys_frame :
  forall (rounds : nat) (sampleKeyPrefix key : string) (i : nat) (w : World),
    startsWith key sampleKeyPrefix = false ->
    let w' := snd (removeSampleKeys rounds sampleKeyPrefix i w) in
    LocalStorage.lookup key (localStorage w') = LocalStorage.lookup key (localStorage w)
    /\ userInputs w' = userInputs w /\ posted w' = posted w
    /\ backend w' = backend w /\ clock w' = clock w /\ entropy w' = entropy w.
Proof.
  induction rounds as [| rounds IH]; intros sampleKeyPrefix key i w Hkey;
    [cbn; repeat split |].
  cbn [removeSampleKeys]. run.
  destruct (i <? List.length (localStorage w)); [| cbn; repeat split].
  destruct (nth_error (localStorage w) i) as [[k v] |]; cbn [option_map fst];
    [| apply IH, Hkey].
  destruct (negb (isEmpty k) && startsWith k sampleKeyPrefix) eqn:E; cbn [fst snd];
    [| apply IH, Hkey].
  match goal with
  | |- context [removeSampleKeys rounds sampleKeyPrefix (S i) ?w1] =>
      destruct (IH sampleKeyPrefix key (S i) w1 Hkey) as [H1 [H2 [H3 [H4 [H5 H6]]]]]
  end.
  cbn [localStorage userInputs posted backend clock entropy] in *.
  repeat split; try assumption.
  rewrite H1. apply lookup_remove_other.
  intros ->. apply andb_prop in E. destruct E as [_ E]. congruence.
Qed.

(** X5.  [clearCategories] touches the teacher's keys only: an entry whose
    key is not the key of the teacher's categories and does not start with
    the prefix of the teacher's snapshots keeps its value, and nothing but
    [localStorage] changes. *)
Theorem clearCategories_frame :
  forall (teacherName key : string) (w : World),
    key <> getCategoryStorageKey teacherName ->
    startsWith key (sampleKeyPrefixOf teacherName) = false ->
    let w' := snd (clearCategories teacherName w) in
    LocalStorage.lookup key (localStorage w') = LocalStorage.lookup key (localStorage w)
    /\ userInputs w' = userInputs w /\ posted w' = posted w
    /\ backend w' = backend w /\ clock w' = clock w /\ entropy w' = entropy w.
Proof.
  intros teacherName key w Hkey Hprefix w'. unfold w', clearCategories. run.
  match goal with
  | |- context [removeSampleKeys ?n ?p 0 ?w1] =>
      destruct (removeSampleKeys_frame n p key 0 w1 Hprefix) as [H1 [H2 [H3 [H4 [H5 H6]]]]]
  end.
  cbn [localStorage userInputs posted backend clock entropy] in *.
  repeat split; try assumption.
  rewrite H1. apply lookup_remove_other, Hkey.
Qed.

Lemma clearCategories_frame_witness :
  LocalStorage.lookup "sample_Mr_Jones_1700000000002"
    (localStorage (snd (clearCategories "Ms Smith" interleavedStorage)))
  = Some "A sample of Mr Jones.".
Proof.
  exact (proj1 (clearCategories_frame "Ms Smith" "sample_Mr_Jones_1700000000002"
                  interleavedStorage
                  ltac:(intro H; vm_compute in H; discriminate H)
                  eq_refl)).
Defined.

Lemma remove_absent : forall (key : string) (ls : Storage),
  ~ In key (map fst ls) -> LocalStorage.remove key ls = ls.
Proof.
  intros key ls H. unfold LocalStorage.remove. apply filter_all.
  intros [k v] Hin. cbn [fst]. apply negb_true_iff, String.eqb_neq.
  intros ->. apply H. apply in_map_iff. exists (key, v). split; [reflexivity | exact Hin].
Qed.

Lemma remove_middle : forall (done rest : Storage) (k v : string),
  NoDup (map fst (done ++ (k, v) :: rest)) ->
  LocalStorage.remove k (done ++ (k, v) :: rest) = done ++ rest.
Proof.
  intros done rest k v Hnodup.
  rewrite map_app in Hnodup. cbn [map fst] in Hnodup.
  pose proof (NoDup_remove_2 _ _ _ Hnodup) as Hnot.
  unfold LocalStorage.remove. rewrite filter_app. cbn [filter fst].
  rewrite String.eqb_refl. cbn [negb].
  fold (LocalStorage.remove k done). fold (LocalStorage.remove k rest).
  rewrite !remove_absent; [reflexivity | |];
    intros Hin; apply Hnot, in_or_app; [right | left]; exact Hin.
Qed.

Lemma NoDup_keys_remove : forall (key : string) (ls : Storage),
  NoDup (map fst ls) -> NoDup (map fst (LocalStorage.remove key ls)).
Proof.
  intros key ls. unfold LocalStorage.remove.
  induction ls as [| [k v] rest IH]; intros H; [exact H |].
  cbn [map fst] in H. inversion H as [| x l Hnot Hrest]; subst.
  cbn [filter fst]. destruct (negb (String.eqb k key)); [| apply IH, Hrest].
  cbn [map fst]. constructor; [| apply IH, Hrest].
  intros Hin. apply Hnot. apply in_map_iff in Hin. destruct Hin as [[k' v'] [<- Hin]].
  apply filter_In in Hin. apply in_map_iff. exists (k', v'). split; [reflexivity | apply Hin].
Qed.

Lemma removeSampleKeys_past_end :
  forall (rounds : nat) (sampleKeyPrefix : string) (i : nat) (w : World),
    List.length (localStorage w) <= i ->
    removeSampleKeys rounds sampleKeyPrefix i w = (Normal tt, w).
Proof.
  intros [| rounds] sampleKeyPrefix i w H; [reflexivity |].
  cbn [removeSampleKeys]. run.
  assert (E : (i <? List.length (localStorage w)) = false) by (apply Nat.ltb_ge; exact H).
  rewrite E. reflexivity.
Qed.

Lemma startsWith_nonempty : forall k p : string,
  p <> EmptyString -> negb (isEmpty k) && startsWith k p = startsWith k p.
Proof.
  intros [| c k] p Hp; [| reflexivity].
  destruct p; [congruence | reflexivity].
Qed.

(** The loop of [clearCategories] from index [i] on, over storage whose keys
    are all different. *)
Lemma removeSampleKeys_sweeps :
  forall (rounds : nat) (sampleKeyPrefix : string) (todo done : Storage) (w : World),
    sampleKeyPrefix <> EmptyString ->
    localStorage w = done ++ todo ->
    NoDup (map fst (done ++ todo)) ->
    List.length todo <= rounds ->
    localStorage (snd (removeSampleKeys rounds sampleKeyPrefix (List.length done) w))
    = done ++ sweep sampleKeyPrefix todo.
Proof.
  induction rounds as [| rounds IH]; intros sampleKeyPrefix todo done w Hp Hls Hnodup Hlen.
  - destruct todo; [| cbn in Hlen; lia]. cbn. exact Hls.
  - destruct todo as [| [k v] rest].
    + rewrite removeSampleKeys_past_end; [exact Hls |].
      rewrite Hls, app_nil_r. apply Nat.le_refl.
    + cbn [removeSampleKeys]. run. rewrite Hls.
      assert (E : (List.length done <? List.length (done ++ (k, v) :: rest)) = true).
      { apply Nat.ltb_lt. rewrite length_app. cbn [List.length]. lia. }
      rewrite E, Hls.
      rewrite nth_error_app2 by apply Nat.le_refl. rewrite Nat.sub_diag.
      cbn [nth_error option_map fst]. rewrite startsWith_nonempty by exact Hp.
      cbn [sweep]. destruct (startsWith k sampleKeyPrefix) eqn:Ek; cbn [fst snd].
      * rewrite Hls, (remove_middle done rest k v Hnodup).
        assert (Hnodup' : NoDup (map fst (done ++ rest))).
        { rewrite map_app in *. cbn [map fst] in Hnodup.
          apply (NoDup_remove_1 _ _ _ Hnodup). }
        destruct rest as [| next rest'].
        -- rewrite removeSampleKeys_past_end; cbn [localStorage];
             rewrite app_nil_r; [reflexivity | auto].
        -- replace (S (List.length done)) with (List.length (done ++ [next]))
             by (rewrite length_app; cbn [List.length]; lia).
           replace (done ++ next :: sweep sampleKeyPrefix rest')
             with ((done ++ [next]) ++ sweep sampleKeyPrefix rest')
             by (rewrite <- app_assoc; reflexivity).
           apply IH; [exact Hp | | |].
           ++ cbn [localStorage]. rewrite <- app_assoc. reflexivity.
           ++ rewrite <- app_assoc. exact Hnodup'.
           ++ cbn [List.length] in Hlen. lia.
      * replace (S (List.length done)) with (List.length (done ++ [(k, v)]))
          by (rewrite length_app; cbn [List.length]; lia).
        replace (done ++ (k, v) :: sweep sampleKeyPrefix rest)
          with ((done ++ [(k, v)]) ++ sweep sampleKeyPrefix rest)
          by (rewrite <- app_assoc; reflexivity).
        apply IH; [exact Hp | | |].
        -- rewrite Hls, <- app_assoc. reflexivity.
        -- rewrite <- app_assoc. exact Hnodup.
        -- cbn [List.length] in Hlen. lia.
Qed.

Lemma sampleKeyPrefixOf_nonempty : forall teacherName : string,
  sampleKeyPrefixOf teacherName <> EmptyString.
Proof. intros teacherName. unfold sampleKeyPrefixOf. cbn. discriminate. Qed.

(** X6.  What [clearCategories] leaves.  On storage whose keys are all
    different, as those of [localStorage] are, the entries that remain are
    those of [sweep]: the teacher's categories go; of the other entries, in
    their order, each one whose key starts with the snapshot prefix goes,
    and the entry right after a removed one stays whatever its key is. *)
Theorem clearCategories_remaining :
  forall (teacherName : string) (w : World),
    NoDup (map fst (localStorage w)) ->
    localStorage (snd (clearCategories teacherName w))
    = sweep (sampleKeyPrefixOf teacherName)
        (LocalStorage.remove (getCategoryStorageKey teacherName) (localStorage w)).
Proof.
  intros teacherName w Hnodup. unfold clearCategories. run.
  apply (removeSampleKeys_sweeps _ (sampleKeyPrefixOf teacherName) _ []).
  - apply sampleKeyPrefixOf_nonempty.
  - reflexivity.
  - apply NoDup_keys_remove, Hnodup.
  - apply Nat.le_refl.
Qed.

Lemma clearCategories_remaining_witness :
  localStorage (snd (clearCategories "Ms Smith" twoSnapshots))
  = sweep (sampleKeyPrefixOf "Ms Smith")
      (LocalStorage.remove (getCategoryStorageKey "Ms Smith") (localStorage twoSnapshots)).
Proof.
  apply (clearCategories_remaining "Ms Smith" twoSnapshots).
  vm_compute. repeat constructor; cbn; intuition discriminate.
Defined.

Lemma sweep_apart : forall (sampleKeyPrefix : string) (ls : Storage),
  apart sampleKeyPrefix ls = true ->
  sweep sampleKeyPrefix ls
  = filter (fun entry => negb (startsWith (fst entry) sampleKeyPrefix)) ls.
Proof.
  intros sampleKeyPrefix ls. induction ls as [| [k v] rest IH]; intros H; [reflexivity |].
  cbn [sweep filter fst]. cbn [apart] in H.
  destruct rest as [| [k' v'] rest'].
  - destruct (startsWith k sampleKeyPrefix); reflexivity.
  - apply andb_prop in H. destruct H as [Hpair Hrest].
    specialize (IH Hrest). cbn [sweep filter fst] in IH.
    destruct (startsWith k sampleKeyPrefix) eqn:Ek; cbn [negb].
    + cbn [andb] in Hpair. apply negb_true_iff in Hpair.
      rewrite Hpair in IH. cbn [negb] in IH.
      cbn [filter fst]. rewrite Hpair. cbn [negb].
      injection IH as IH. rewrite IH. reflexivity.
    + cbn [sweep filter fst]. rewrite IH. reflexivity.
Qed.

(** X7.  When [clearCategories] clears everything.  On storage whose keys are
    all different, if, the teacher's categories aside, no two neighbouring
    entries both have a key that starts with the teacher's snapshot prefix,
    then [clearCategories] removes the categories and every such snapshot,
    and leaves all other entries, in their order. *)
Theorem clearCategories_complete :
  forall (teacherName : string) (w : World),
    NoDup (map fst (localStorage w)) ->
    apart (sampleKeyPrefixOf teacherName)
      (LocalStorage.remove (getCategoryStorageKey teacherName) (localStorage w)) = true ->
    localStorage (snd (clearCategories teacherName w))
    = filter (fun entry => negb (startsWith (fst entry) (sampleKeyPrefixOf teacherName)))
        (LocalStorage.remove (getCategoryStorageKey teacherName) (localStorage w)).
Proof.
  intros teacherName w Hnodup Hapart.
  rewrite <- (sweep_apart _ _ Hapart). unfold clearCategories. run.
  apply (removeSampleKeys_sweeps _ (sampleKeyPrefixOf teacherName) _ []).
  - apply sampleKeyPrefixOf_nonempty.
  - reflexivity.
  - apply NoDup_keys_remove, Hnodup.
  - apply Nat.le_refl.
Qed.

Lemma clearCategories_complete_witness :
  localStorage (snd (clearCategories "Ms Smith" interleavedStorage))
  = filter (fun entry => negb (startsWith (fst entry) (sampleKeyPrefixOf "Ms Smith")))
      (LocalStorage.remove (getCategoryStorageKey "Ms Smith")
         (localStorage interleavedStorage)).
Proof.
  apply (clearCategories_complete "Ms Smith" interleavedStorage).
  - vm_compute. repeat constructor; cbn; intuition discriminate.
  - vm_compute. reflexivity.
Defined.

Example interleaved_cleared :
  localStorage (snd (clearCategories "Ms Smith" interleavedStorage))
  = [ ("categorized_sentences_Mr_Jones", "{oops");
      ("sample_Mr_Jones_1700000000002", "A sample of Mr Jones.") ].
Proof. vm_compute. reflexivity. Qed.

(** X8.  After [clearCategories], [getCategories] answers the five empty
    categories, whatever the storage held. *)
Theorem getCategories_after_clear :
  forall (J : JSON) (teacherName : string) (w : World),
    fst (getCategories teacherName (snd (clearCategories teacherName w)))
    = Normal (JObj [ ("introduction_context", JArr []);
                     ("endorsement", JArr []);
                     ("commentary", JArr []);
                     ("qualities", JArr []);
                     ("further_discussion", JArr []) ]).
Proof.
  intros J teacherName w. unfold getCategories. run.
  rewrite clearCategories_removes_categories. reflexivity.
Qed.

(** ** The category store: the keys *)

Lemma underscoreWhiteSpaceFrom_clean : forall (s : string) (inRun : bool),
  forallb (fun c => negb (isWhiteSpace c))
    (list_ascii_of_string (underscoreWhiteSpaceFrom inRun s)) = true.
Proof.
  induction s as [| c s IH]; intros inRun; [reflexivity |].
  cbn [underscoreWhiteSpaceFrom]. destruct (isWhiteSpace c) eqn:Ec.
  - destruct inRun; [apply IH |].
    cbn [list_ascii_of_string forallb]. rewrite IH. reflexivity.
  - cbn [list_ascii_of_string forallb]. rewrite Ec, IH. reflexivity.
Qed.

Lemma underscoreWhiteSpaceFrom_fixed : forall (s : string) (inRun : bool),
  forallb (fun c => negb (isWhiteSpace c)) (list_ascii_of_string s) = true ->
  underscoreWhiteSpaceFrom inRun s = s.
Proof.
  induction s as [| c s IH]; intros inRun H; [reflexivity |].
  cbn [list_ascii_of_string forallb] in H. apply andb_prop in H. destruct H as [Hc Hs].
  apply negb_true_iff in Hc. cbn [underscoreWhiteSpaceFrom]. rewrite Hc, IH by exact Hs.
  reflexivity.
Qed.

Lemma underscoreWhiteSpace_idempotent : forall s : string,
  underscoreWhiteSpace (underscoreWhiteSpace s) = underscoreWhiteSpace s.
Proof.
  intros s. unfold underscoreWhiteSpace at 1.
  apply underscoreWhiteSpaceFrom_fixed, underscoreWhiteSpaceFrom_clean.
Qed.

(** A longer run of white space gives the same text. *)
Lemma underscoreWhiteSpace_run : forall (before after : string) (c c' : ascii),
  isWhiteSpace c = true -> isWhiteSpace c' = true ->
  underscoreWhiteSpace (before ++ String c (String c' after))
  = underscoreWhiteSpace (before ++ String c after).
Proof.
  intros before after c c' Hc Hc'. unfold underscoreWhiteSpace. generalize false.
  induction before as [| a before IH]; intros inRun.
  - cbn [append underscoreWhiteSpaceFrom]. rewrite Hc, Hc'. reflexivity.
  - cbn [append underscoreWhiteSpaceFrom].
    destruct (isWhiteSpace a); [destruct inRun |]; rewrite IH; reflexivity.
Qed.

(** X9.  Which teachers share a store.  The key of a teacher's categories
    and the prefix of the snapshot keys hold no white space; a name and the
    name with an underscore for each run of white space give the same key
    and the same prefix, and so does a name with a longer run of white
    space.  Teachers whose names differ only so read and write the same
    entries. *)
Theorem storage_keys_normalized :
  forall teacherName : string,
    forallb (fun c => negb (isWhiteSpace c))
      (list_ascii_of_string (getCategoryStorageKey teacherName)) = true
    /\ getCategoryStorageKey (underscoreWhiteSpace teacherName)
       = getCategoryStorageKey teacherName
    /\ sampleKeyPrefixOf (underscoreWhiteSpace teacherName) = sampleKeyPrefixOf teacherName
    /\ (forall (before after : string) (c c' : ascii),
          teacherName = (before ++ String c after)%string ->
          isWhiteSpace c = true -> isWhiteSpace c' = true ->
          getCategoryStorageKey (before ++ String c (String c' after))
          = getCategoryStorageKey teacherName).
Proof.
  intros teacherName. unfold getCategoryStorageKey, sampleKeyPrefixOf.
  rewrite underscoreWhiteSpace_idempotent. repeat split.
  - cbn [append list_ascii_of_string forallb]. apply underscoreWhiteSpaceFrom_clean.
  - intros before after c c' -> Hc Hc'.
    rewrite (underscoreWhiteSpace_run before after c c' Hc Hc'). reflexivity.
Qed.

Lemma storage_keys_normalized_witness :
  getCategoryStorageKey "Ms  Smith" = getCategoryStorageKey "Ms Smith".
Proof.
  exact (proj2 (proj2 (proj2 (storage_keys_normalized "Ms Smith"))) "Ms" "Smith" " "%char " "%char
           eq_refl eq_refl eq_refl).
Defined.

Example shared_store :
  getCategoryStorageKey "Ms Smith" = "categorized_sentences_Ms_Smith"
  /\ getCategoryStorageKey "Ms_Smith" = "categorized_sentences_Ms_Smith"
  /\ getCategoryStorageKey "Ms   Smith" = "categorized_sentences_Ms_Smith".
Proof. repeat split. Qed.
(** ** The analyzer *)

Lemma push_strings : forall (k : Category) (x : string) (c : AnalysisCategories),
  push k (JStr x) (mapCategories JStr c) = mapCategories JStr (push k x c).
Proof.
  intros k x c. destruct k; unfold push, mapCategories;
    cbn [introduction_context endorsement commentary qualities further_discussion];
    rewrite map_app; reflexivity.
Qed.

Lemma scanLine_clean : forall (st : option Category * Categories json) (line : string),
  cleanLines (snd st) -> cleanLines (snd (scanLine st line)).
Proof.
  intros [currentCategory result] line Hclean. unfold scanLine. cbn [snd] in Hclean.
  destruct (existsb _ categoryHeaders).
  - repeat match goal with
           | |- context [if ?b then _ else _] => destruct b
           end; exact Hclean.
  - destruct currentCategory as [k |]; [| exact Hclean].
    destruct (_ && _); [| exact Hclean].
    destruct (0 <? String.length (trim (stripLeading isBullet (trim line)))) eqn:E;
      [| exact Hclean].
    destruct Hclean as [c [-> Hc]]. cbn [snd].
    exists (push k (trim (stripLeading isBullet (trim line))) c).
    split; [apply push_strings |].
    intros s Hs. apply allSentences_push in Hs. destruct Hs as [Hs | ->]; [apply Hc, Hs |].
    split; [| apply trim_idempotent].
    intros Hempty. rewrite Hempty in E. discriminate E.
Qed.

Lemma scanLines_clean : forall (lines : list string) (st : option Category * Categories json),
  cleanLines (snd st) -> cleanLines (snd (fold_left scanLine lines st)).
Proof.
  induction lines as [| line rest IH]; intros st H; [exact H |].
  cbn [fold_left]. apply IH, scanLine_clean, H.
Qed.

(** X10.  The line-by-line fallback of [parseAnalysisResponse] gives
    sentences that can be stored.  When the answer has no text between a
    first [{] and a last [}], or [JSON.parse] rejects that text, every item
    of every category of the result is a string, none is empty and none has
    white space at either end. *)
Theorem parseAnalysisResponse_fallback :
  forall (J : JSON) (responseText : string),
    (forall matched, matchSpan "{" "}" responseText = Some matched ->
                     JSON_parse matched = None) ->
    exists c : AnalysisCategories,
      parseAnalysisResponse (Some (JStr responseText)) = Normal (mapCategories JStr c)
      /\ asSentences (mapCategories JStr c) = Some c
      /\ forall s, In s (allSentences c) -> s <> EmptyString /\ trim s = s.
Proof.
  intros J responseText Hno. cbn [parseAnalysisResponse]. unfold parseAnalysisText.
  assert (E : match matchSpan "{" "}" responseText with
              | Some matched => parseCategoriesObject matched
              | None => None
              end = None).
  { destruct (matchSpan "{" "}" responseText) as [matched |] eqn:Em; [| reflexivity].
    unfold parseCategoriesObject. rewrite (Hno matched eq_refl). reflexivity. }
  rewrite E.
  destruct (scanLines_clean (split newline responseText) (None, emptyCategories))
    as [c [Hc Hclean]].
  { exists emptyCategories. split; [reflexivity | intros s []]. }
  exists c. rewrite Hc. split; [reflexivity |]. split; [| exact Hclean].
  unfold asSentences, mapCategories.
  cbn [introduction_context endorsement commentary qualities further_discussion].
  rewrite !stringItems_strings. destruct c; reflexivity.
Qed.

Lemma parseAnalysisResponse_fallback_witness :
  exists c : AnalysisCategories,
    @parseAnalysisResponse MiniJson.codec (Some (JStr plainAnswer))
    = Normal (mapCategories JStr c)
    /\ asSentences (mapCategories JStr c) = Some c
    /\ forall s, In s (allSentences c) -> s <> EmptyString /\ trim s = s.
Proof.
  apply (parseAnalysisResponse_fallback MiniJson.codec plainAnswer).
  intros matched H. vm_compute in H. discriminate H.
Defined.

Example plain_answer_parsed :
  @parseAnalysisResponse MiniJson.codec (Some (JStr plainAnswer))
  = Normal (mapCategories JStr
              {| introduction_context := []; endorsement := ["She is great."];
                 commentary := []; qualities := ["She is diligent."];
                 further_discussion := [] |}).
Proof. vm_compute. reflexivity. Qed.

Lemma generateText_frame :
  forall (J : JSON) (request : GenerationRequest) (w : World),
    localStorage (snd (QueryService.generateText request w)) = localStorage w
    /\ userInputs (snd (QueryService.generateText request w)) = userInputs w
    /\ entropy (snd (QueryService.generateText request w)) = entropy w
    /\ database (snd (QueryService.generateText request w)) = database w.
Proof.
  intros J request w. unfold QueryService.generateText. run.
  destruct (backend w) as [| [| r] rest]; cbn; try (repeat split; reflexivity).
  destruct (negb (ok r)); cbn; [repeat split |].
  destruct (JSON_parse (body r)) as [data |]; cbn; [| repeat split].
  destruct (property data "response"); cbn; repeat split.
Qed.

(** [saveAnalysisToDatabase] returns whatever the database does: the record
    is put when the database carries the operation out, and the object store
    is as it was when the promise is rejected, which the [catch] only
    logs. *)
Lemma saveAnalysisToDatabase_saves :
  forall (J : JSON) (analysis : Categories json) (originalSample teacher : string)
         (w : World),
    exists (record : UserInput) (w' : World),
      saveAnalysisToDatabase analysis originalSample teacher w = (Normal tt, w')
      /\ localStorage w' = localStorage w
      /\ userInputs w' = (if carriesOut w then DbStorage.put record (userInputs w)
                          else userInputs w)
      /\ type record = SampleAnalysis
      /\ teacherName record = teacher
      /\ content record = JSON_stringify (toJson analysis)
      /\ id record = ("analysis-" ++ ofN (hd 0%N (clock w)))%string.
Proof.
  intros J analysis originalSample teacher w.
  unfold saveAnalysisToDatabase, carriesOut. run.
  destruct (database w) as [| [| e] rest];
    [ eexists; eexists; split; [reflexivity |]; cbn; repeat split ..
    | exists {| id := "analysis-" ++ ofN (hd 0%N (clock w)); timestamp := 0%N;
                content := JSON_stringify (toJson analysis); type := SampleAnalysis;
                teacherName := teacher; metadata := None |};
      eexists; split; [reflexivity |]; cbn; repeat split ].
Qed.


(** The two ways [analyzeSample] ends: it throws before anything is stored,
    or it returns what it parsed after a record of it has been handed to the
    database, which has put it or has rejected the operation. *)
Lemma analyzeSample_outcome :
  forall (J : JSON) (sample teacherName' : string) (w : World),
    (exists (e : Thrown) (w' : World),
        analyzeSample sample teacherName' w = (Throw e, w')
        /\ localStorage w' = localStorage w
        /\ userInputs w' = userInputs w)
    \/ (exists (result : Categories json) (w' : World) (record : UserInput),
           analyzeSample sample teacherName' w = (Normal result, w')
           /\ userInputs w' = (if carriesOut w then DbStorage.put record (userInputs w)
                               else userInputs w)
           /\ type record = SampleAnalysis
           /\ teacherName record = teacherName'
           /\ content record = JSON_stringify (toJson result)).
Proof.
  intros J sample teacherName' w. unfold analyzeSample.
  unfold bind, tryCatch, lift, ret, throw.
  match goal with
  | |- context [QueryService.generateText ?r w] =>
      destruct (generateText_frame J r w) as [Hls [Hui [_ Hdb]]];
      destruct (QueryService.generateText r w) as [[response | e0] w1]
  end; cbn [snd] in Hls, Hui, Hdb; [| left; eauto].
  destruct (parseAnalysisResponse (text response)) as [analysisResult | e1];
    [| left; eauto].
  assert (Hstore : exists w2,
             (match asSentences analysisResult with
              | Some sentences => storeAndAppendCategories sentences teacherName' sample
              | None => fun w => (Normal tt, w)
              end) w1 = (Normal tt, w2)
             /\ userInputs w2 = userInputs w1 /\ database w2 = database w1).
  { destruct (asSentences analysisResult) as [sentences |];
      [| eexists; repeat split; reflexivity].
    destruct (storeAndAppendCategories_outcome J sentences teacherName' sample w1)
      as [-> | [merged ->]]; eexists; repeat split; reflexivity. }
  destruct Hstore as [w2 [-> [Hui2 Hdb2]]].
  destruct (saveAnalysisToDatabase_saves J analysisResult sample teacherName' w2)
    as [record [w3 [-> [_ [Hput [Htype [Hteacher [Hcontent _]]]]]]]].
  right. exists analysisResult, w3, record.
  split; [reflexivity |]. rewrite Hput. unfold carriesOut.
  rewrite Hdb2, Hdb, Hui2, Hui. repeat split; assumption.
Qed.

(** X11.  A failed analysis stores nothing.  When [analyzeSample] throws,
    [localStorage] and the object store are as they were: the categories are
    written only after the answer of the model has been read. *)
Theorem analyzeSample_failure_stores_nothing :
  forall (J : JSON) (sample teacherName : string) (w : World) (e : Thrown),
    fst (analyzeSample sample teacherName w) = Throw e ->
    localStorage (snd (analyzeSample sample teacherName w)) = localStorage w
    /\ userInputs (snd (analyzeSample sample teacherName w)) = userInputs w.
Proof.
  intros J sample teacherName w e H.
  destruct (analyzeSample_outcome J sample teacherName w)
    as [[e' [w' [E [Hls Hui]]]] | [result [w' [record [E _]]]]];
    rewrite E in *; cbn [fst snd] in *; [split; assumption | discriminate H].
Qed.

Lemma analyzeSample_failure_stores_nothing_witness :
  localStorage (snd (@analyzeSample MiniJson.codec "She is great." "Ms Smith"
                       (worldFailing NetworkFailure)))
  = localStorage (worldFailing NetworkFailure)
  /\ userInputs (snd (@analyzeSample MiniJson.codec "She is great." "Ms Smith"
                        (worldFailing NetworkFailure)))
     = userInputs (worldFailing NetworkFailure).
Proof.
  apply (analyzeSample_failure_stores_nothing MiniJson.codec "She is great." "Ms Smith"
           (worldFailing NetworkFailure) TypeError).
  reflexivity.
Defined.



(** ** The backend queries *)

(** X13.  One request for one call, and never a zero.  [generateText] posts
    exactly one body, whether the call succeeds or throws; the body carries
    the model and the prompt of the request.  Its temperature is 0.7 when
    the request has no options, when the options give no temperature and
    when they give 0, and it is the temperature of the options otherwise;
    its token limit is 1000 when the request has no options, when the
    options give no limit and when they give 0, and it is the limit of the
    options otherwise.  So neither is ever 0. *)
Theorem generateText_request :
  forall (J : JSON) (request : GenerationRequest) (w : World),
    exists b : ApiBody,
      posted (snd (QueryService.generateText request w)) = posted w ++ [b]
      /\ body_model b = model request
      /\ body_prompt b = prompt request
      /\ ~ (body_temperature b == 0)%Q
      /\ body_max_tokens b <> 0%N
      /\ (forall o t, options request = Some o -> temperature o = Some t ->
                      ~ (t == 0)%Q -> body_temperature b = t)
      /\ (forall o n, options request = Some o -> max_tokens o = Some n ->
                      n <> 0%N -> body_max_tokens b = n)
      /\ (options request = None ->
          body_temperature b = (7 # 10)%Q /\ body_max_tokens b = 1000%N)
      /\ (forall o, options request = Some o -> temperature o = None ->
                    body_temperature b = (7 # 10)%Q)
      /\ (forall o t, options request = Some o -> temperature o = Some t ->
                      (t == 0)%Q -> body_temperature b = (7 # 10)%Q)
      /\ (forall o, options request = Some o -> max_tokens o = None ->
                    body_max_tokens b = 1000%N)
      /\ (forall o, options request = Some o -> max_tokens o = Some 0%N ->
                    body_max_tokens b = 1000%N).
Proof.
  intros J request w. eexists. split; [apply generateText_posts |].
  cbn [body_model body_prompt body_temperature body_max_tokens].
  unfold QueryService.temperatureOf, QueryService.maxTokensOf.
  split; [reflexivity |]. split; [reflexivity |].
  split; [| split; [| split; [| split; [| split; [| split; [| split; [| split]]]]]]].
  - assert (Hdefault : ~ (7 # 10 == 0)%Q) by (intros H; vm_compute in H; discriminate H).
    destruct (options request) as [o |]; [| exact Hdefault].
    destruct (temperature o) as [t |]; [| exact Hdefault].
    destruct (Qeq_bool t 0) eqn:E; [exact Hdefault |].
    intros H. apply Qeq_bool_iff in H. congruence.
  - destruct (options request) as [o |]; [| discriminate].
    destruct (max_tokens o) as [n |]; [| discriminate].
    destruct (n =? 0)%N eqn:E; [discriminate |].
    apply N.eqb_neq. exact E.
  - intros o t -> -> Ht.
    destruct (Qeq_bool t 0) eqn:E; [| reflexivity].
    apply Qeq_bool_iff in E. contradiction.
  - intros o n -> -> Hn.
    destruct (n =? 0)%N eqn:E; [| reflexivity].
    apply N.eqb_eq in E. contradiction.
  - intros ->. split; reflexivity.
  - intros o -> ->. reflexivity.
  - intros o t -> -> Ht. apply Qeq_bool_iff in Ht. rewrite Ht. reflexivity.
  - intros o -> ->. reflexivity.
  - intros o -> ->. reflexivity.
Qed.

(** A request for the temperature 0 and for no token at all posts 0.7 and
    1000. *)
Example zero_options_replaced :
  posted (snd (@QueryService.generateText MiniJson.codec
                 {| prompt := "Say hello."; model := "gemma3";
                    options := Some {| temperature := Some 0%Q; top_p := None;
                                       max_tokens := Some 0%N |} |}
                 (worldAnswering ["Hello."])))
  = [ {| body_model := "gemma3"; body_prompt := "Say hello.";
         body_temperature := (7 # 10)%Q; body_max_tokens := 1000%N |} ].
Proof. reflexivity. Qed.

(** X14.  When [generateText] returns.  It returns a response exactly when
    the backend answers, with a status from 200 to 299, a body that is JSON
    and not [null]; the response then carries the [response] member of the
    body, if the body has one, the model of the request and the reading of
    the clock. *)
Theorem generateText_returns_iff :
  forall (J : JSON) (request : GenerationRequest) (w : World) (response : GenerationResponse),
    fst (QueryService.generateText request w) = Normal response
    <-> exists (r : HttpResponse) (rest : list FetchOutcome) (data : json),
          backend w = Responds r :: rest
          /\ (200 <= status r <= 299)%N
          /\ JSON_parse (body r) = Some data
          /\ data <> JNull
          /\ response = {| text := match data with
                                   | JObj members => member "response" members
                                   | _ => None
                                   end;
                           response_model := model request;
                           created := hd 0%N (clock w) |}.
Proof.
  intros J request w response. unfold QueryService.generateText. run. split.
  - destruct (backend w) as [| [| r] rest]; cbn; try discriminate.
    unfold ok. destruct ((200 <=? status r)%N && (status r <=? 299)%N) eqn:Eok; cbn;
      [| discriminate].
    destruct (JSON_parse (body r)) as [data |] eqn:Ed; cbn; [| discriminate].
    apply andb_prop in Eok. destruct Eok as [E1 E2].
    apply N.leb_le in E1. apply N.leb_le in E2.
    destruct data; cbn; try discriminate; intros H; injection H as <-;
      exists r, rest; eexists;
      (split; [reflexivity |]); (split; [split; assumption |]);
      (split; [exact Ed |]); (split; [discriminate | reflexivity]).
  - intros [r [rest [data [-> [[H1 H2] [Hd [Hnull ->]]]]]]]. cbn.
    unfold ok. apply N.leb_le in H1. apply N.leb_le in H2. rewrite H1, H2. cbn.
    rewrite Hd. destruct data; cbn; try reflexivity. congruence.
Qed.

Lemma modelNames_names : forall (items : list json) (names : list (option json)),
  QueryService.modelNames items = Normal names ->
  Forall2 (fun model name => property model "name" = Normal name) items names.
Proof.
  induction items as [| model rest IH]; intros names H.
  - injection H as <-. constructor.
  - cbn [QueryService.modelNames] in H.
    destruct (property model "name") as [name |] eqn:En; [| discriminate H].
    destruct (QueryService.modelNames rest) as [names' |]; [| discriminate H].
    injection H as <-. constructor; [exact En | apply IH; reflexivity].
Qed.

Lemma modelNames_no_null : forall (items : list json) (names : list (option json)),
  QueryService.modelNames items = Normal names -> ~ In JNull items.
Proof.
  induction items as [| model rest IH]; intros names H Hin; [destruct Hin |].
  cbn [QueryService.modelNames] in H.
  destruct (property model "name") as [name |] eqn:En; [| discriminate H].
  destruct (QueryService.modelNames rest) as [names' |] eqn:Er; [| discriminate H].
  destruct Hin as [-> | Hin]; [discriminate En | exact (IH names' eq_refl Hin)].
Qed.

Lemma modelNames_null : forall (items : list json) (e : Thrown),
  QueryService.modelNames items = Throw e -> In JNull items.
Proof.
  induction items as [| model rest IH]; intros e H; [discriminate H |].
  cbn [QueryService.modelNames] in H.
  destruct (property model "name") as [name |] eqn:En.
  - destruct (QueryService.modelNames rest) as [names' | e'] eqn:Er; [discriminate H |].
    right. exact (IH e' eq_refl).
  - left. destruct model; try discriminate En. reflexivity.
Qed.

(** X15.  The two queries of the connection never throw.  [testConnection]
    answers [true] exactly when the backend answers with a status from 200
    to 299.  [getAvailableModels] answers the [name] of each element of the
    array [models], in order and whatever the status, when the backend
    answers a body that is JSON with an array [models] none of whose
    elements is [null]; it answers the one name [gemma3] in every other
    case: the backend does not answer, the body is no JSON, it has no array
    [models], or an element of the array is [null]. *)
Theorem connection_queries :
  forall (J : JSON) (w : World),
    (exists w', QueryService.testConnection w
                = (Normal match backend w with
                          | Responds r :: _ => ok r
                          | _ => false
                          end, w'))
    /\ (exists names w',
           QueryService.getAvailableModels w = (Normal names, w')
           /\ ((exists r rest data items,
                   backend w = Responds r :: rest
                   /\ JSON_parse (body r) = Some data
                   /\ property data "models" = Normal (Some (JArr items))
                   /\ ~ In JNull items
                   /\ Forall2 (fun model name => property model "name" = Normal name)
                        items names)
               \/ (names = [Some (JStr "gemma3")]
                   /\ ((forall r rest, backend w <> Responds r :: rest)
                       \/ exists r rest,
                            backend w = Responds r :: rest
                            /\ (JSON_parse (body r) = None
                                \/ exists data,
                                     JSON_parse (body r) = Some data
                                     /\ ((forall items,
                                             property data "models"
                                             <> Normal (Some (JArr items)))
                                         \/ exists items,
                                              property data "models"
                                              = Normal (Some (JArr items))
                                              /\ In JNull items)))))).
Proof.
  intros J w. split.
  - unfold QueryService.testConnection, fetchGet. run.
    destruct (backend w) as [| [| r] rest]; eexists; reflexivity.
  - unfold QueryService.getAvailableModels, fetchGet. run.
    destruct (backend w) as [| [| r] rest] eqn:Eb; cbn.
    + eexists. eexists. split; [reflexivity |]. right. split; [reflexivity |].
      left. intros r rest. discriminate.
    + eexists. eexists. split; [reflexivity |]. right. split; [reflexivity |].
      left. intros r rest'. discriminate.
    + destruct (JSON_parse (body r)) as [data |] eqn:Ed; cbn.
      2: { eexists. eexists. split; [reflexivity |]. right. split; [reflexivity |].
           right. exists r, rest. split; [reflexivity |]. left. exact Ed. }
      destruct (property data "models") as [[[| | | | items |] |] |] eqn:Em; cbn;
        try (eexists; eexists; split; [reflexivity |]; right; split; [reflexivity |];
             right; exists r, rest; split; [reflexivity |]; right;
             exists data; split; [exact Ed |]; left; intros items; rewrite Em;
             discriminate).
      destruct (QueryService.modelNames items) as [names | e] eqn:En; cbn.
      * eexists. eexists. split; [reflexivity |]. left.
        exists r, rest, data, items.
        split; [reflexivity |]. split; [exact Ed |]. split; [exact Em |].
        split; [exact (modelNames_no_null _ _ En) | apply modelNames_names, En].
      * eexists. eexists. split; [reflexivity |]. right. split; [reflexivity |].
        right. exists r, rest. split; [reflexivity |]. right.
        exists data. split; [exact Ed |]. right.
        exists items. split; [exact Em | exact (modelNames_null _ _ En)].
Qed.

Example models_listed_under_error_status :
  fst (@QueryService.getAvailableModels MiniJson.codec listingBackend)
  = Normal [Some (JStr "gemma3"); Some (JStr "llama3")]
  /\ fst (QueryService.testConnection listingBackend) = Normal false.
Proof. split; vm_compute; reflexivity. Qed.

(** An array [models] that holds [null]: reading its name throws, and the
    answer is the one name [gemma3], not the names of the other elements. *)
Example null_model_falls_back :
  fst (@QueryService.getAvailableModels MiniJson.codec
         (worldFailing
            (Responds {| status := 200%N;
                         body := MiniJson.print
                                   (JObj [("models",
                                           JArr [ JObj [("name", JStr "llama3")];
                                                  JNull ])]) |})))
  = Normal [Some (JStr "gemma3")].
Proof. vm_compute. reflexivity. Qed.

(** ** The template *)

(** X16.  [validateCategory] answers one of the five names, whatever it is
    given; it leaves each of the five names as it is, and so validating
    twice is validating once. *)
Theorem validateCategory_canonical :
  forall category : string,
    (exists k : Category, validateCategory category = categoryName k)
    /\ (forall k : Category, validateCategory (categoryName k) = categoryName k)
    /\ validateCategory (validateCategory category) = validateCategory category.
Proof.
  intros category.
  assert (Hfixed : forall k : Category, validateCategory (categoryName k) = categoryName k).
  { intros k. destruct k; vm_compute; reflexivity. }
  assert (Hrange : exists k : Category, validateCategory category = categoryName k).
  { unfold validateCategory.
    destruct (isEmpty category); [exists Commentary; reflexivity |].
    destruct (_ || _); [exists IntroductionContext; reflexivity |].
    destruct (includes _ "endorse"); [exists Endorsement; reflexivity |].
    destruct (includes _ "comment"); [exists Commentary; reflexivity |].
    destruct (_ || _); [exists Qualities; reflexivity |].
    destruct (_ || _); [exists FurtherDiscussion; reflexivity |].
    exists Commentary; reflexivity. }
  split; [exact Hrange |]. split; [exact Hfixed |].
  destruct Hrange as [k ->]. apply Hfixed.
Qed.

Lemma tagFrom_sentences : forall (sentences : list string) (index len : nat)
                                 (categories : list json),
  map originalSentence (tagFrom index len categories sentences) = map trim sentences.
Proof.
  induction sentences as [| s rest IH]; intros index len categories; [reflexivity |].
  cbn [tagFrom map originalSentence]. rewrite IH. reflexivity.
Qed.

Lemma categoryAt_truthy : forall (categories : list json) (index : nat),
  truthy (categoryAt categories index) = true.
Proof.
  intros categories index. unfold categoryAt.
  destruct (nth_error categories index) as [c |]; [| reflexivity].
  destruct (truthy c) eqn:E; [exact E | reflexivity].
Qed.

Lemma tagFrom_categories : forall (P : json -> Prop) (sentences : list string)
                                  (index len : nat) (categories : list json),
  (forall i, P (categoryAt categories i)) ->
  Forall (fun item => P (category item)) (tagFrom index len categories sentences).
Proof.
  intros P. induction sentences as [| s rest IH]; intros index len categories H;
    [constructor |].
  cbn [tagFrom]. constructor; [apply H | apply IH, H].
Qed.

(** X17.  One item for each sentence.  Whatever the model answers, a
    template that [categorizeTemplate] returns has the sentences that the
    sentence heuristic finds in the content, trimmed and in their order, one
    item each, and the category of every item is truthy: a missing, empty or
    [null] label has become [commentary]. *)
Theorem categorizeTemplate_items :
  forall (J : JSON) (templateContent : string) (w w' : World) (items : list TemplateItem),
    categorizeTemplate templateContent w = (Normal items, w') ->
    map originalSentence items = map trim (matchSentences templateContent)
    /\ Forall (fun item => truthy (category item) = true) items.
Proof.
  intros J templateContent w w' items H.
  destruct (categorizeTemplate_returns J templateContent w w' items H) as [categories ->].
  split; [apply tagFrom_sentences |].
  apply (tagFrom_categories (fun c => truthy c = true)). apply categoryAt_truthy.
Qed.

Lemma categorizeTemplate_items_witness :
  map originalSentence fiveItems = map trim (matchSentences fiveSentences)
  /\ Forall (fun item => truthy (category item) = true) fiveItems.
Proof.
  apply (categorizeTemplate_items MiniJson.codec fiveSentences (worldAnswering [fiveLabels])
           (snd (@categorizeTemplate MiniJson.codec fiveSentences
                   (worldAnswering [fiveLabels])))
           fiveItems).
  vm_compute. reflexivity.
Defined.

Lemma canonical_truthy : forall label : json, canonical label -> truthy label = true.
Proof. intros label [k ->]. destruct k; reflexivity. Qed.

Lemma categoryAt_canonical : forall (categories : list json) (index : nat),
  Forall canonical categories -> canonical (categoryAt categories index).
Proof.
  intros categories index H. unfold categoryAt.
  destruct (nth_error categories index) as [c |] eqn:E; [| exists Commentary; reflexivity].
  assert (Hc : canonical c).
  { rewrite Forall_forall in H. apply H. apply (nth_error_In _ _ E). }
  rewrite (canonical_truthy c Hc). exact Hc.
Qed.

Lemma In_firstn : forall (A : Type) (n : nat) (l : list A) (x : A),
  In x (firstn n l) -> In x l.
Proof.
  intros A n. induction n as [| n IH]; intros [| a l] x H; try destruct H.
  - left. assumption.
  - right. apply IH. assumption.
Qed.

Lemma align_canonical : forall (categories : list json) (n : nat),
  Forall canonical categories -> Forall canonical (align categories n).
Proof.
  intros categories n H. unfold align.
  destruct (List.length categories =? n); [exact H |].
  apply Forall_forall. intros x Hx. apply In_firstn in Hx. apply in_app_or in Hx.
  destruct Hx as [Hx | Hx].
  - rewrite Forall_forall in H. apply H, Hx.
  - apply repeat_spec in Hx. subst x. exists Commentary. reflexivity.
Qed.

Lemma positionalCategory_canonical : forall len index : nat,
  canonical (JStr (positionalCategory len index)).
Proof.
  intros len index. unfold positionalCategory.
  repeat match goal with
         | |- context [if ?b then _ else _] => destruct b
         end;
    [ exists IntroductionContext | exists Qualities | exists Endorsement
    | exists Commentary | exists FurtherDiscussion ]; reflexivity.
Qed.

Lemma validateCategory_name : forall category : string,
  canonical (JStr (validateCategory category)).
Proof.
  intros category. unfold validateCategory.
  repeat match goal with
         | |- context [if ?b then _ else _] => destruct b
         end;
    first [ exists IntroductionContext; reflexivity | exists Qualities; reflexivity
          | exists Endorsement; reflexivity | exists Commentary; reflexivity
          | exists FurtherDiscussion; reflexivity ].
Qed.

(** The labels that [extractCategories] reads are among the five names
    unless it took them from a JSON array. *)
Lemma extractCategories_canonical :
  forall (J : JSON) (answer : option json) (sentences : list string) (categories : list json),
    (forall s matched, answer = Some (JStr s) -> matchSpan "[" "]" s = Some matched ->
                       JSON_parse matched = None) ->
    extractCategories answer sentences = Normal categories ->
    Forall canonical categories.
Proof.
  intros J answer sentences categories Hno. unfold extractCategories.
  assert (Hpositional : forall l : list nat,
             Forall canonical
               (map (fun index => JStr (positionalCategory (List.length sentences) index)) l)).
  { intros l. apply Forall_forall. intros x Hx. apply in_map_iff in Hx.
    destruct Hx as [i [<- _]]. apply positionalCategory_canonical. }
  assert (Hlines : forall s : string,
             match matchSpan "[" "]" s with
             | Some matched =>
                 match JSON_parse matched with
                 | Some (JArr categories) => Normal categories
                 | Some _ => Throw TypeError
                 | None => Normal []
                 end
             | None =>
                 Normal (map (fun line => JStr (validateCategory (trim (stripNumbering line))))
                             (filter (fun line => 0 <? String.length (trim line))
                                     (split newline s)))
             end = Normal categories ->
             (forall matched, matchSpan "[" "]" s = Some matched -> JSON_parse matched = None) ->
             Forall canonical categories).
  { intros s H Hs. destruct (matchSpan "[" "]" s) as [matched |].
    - rewrite (Hs matched eq_refl) in H. injection H as <-. constructor.
    - injection H as <-. apply Forall_forall. intros x Hx. apply in_map_iff in Hx.
      destruct Hx as [line [<- _]]. apply validateCategory_name. }
  destruct answer as [v |]; cbn [truthyValue].
  - destruct (truthy v) eqn:Ev.
    + destruct v as [| b | q | s | items | members];
        try (intros H; injection H as <-; apply Hpositional).
      intros H. apply (Hlines s H). intros matched. apply Hno. reflexivity.
    + intros H. apply (Hlines EmptyString H). intros matched Hm. discriminate Hm.
  - intros H. apply (Hlines EmptyString H). intros matched Hm. discriminate Hm.
Qed.

(** X18.  Labels outside the five names come from a JSON array only.  When
    the answer of the model holds no text between a first bracket and a last
    one that [JSON.parse] accepts, every item of the template that
    [categorizeTemplate] returns has one of the five names as its
    category. *)
Theorem categorizeTemplate_canonical :
  forall (J : JSON) (templateContent : string) (w w' : World) (items : list TemplateItem)
         (r : HttpResponse) (rest : list FetchOutcome) (data : json) (answer : option json),
    categorizeTemplate templateContent w = (Normal items, w') ->
    backend w = Responds r :: rest ->
    JSON_parse (body r) = Some data ->
    property data "response" = Normal answer ->
    (forall s matched, answer = Some (JStr s) -> matchSpan "[" "]" s = Some matched ->
                       JSON_parse matched = None) ->
    Forall (fun item => canonical (category item)) items.
Proof.
  intros J templateContent w w' items r rest data answer H Hbackend Hdata Hanswer Hno.
  unfold categorizeTemplate in H.
  destruct (isEmpty templateContent); [injection H as <- _; constructor |].
  destruct (List.length (matchSentences templateContent) =? 0);
    [injection H as <- _; constructor |].
  unfold QueryService.generateText in H. revert H. run. rewrite Hbackend.
  destruct (negb (ok r)); [discriminate |].
  rewrite Hdata, Hanswer. cbn.
  destruct (extractCategories answer (matchSentences templateContent))
    as [categories |] eqn:Ec; [| discriminate].
  intros H. injection H as <- _.
  apply (tagFrom_categories canonical). intros i.
  apply categoryAt_canonical, align_canonical.
  apply (extractCategories_canonical J answer _ categories Hno Ec).
Qed.

Lemma categorizeTemplate_canonical_witness :
  Forall (fun item => canonical (category item)) twoItems.
Proof.
  apply (categorizeTemplate_canonical MiniJson.codec "Jane is kind. Write to me."
           (worldAnswering ["no labels"])
           (snd (@categorizeTemplate MiniJson.codec "Jane is kind. Write to me."
                   (worldAnswering ["no labels"])))
           twoItems
           {| status := 200%N; body := MiniJson.print (JObj [("response", JStr "no labels")]) |}
           [] (JObj [("response", JStr "no labels")]) (Some (JStr "no labels"))).
  - vm_compute. reflexivity.
  - reflexivity.
  - vm_compute. reflexivity.
  - reflexivity.
  - intros s matched Hs Hm. injection Hs as <-. vm_compute in Hm. discriminate Hm.
Defined.

(** ** The common patterns *)

Lemma parseSample_usable : forall (acc : list (list string) * nat) (sample : UserInput),
  fst (parseSample acc sample)
  = fst acc ++ (if usable sample then [sentencesOf sample] else []).
Proof.
  intros [sampleSentences m] sample. unfold parseSample, usable, sentencesOf.
  destruct (isEmpty (content sample)); cbn [negb andb fst];
    [rewrite app_nil_r; reflexivity |].
  destruct (0 <? List.length (matchSentences (content sample))); cbn [fst];
    [reflexivity | rewrite app_nil_r; reflexivity].
Qed.

Lemma parseSamples_usable : forall (samples : list UserInput) (acc : list (list string) * nat),
  fst (fold_left parseSample samples acc)
  = fst acc ++ map sentencesOf (filter usable samples).
Proof.
  induction samples as [| sample rest IH]; intros acc.
  - cbn. rewrite app_nil_r. reflexivity.
  - cbn [fold_left filter]. rewrite IH, parseSample_usable.
    destruct (usable sample); cbn [map]; rewrite <- app_assoc; reflexivity.
Qed.

(** What the bound of the two loops is when every sample that counts has two
    sentences or more: at least 1, and at most half the length of the first
    sample. *)
Lemma parseSamples_bound : forall (samples : list UserInput) (acc : list (list string) * nat),
  (forall sample, In sample samples -> usable sample = true ->
                  2 <= List.length (sentencesOf sample)) ->
  (fst acc = [] /\ snd acc = 0)
  \/ (fst acc <> [] /\ 1 <= snd acc <= List.length (hd [] (fst acc)) / 2) ->
  let result := fold_left parseSample samples acc in
  (fst result = [] /\ snd result = 0)
  \/ (fst result <> [] /\ 1 <= snd result <= List.length (hd [] (fst result)) / 2).
Proof.
  induction samples as [| sample rest IH]; intros acc Hlong Hacc; [exact Hacc |].
  cbn [fold_left]. apply IH; [intros s Hs; apply Hlong; right; exact Hs |].
  specialize (Hlong sample (or_introl eq_refl)).
  destruct acc as [sampleSentences m]. unfold usable, sentencesOf in Hlong.
  unfold parseSample. cbn [fst snd] in *.
  destruct (isEmpty (content sample)); [exact Hacc |].
  destruct (0 <? List.length (matchSentences (content sample))) eqn:E; [| exact Hacc].
  specialize (Hlong eq_refl). rewrite length_map in Hlong.
  right. cbn [fst snd].
  assert (Hhalf : 1 <= List.length (matchSentences (content sample)) / 2).
  { apply (Nat.div_le_lower_bound _ 2 1); lia. }
  destruct Hacc as [[-> ->] | [Hne [Hlow Hhigh]]].
  - cbn [app hd Nat.eqb]. rewrite length_map. split; [discriminate | lia].
  - split; [destruct sampleSentences; [congruence | discriminate] |].
    destruct (m =? 0) eqn:Em; [apply Nat.eqb_eq in Em; lia |].
    destruct sampleSentences as [| first others]; [congruence |].
    cbn [app hd] in *. lia.
Qed.

Lemma areSentencesSimilar_nonempty : forall sentences : list string,
  2 <= List.length sentences ->
  areSentencesSimilar sentences = true ->
  existsb isEmpty sentences = false.
Proof.
  intros sentences Hlen. unfold areSentencesSimilar.
  assert (E : (List.length sentences <? 2) = false) by (apply Nat.ltb_ge; exact Hlen).
  rewrite E. destruct (existsb isEmpty sentences); [discriminate | reflexivity].
Qed.

Lemma nth_nonempty : forall (l : list string) (p : nat),
  isEmpty (nth p l EmptyString) = false -> p < List.length l.
Proof.
  intros l p H. destruct (Nat.lt_ge_cases p (List.length l)) as [Hlt | Hge]; [exact Hlt |].
  rewrite nth_overflow in H by exact Hge. discriminate H.
Qed.

(** The opening loop takes a run of sentences of the first sample. *)
Lemma openingLoop_prefix :
  forall (rounds position : nat) (S0 : list string) (others : list (list string))
         (found : list string),
    others <> [] ->
    position <= List.length S0 ->
    exists k : nat,
      k <= rounds /\ position + k <= List.length S0
      /\ openingLoop rounds position (S0 :: others) found
         = found ++ firstn k (skipn position S0).
Proof.
  induction rounds as [| rounds IH]; intros position S0 others found Hothers Hposition.
  - exists 0. cbn. rewrite app_nil_r. repeat split; lia.
  - cbn [openingLoop map nth].
    destruct (areSentencesSimilar _) eqn:Esim.
    + apply areSentencesSimilar_nonempty in Esim;
        [| destruct others; [congruence | cbn; rewrite length_map; cbn; lia]].
      cbn [existsb] in Esim. apply orb_false_elim in Esim. destruct Esim as [Esim _].
      apply nth_nonempty in Esim.
      destruct (IH (S position) S0 others (found ++ [nth position S0 EmptyString]) Hothers
                  Esim)
        as [k [Hk [Hfit ->]]].
      exists (S k). split; [lia |]. split; [lia |].
      rewrite (skipn_nth S0 position Esim). cbn [firstn].
      rewrite <- app_assoc. reflexivity.
    + exists 0. cbn. rewrite app_nil_r. repeat split; lia.
Qed.

Lemma fromEnd_nonempty : forall (S0 : list string) (posFromEnd : nat),
  isEmpty (fromEnd posFromEnd S0) = false -> posFromEnd <= List.length S0.
Proof.
  intros S0 posFromEnd. unfold fromEnd.
  destruct (posFromEnd <=? List.length S0) eqn:E; [| discriminate].
  intros _. apply Nat.leb_le. exact E.
Qed.

(** The closing loop takes a run of sentences of the first sample, from its
    end towards its start. *)
Lemma closingLoop_suffix :
  forall (rounds j : nat) (S0 : list string) (others : list (list string))
         (found : list string),
    others <> [] ->
    j <= List.length S0 ->
    exists k : nat,
      k <= rounds /\ j + k <= List.length S0
      /\ closingLoop rounds (S j) (S0 :: others) found
         = skipn (List.length S0 - j - k) (firstn (List.length S0 - j) S0) ++ found.
Proof.
  induction rounds as [| rounds IH]; intros j S0 others found Hothers Hj.
  - exists 0. split; [lia |]. split; [lia |]. cbn [closingLoop].
    rewrite Nat.sub_0_r, skipn_all2; [reflexivity |].
    rewrite length_firstn. lia.
  - cbn [closingLoop map nth].
    destruct (areSentencesSimilar _) eqn:Esim.
    + apply areSentencesSimilar_nonempty in Esim;
        [| destruct others; [congruence | cbn; rewrite length_map; cbn; lia]].
      cbn [existsb] in Esim. apply orb_false_elim in Esim. destruct Esim as [Esim _].
      apply fromEnd_nonempty in Esim.
      destruct (IH (S j) S0 others (fromEnd (S j) S0 :: found) Hothers Esim)
        as [k [Hk [Hfit ->]]].
      exists (S k). split; [lia |]. split; [lia |].
      rewrite (fromEnd_nth S0 j) by lia.
      replace (List.length S0 - j) with (S (List.length S0 - S j)) by lia.
      rewrite (firstn_snoc S0 (List.length S0 - S j)) by lia.
      replace (S (List.length S0 - S j) - S k) with (List.length S0 - S j - k) by lia.
      rewrite skipn_app.
      replace (List.length S0 - S j - k - List.length (firstn (List.length S0 - S j) S0))
        with 0 by (rewrite length_firstn; lia).
      cbn [skipn]. rewrite <- app_assoc. reflexivity.
    + exists 0. split; [lia |]. split; [lia |].
      rewrite Nat.sub_0_r, skipn_all2; [reflexivity |].
      rewrite length_firstn. lia.
Qed.

(** X19.  The patterns are sentences of the first sample.  For two samples
    or more, the opening sentences that [extractCommonPatterns] answers are
    the first [k] sentences of the first sample that has a sentence, and the
    closing sentences are its last [k'], for some [k] and [k'] within its
    length.  When every sample that has a sentence has two or more, [k] and
    [k'] are at most half that length each, so that no sentence of the
    sample is in both. *)
Theorem patterns_of_first_sample :
  forall (teacherName : string) (w : World) (samples : list UserInput),
    DbStorage.getTeacherWritingSamples teacherName w = (Normal samples, w) ->
    2 <= List.length samples ->
    let S0 := hd [] (map sentencesOf (filter usable samples)) in
    exists k k' : nat,
      extractCommonPatterns teacherName w
      = (Normal {| openingSentences := firstn k S0;
                   closingSentences := skipn (List.length S0 - k') S0 |}, w)
      /\ k <= List.length S0 /\ k' <= List.length S0
      /\ ((forall sample, In sample samples -> usable sample = true ->
                          2 <= List.length (sentencesOf sample)) ->
          k <= List.length S0 / 2 /\ k' <= List.length S0 / 2).
Proof.
  intros teacherName w samples Hread Hlen S0.
  rewrite (extractCommonPatterns_reads teacherName w w samples Hread).
  unfold patternsOf.
  assert (E : (List.length samples <? 2) = false) by (apply Nat.ltb_ge; exact Hlen).
  rewrite E.
  pose proof (parseSamples_usable samples ([], 0)) as Hfst. cbn [fst app] in Hfst.
  pose proof (parseSamples_bound samples ([], 0)) as Hbound. cbn [fst snd] in Hbound.
  destruct (fold_left parseSample samples ([], 0)) as [sampleSentences m].
  cbn [fst snd] in *. fold S0 in Hfst. subst sampleSentences. 
  destruct (map sentencesOf (filter usable samples)) as [| first [| second others]] eqn:Es;
    cbn [List.length Nat.ltb Nat.leb hd] in *.
  - exists 0, 0. subst S0. cbn. repeat split; lia.
  - exists 0, 0. subst S0. cbn [hd firstn]. rewrite Nat.sub_0_r, skipn_all.
    repeat split; lia.
  - subst S0. cbn [hd].
    destruct (openingLoop_prefix m 0 first (second :: others) []) as [k [Hk [Hfit ->]]];
      [discriminate | lia |].
    destruct (closingLoop_suffix m 0 first (second :: others) []) as [k' [Hk' [Hfit' ->]]];
      [discriminate | lia |].
    exists k, k'. cbn [skipn app]. rewrite !Nat.sub_0_r, firstn_all, app_nil_r.
    split; [reflexivity |]. split; [lia |]. split; [lia |].
    intros Hlong. destruct (Hbound Hlong (or_introl (conj eq_refl eq_refl)))
      as [[Hnil _] | [_ [_ Hhigh]]]; [discriminate Hnil |].
    cbn [hd] in Hhigh. lia.
Qed.

Lemma patterns_of_first_sample_witness :
  exists k k' : nat,
    extractCommonPatterns "Ms Smith" (worldWithInputs [shortNote; letterA; letterB])
    = (Normal {| openingSentences := firstn k ["Sincerely yours."];
                 closingSentences := skipn (1 - k') ["Sincerely yours."] |},
       worldWithInputs [shortNote; letterA; letterB])
    /\ k <= 1 /\ k' <= 1.
Proof.
  destruct (patterns_of_first_sample "Ms Smith" (worldWithInputs [shortNote; letterA; letterB])
              [shortNote; letterA; letterB] eq_refl ltac:(cbn; lia))
    as [k [k' [H1 [H2 [H3 _]]]]].
  exists k, k'. split; [exact H1 | split; [exact H2 | exact H3]].
Defined.

(** A first sample of one sentence: the bound of the loops comes from the
    later samples, the patterns from the first one. *)
Example one_sentence_first_sample :
  fst (extractCommonPatterns "Ms Smith" (worldWithInputs [shortNote; letterA; letterB]))
  = Normal {| openingSentences := []; closingSentences := ["Sincerely yours."] |}.
Proof. vm_compute. reflexivity. Qed.
Lemma all_kept : forall n : nat, Qle_bool (ofNatQ n * (7 # 10)) (ofNatQ n) = true.
Proof.
  intros n. apply Qle_bool_iff. unfold ofNatQ, Qle, Qmult, inject_Z. cbn [Qnum Qden].
  lia.
Qed.

(** X20.  A phrase of the lexicon overrides the comparison of words.  Two
    sentences or more, each of a length within 0.7 and 1.3 times their mean
    length, count as similar as soon as one of them holds an opening or a
    closing phrase of the lexicon, whatever words the others are made of. *)
Theorem key_phrase_override :
  forall sentences : list string,
    2 <= List.length sentences ->
    (forall s, In s sentences -> withinLength sentences s = true) ->
    (exists s, In s sentences /\ hasKeyPhrase s = true) ->
    areSentencesSimilar sentences = true.
Proof.
  intros sentences Hlen Hwithin [s [Hs Hphrase]]. unfold areSentencesSimilar.
  assert (E : (List.length sentences <? 2) = false) by (apply Nat.ltb_ge; exact Hlen).
  rewrite E.
  assert (Hnonempty : existsb isEmpty sentences = false).
  { destruct (existsb isEmpty sentences) eqn:Ee; [| reflexivity].
    apply existsb_exists in Ee. destruct Ee as [x [Hx Hempty]].
    rewrite (withinLength_nonempty sentences x (Hwithin x Hx)) in Hempty.
    discriminate Hempty. }
  rewrite Hnonempty, (filter_all _ _ sentences Hwithin), all_kept. cbn [negb].
  apply orb_true_iff. right. apply existsb_exists. exists s. split; assumption.
Qed.

Lemma key_phrase_override_witness :
  areSentencesSimilar ["I recommend Jane highly."; "Tom plays chess well."] = true.
Proof.
  apply key_phrase_override.
  - cbn. lia.
  - intros s [<- | [<- | []]]; vm_compute; reflexivity.
  - exists "I recommend Jane highly.". split; [left; reflexivity | vm_compute; reflexivity].
Defined.

(** ** The sentence heuristic *)

Lemma allChars_append : forall (p : ascii -> bool) (s t : string),
  allChars p (s ++ t) = allChars p s && allChars p t.
Proof.
  intros p s t. induction s as [| c s IH]; [reflexivity |].
  cbn [append allChars]. rewrite IH, andb_assoc. reflexivity.
Qed.

Lemma append_not_empty : forall s t : string, s <> EmptyString -> (s ++ t)%string <> EmptyString.
Proof. intros [| c s] t H; [congruence | discriminate]. Qed.

Lemma join_empty_cons : forall (x : string) (l : list string),
  join EmptyString (x :: l) = (x ++ join EmptyString l)%string.
Proof.
  intros x [| y l]; unfold join; cbn [concat]; [rewrite append_nil_r |]; reflexivity.
Qed.

Lemma sentenceShaped_more : forall (matched : string) (c : ascii),
  sentenceShaped matched -> isTerminator c = true ->
  sentenceShaped (matched ++ singleton c).
Proof.
  intros matched c [body [terminators [-> [Hb [Hbody [Ht Hterm]]]]]] Hc.
  exists body, (terminators ++ singleton c)%string.
  rewrite append_assoc. repeat split; try assumption.
  - apply append_not_empty, Ht.
  - rewrite allChars_append, Hterm. cbn. rewrite Hc. reflexivity.
Qed.

Lemma wellScanned_step : forall (st : Scan) (c : ascii),
  wellScanned st ->
  match st with
  | Seeking => isTerminator c = false -> wellScanned (InBody (singleton c))
  | InBody matched =>
      if isTerminator c then wellScanned (InTerminators (matched ++ singleton c))
      else wellScanned (InBody (matched ++ singleton c))
  | InTerminators matched =>
      if isTerminator c then wellScanned (InTerminators (matched ++ singleton c))
      else wellScanned (InBody (singleton c))
  end.
Proof.
  intros st c H. destruct st as [| matched | matched]; cbn [wellScanned] in *.
  - intros Hc. split; [discriminate |]. unfold isBodyChar. cbn. rewrite Hc. reflexivity.
  - destruct H as [Hne Hbody]. destruct (isTerminator c) eqn:Hc.
    + exists matched, (singleton c). repeat split; try assumption; [discriminate |].
      cbn. rewrite Hc. reflexivity.
    + split; [apply append_not_empty, Hne |].
      rewrite allChars_append, Hbody. unfold isBodyChar. cbn. rewrite Hc. reflexivity.
  - destruct (isTerminator c) eqn:Hc.
    + apply sentenceShaped_more; assumption.
    + split; [discriminate |]. unfold isBodyChar. cbn. rewrite Hc. reflexivity.
Qed.

Lemma matchSentencesFrom_shaped : forall (s : string) (st : Scan),
  wellScanned st -> Forall sentenceShaped (matchSentencesFrom st s).
Proof.
  induction s as [| c r IH]; intros st Hst.
  - destruct st; cbn [matchSentencesFrom]; constructor; [exact Hst | constructor].
  - pose proof (wellScanned_step st c Hst) as Hstep.
    destruct st as [| matched | matched]; cbn [matchSentencesFrom];
      destruct (isTerminator c) eqn:Hc.
    + apply IH. exact I.
    + apply IH. apply Hstep. reflexivity.
    + apply IH, Hstep.
    + apply IH, Hstep.
    + apply IH, Hstep.
    + constructor; [exact Hst | apply IH, Hstep].
Qed.

Lemma matchSentencesFrom_covers : forall (s : string) (st : Scan),
  match st with InBody matched => allChars isBodyChar matched = true | _ => True end ->
  exists rest : string,
    allChars isBodyChar rest = true
    /\ (pending st ++ match st with Seeking => skipTerminators s | _ => s end)%string
       = (join EmptyString (matchSentencesFrom st s) ++ rest)%string.
Proof.
  induction s as [| c r IH]; intros st Hst.
  - destruct st as [| matched | matched]; cbn [matchSentencesFrom pending skipTerminators].
    + exists EmptyString. split; reflexivity.
    + exists matched. split; [exact Hst |]. cbn. apply append_nil_r.
    + exists EmptyString. split; [reflexivity |]. cbn. reflexivity.
  - destruct st as [| matched | matched];
      cbn [matchSentencesFrom pending skipTerminators];
      destruct (isTerminator c) eqn:Hc.
    + apply (IH Seeking I).
    + destruct (IH (InBody (singleton c))) as [rest [Hrest E]].
      { unfold isBodyChar. cbn. rewrite Hc. reflexivity. }
      exists rest. split; [exact Hrest |]. cbn [pending] in E. rewrite <- E. reflexivity.
    + destruct (IH (InTerminators (matched ++ singleton c)) I) as [rest [Hrest E]].
      exists rest. split; [exact Hrest |]. cbn [pending] in E. rewrite <- E.
      rewrite append_assoc. reflexivity.
    + destruct (IH (InBody (matched ++ singleton c))) as [rest [Hrest E]].
      { rewrite allChars_append, Hst. unfold isBodyChar. cbn. rewrite Hc. reflexivity. }
      exists rest. split; [exact Hrest |]. cbn [pending] in E. rewrite <- E.
      rewrite append_assoc. reflexivity.
    + destruct (IH (InTerminators (matched ++ singleton c)) I) as [rest [Hrest E]].
      exists rest. split; [exact Hrest |]. cbn [pending] in E. rewrite <- E.
      rewrite append_assoc. reflexivity.
    + destruct (IH (InBody (singleton c))) as [rest [Hrest E]].
      { unfold isBodyChar. cbn. rewrite Hc. reflexivity. }
      exists rest. split; [exact Hrest |]. cbn [pending] in E.
      rewrite join_empty_cons, append_assoc, <- E. reflexivity.
Qed.

(** X21.  What the sentence heuristic keeps and what it drops.  The matches
    of [/[^.!?]+[.!?]+/g] in a text are each a run of characters other than
    [.], [!] and [?] followed by a run of these, neither run empty; put end
    to end they are the text without the terminators it begins with and
    without a last run that no terminator ends.  A text that ends without a
    terminator loses its last sentence, and nothing else is lost. *)
Theorem matchSentences_partition :
  forall s : string,
    Forall sentenceShaped (matchSentences s)
    /\ exists rest : string,
         allChars isBodyChar rest = true
         /\ skipTerminators s = (join EmptyString (matchSentences s) ++ rest)%string.
Proof.
  intros s. unfold matchSentences. split.
  - apply matchSentencesFrom_shaped. exact I.
  - apply (matchSentencesFrom_covers s Seeking I).
Qed.

Example unterminated_tail_dropped :
  matchSentences "...Dear committee! Jane is kind. More to follow"
  = ["Dear committee!"; " Jane is kind."].
Proof. reflexivity. Qed.

(** ** Doubles *)

Lemma two_not_zero : ~ (2 == 0)%Q.
Proof. intros H. discriminate H. Qed.

Lemma pow2_positive : forall e : Z, (0 < 2 ^ e)%Q.
Proof. intros e. apply Qpower_0_lt. reflexivity. Qed.

Lemma pow2_Z : forall e : Z, (0 <= e)%Z -> (inject_Z (2 ^ e) == 2 ^ e)%Q.
Proof. intros e He. apply (Zpower_Qpower 2 e He). Qed.

(** The binade of [q] starts at or below [q]. *)
Lemma binade_le : forall q : Q, (0 < q)%Q -> (2 ^ Double.binade q <= q)%Q.
Proof.
  intros [a b] Hq. unfold Double.binade. cbn [Qnum Qden].
  assert (Ha : (0 < a)%Z).
  { unfold Qlt in Hq. cbn in Hq. lia. }
  set (i := Z.log2 a). set (j := Z.log2 (Z.pos b)).
  destruct (Qle_bool (2 ^ (i - j)) (a # b)) eqn:E; [apply Qle_bool_iff, E |].
  destruct (Z.log2_spec a Ha) as [Hlow _].
  destruct (Z.log2_spec (Z.pos b) (Pos2Z.is_pos b)) as [_ Hhigh].
  fold i in Hlow. fold j in Hhigh.
  assert (Hi : (0 <= i)%Z) by apply Z.log2_nonneg.
  assert (Hj : (0 <= j)%Z) by apply Z.log2_nonneg.
  assert (Hb : (inject_Z (Z.pos b) <= 2 ^ (j + 1))%Q).
  { rewrite <- pow2_Z by lia. rewrite <- Zle_Qle. unfold Z.succ in Hhigh. lia. }
  assert (Hnum : (2 ^ i <= inject_Z a)%Q).
  { rewrite <- pow2_Z by lia. rewrite <- Zle_Qle. exact Hlow. }
  assert (Hsplit : (2 ^ (i - j - 1) * 2 ^ (j + 1) == 2 ^ i)%Q).
  { rewrite <- Qpower_plus by apply two_not_zero. replace (i - j - 1 + (j + 1))%Z with i by lia.
    reflexivity. }
  assert (Hq' : (a # b == inject_Z a / inject_Z (Z.pos b))%Q) by apply Qmake_Qdiv.
  rewrite Hq'. apply Qle_shift_div_l; [reflexivity |].
  apply (Qle_trans _ (2 ^ (i - j - 1) * 2 ^ (j + 1))).
  - apply Qmult_le_l; [apply pow2_positive | exact Hb].
  - rewrite Hsplit. exact Hnum.
Qed.

(** And it ends above [q]: [Double.binade q] is the binade of [q]. *)
Lemma binade_lt : forall q : Q, (0 < q)%Q -> (q < 2 ^ (Double.binade q + 1))%Q.
Proof.
  intros [a b] Hq. unfold Double.binade. cbn [Qnum Qden].
  assert (Ha : (0 < a)%Z).
  { unfold Qlt in Hq. cbn in Hq. lia. }
  set (i := Z.log2 a). set (j := Z.log2 (Z.pos b)).
  destruct (Qle_bool (2 ^ (i - j)) (a # b)) eqn:E.
  - destruct (Z.log2_spec a Ha) as [_ Hhigh].
    destruct (Z.log2_spec (Z.pos b) (Pos2Z.is_pos b)) as [Hlow _].
    fold i in Hhigh. fold j in Hlow.
    assert (Hi : (0 <= i)%Z) by apply Z.log2_nonneg.
    assert (Hj : (0 <= j)%Z) by apply Z.log2_nonneg.
    assert (Hb : (2 ^ j <= inject_Z (Z.pos b))%Q).
    { rewrite <- pow2_Z by lia. rewrite <- Zle_Qle. exact Hlow. }
    assert (Hnum : (inject_Z a < 2 ^ (i + 1))%Q).
    { rewrite <- pow2_Z by lia. rewrite <- Zlt_Qlt. unfold Z.succ in Hhigh. exact Hhigh. }
    assert (Hsplit : (2 ^ (i - j + 1) * 2 ^ j == 2 ^ (i + 1))%Q).
    { rewrite <- Qpower_plus by apply two_not_zero.
      replace (i - j + 1 + j)%Z with (i + 1)%Z by lia. reflexivity. }
    assert (Hq' : (a # b == inject_Z a / inject_Z (Z.pos b))%Q) by apply Qmake_Qdiv.
    rewrite Hq'. apply Qlt_shift_div_r; [reflexivity |].
    apply (Qlt_le_trans _ (2 ^ (i + 1))); [exact Hnum |].
    rewrite <- Hsplit. apply Qmult_le_l; [apply pow2_positive | exact Hb].
  - replace (i - j - 1 + 1)%Z with (i - j)%Z by lia.
    apply Qnot_le_lt. intros H. apply Qle_bool_iff in H. congruence.
Qed.

Lemma nearestEven_le : forall x : Q, (inject_Z (Double.nearestEven x) <= x + (1 # 2))%Q.
Proof.
  intros x. unfold Double.nearestEven.
  pose proof (Qfloor_le x) as Hfloor.
  assert (Hup : (1 # 2 <= x - inject_Z (Qfloor x))%Q ->
                (inject_Z (Qfloor x + 1) <= x + (1 # 2))%Q).
  { intros H. rewrite inject_Z_plus. change (inject_Z 1) with 1%Q. lra. }
  destruct (x - inject_Z (Qfloor x) ?= 1 # 2)%Q eqn:E.
  - apply Qeq_alt in E. destruct (Z.even (Qfloor x)); [lra |]. apply Hup. lra.
  - lra.
  - apply Qgt_alt in E. apply Hup. lra.
Qed.

Lemma nearestEven_nonneg : forall x : Q, (0 <= x)%Q -> (0 <= Double.nearestEven x)%Z.
Proof.
  intros x Hx. unfold Double.nearestEven.
  assert (H0 : (0 <= Qfloor x)%Z).
  { change 0%Z with (Qfloor 0). apply Qfloor_resp_le. exact Hx. }
  destruct (x - inject_Z (Qfloor x) ?= 1 # 2)%Q; [destruct (Z.even (Qfloor x)) | |]; lia.
Qed.

(** Rounding moves a number up by no more than a part in [2 ^ 53] of it,
    or by half the distance of the smallest doubles. *)
Lemma round_le : forall q : Q,
  (0 <= q)%Q -> (Double.round q <= q + q * 2 ^ (-53) + 2 ^ (-1075))%Q.
Proof.
  intros q Hq. unfold Double.round.
  pose proof (pow2_positive (-53)) as H53. pose proof (pow2_positive (-1075)) as H1075.
  destruct (Qle_bool q 0) eqn:E0.
  { assert (0 <= q * 2 ^ (-53))%Q by (apply Qmult_le_0_compat; lra). lra. }
  assert (Hpos : (0 < q)%Q).
  { apply Qnot_le_lt. intros H. apply Qle_bool_iff in H. congruence. }
  set (e := Z.max (Double.binade q - 52) (-1074)).
  pose proof (nearestEven_le (q * 2 ^ (- e))) as Hnear.
  pose proof (pow2_positive e) as He.
  assert (Hback : (2 ^ (- e) * 2 ^ e == 1)%Q).
  { rewrite <- Qpower_plus by apply two_not_zero. replace (- e + e)%Z with 0%Z by lia.
    reflexivity. }
  assert (Hhalf : ((1 # 2) * 2 ^ e == 2 ^ (e - 1))%Q).
  { rewrite Qpower_minus by apply two_not_zero. change (2 ^ 1)%Q with 2%Q. field. }
  assert (Hstep : (inject_Z (Double.nearestEven (q * 2 ^ (- e))) * 2 ^ e
                   <= q + 2 ^ (e - 1))%Q).
  { apply (Qle_trans _ ((q * 2 ^ (- e) + (1 # 2)) * 2 ^ e)).
    - apply Qmult_le_compat_r; [exact Hnear | lra].
    - rewrite <- Hhalf.
      assert (Hq' : ((q * 2 ^ (- e) + (1 # 2)) * 2 ^ e
                     == q * (2 ^ (- e) * 2 ^ e) + (1 # 2) * 2 ^ e)%Q) by ring.
      rewrite Hq', Hback. lra. }
  apply (Qle_trans _ _ _ Hstep).
  assert (Hgap : (2 ^ (e - 1) <= q * 2 ^ (-53) + 2 ^ (-1075))%Q).
  { unfold e. destruct (Z.max_spec (Double.binade q - 52) (-1074)) as [[_ ->] | [_ ->]].
    - change (-1074 - 1)%Z with (-1075)%Z.
      assert (0 <= q * 2 ^ (-53))%Q by (apply Qmult_le_0_compat; lra). lra.
    - replace (Double.binade q - 52 - 1)%Z with (Double.binade q + -53)%Z by lia.
      rewrite Qpower_plus by apply two_not_zero.
      pose proof (binade_le q Hpos) as Hb.
      assert (2 ^ Double.binade q * 2 ^ (-53) <= q * 2 ^ (-53))%Q
        by (apply Qmult_le_compat_r; lra).
      lra. }
  lra.
Qed.

Lemma round_nonneg : forall q : Q, (0 <= Double.round q)%Q.
Proof.
  intros q. unfold Double.round. destruct (Qle_bool q 0) eqn:E0; [lra |].
  assert (Hpos : (0 < q)%Q).
  { apply Qnot_le_lt. intros H. apply Qle_bool_iff in H. congruence. }
  set (e := Z.max (Double.binade q - 52) (-1074)).
  apply Qmult_le_0_compat; [| apply Qlt_le_weak, pow2_positive].
  change 0%Q with (inject_Z 0). rewrite <- Zle_Qle. apply nearestEven_nonneg.
  apply Qmult_le_0_compat; [lra | apply Qlt_le_weak, pow2_positive].
Qed.

(** A draw is at most the largest double below 1. *)
Lemma draw_below_one : forall d : Double.Draw,
  Double.isDraw d = true ->
  (0 <= Double.valueOf d)%Q /\ (Double.valueOf d <= 1 - 2 ^ (-53))%Q.
Proof.
  intros [m s] H. unfold Double.isDraw in H. cbn [Double.mantissa Double.scale] in H.
  apply andb_prop in H. destruct H as [H _]. apply andb_prop in H. destruct H as [Hbits Hone].
  apply N.ltb_lt in Hbits. apply N.ltb_lt in Hone.
  unfold Double.valueOf. cbn [Double.mantissa Double.scale].
  pose proof (pow2_positive (Z.of_N s)) as Hs.
  assert (Hm : (0 <= inject_Z (Z.of_N m))%Q).
  { change 0%Q with (inject_Z 0). rewrite <- Zle_Qle. lia. }
  split; [apply Qle_shift_div_l; [exact Hs | lra] |].
  apply Qle_shift_div_r; [exact Hs |].
  assert (HbitsZ : (Z.of_N m < 2 ^ 53)%Z).
  { change (2 ^ 53)%Z with (Z.of_N (2 ^ 53)). lia. }
  assert (HoneZ : (Z.of_N m < 2 ^ Z.of_N s)%Z).
  { change 2%Z with (Z.of_N 2). rewrite <- N2Z.inj_pow. lia. }
  destruct (Z.le_gt_cases (Z.of_N s) 53) as [Hsmall | Hlarge].
  - (* a multiple of [2 ^ - s] below 1 *)
    assert (Hm1 : (inject_Z (Z.of_N m) <= 2 ^ Z.of_N s - 1)%Q).
    { rewrite <- pow2_Z by lia. change 1%Q with (inject_Z 1). unfold Qminus.
      rewrite <- inject_Z_opp, <- inject_Z_plus, <- Zle_Qle. lia. }
    assert (Hle : (2 ^ (-53) * 2 ^ Z.of_N s <= 1)%Q).
    { rewrite <- Qpower_plus by apply two_not_zero.
      change 1%Q with (2 ^ 0)%Q. apply Qpower_le_compat_l; [lia | lra]. }
    assert (Hq : ((1 - 2 ^ (-53)) * 2 ^ Z.of_N s
                  == 2 ^ Z.of_N s - 2 ^ (-53) * 2 ^ Z.of_N s)%Q) by ring.
    rewrite Hq. lra.
  - (* below a half *)
    assert (Hm1 : (inject_Z (Z.of_N m) <= 2 ^ 53)%Q).
    { rewrite <- pow2_Z by lia. rewrite <- Zle_Qle. lia. }
    assert (Hle : (2 ^ 53 <= (1 # 2) * 2 ^ Z.of_N s)%Q).
    { assert (Hhalf : ((1 # 2) * 2 ^ Z.of_N s == 2 ^ (Z.of_N s - 1))%Q).
      { rewrite Qpower_minus by apply two_not_zero. change (2 ^ 1)%Q with 2%Q. field. }
      rewrite Hhalf. apply Qpower_le_compat_l; [lia | lra]. }
    assert (Hsmall53 : (2 ^ (-53) <= 1 # 2)%Q).
    { change (1 # 2)%Q with (2 ^ (-1))%Q. apply Qpower_le_compat_l; [lia | lra]. }
    assert (Hq : ((1 # 2) * 2 ^ Z.of_N s <= (1 - 2 ^ (-53)) * 2 ^ Z.of_N s)%Q).
    { apply Qmult_le_compat_r; lra. }
    lra.
Qed.

(** The index that a draw gives into an array that is not empty is an index
    of the array: the rounding of the product never reaches the length. *)
Lemma scaled_in_range : forall (d : Double.Draw) (n : nat),
  Double.isDraw d = true -> 0 < n -> Double.scaled d n < n.
Proof.
  intros d n Hd Hn. unfold Double.scaled.
  destruct (draw_below_one d Hd) as [Hlow Hhigh].
  set (v := Double.valueOf d) in *.
  set (len := inject_Z (Z.of_nat n)).
  assert (Hlen : (1 <= len)%Q).
  { unfold len. change 1%Q with (inject_Z 1). rewrite <- Zle_Qle. lia. }
  assert (Hp : (0 <= v * len)%Q) by (apply Qmult_le_0_compat; lra).
  pose proof (round_le (v * len) Hp) as Hround.
  pose proof (round_nonneg (v * len)) as Hnonneg.
  pose proof (pow2_positive (-53)) as H53.
  assert (Htiny : (2 ^ (-1075) < 2 ^ (-53) * 2 ^ (-53))%Q).
  { rewrite <- Qpower_plus by apply two_not_zero.
    apply Qpower_lt_compat_l; [lia | lra]. }
  assert (Hbelow : (Double.round (v * len) < len)%Q).
  { apply (Qle_lt_trans _ _ _ Hround).
    assert (Hprod : (v * len <= (1 - 2 ^ (-53)) * len)%Q)
      by (apply Qmult_le_compat_r; lra).
    assert (Hprod2 : (v * len * 2 ^ (-53) <= (1 - 2 ^ (-53)) * len * 2 ^ (-53))%Q)
      by (apply Qmult_le_compat_r; lra).
    assert (Hsq : (2 ^ (-53) * 2 ^ (-53) <= 2 ^ (-53) * 2 ^ (-53) * len)%Q).
    { rewrite <- (Qmult_1_r (2 ^ (-53) * 2 ^ (-53))) at 1.
      apply Qmult_le_l; [| exact Hlen].
      apply Qmult_lt_0_compat; exact H53. }
    assert (Hexpand : ((1 - 2 ^ (-53)) * len + (1 - 2 ^ (-53)) * len * 2 ^ (-53)
                       == len - 2 ^ (-53) * 2 ^ (-53) * len)%Q) by ring.
    lra. }
  assert (H0 : (0 <= Qfloor (Double.round (v * len)))%Z).
  { change 0%Z with (Qfloor 0). apply Qfloor_resp_le. exact Hnonneg. }
  assert (H1 : (Qfloor (Double.round (v * len)) < Z.of_nat n)%Z).
  { rewrite Zlt_Qlt. apply (Qle_lt_trans _ (Double.round (v * len))); [apply Qfloor_le |].
    exact Hbelow. }
  lia.
Qed.

(** ** The assembler *)

Lemma nth_error_drawn : forall (A : Type) (l : list A) (d : Double.Draw),
  Double.isDraw d = true -> l <> [] ->
  exists s, nth_error l (Double.scaled d (List.length l)) = Some s /\ In s l.
Proof.
  intros A l d Hd Hl.
  assert (Hn : 0 < List.length l) by (destruct l; [congruence | cbn; lia]).
  pose proof (scaled_in_range d (List.length l) Hd Hn) as Hlt.
  destruct (nth_error l _) as [s |] eqn:E.
  - exists s. split; [reflexivity | apply (nth_error_In _ _ E)].
  - apply nth_error_None in E. lia.
Qed.

(** What [replaceItem] does, in terms of the pool of the item.  From a pool
    that is not empty it draws; with an empty pool it keeps the original at
    once, or it draws and reads an index of an inherited member, which is
    [undefined]. *)
Lemma replaceItem_pool :
  forall (store : AnalysisCategories) (openingSentences closingSentences : list string)
         (item : TemplateItem) (w : World),
    let candidates := pool store openingSentences closingSentences item in
    exists (r : ReplacedItem) (w' : World),
      replaceItem store openingSentences closingSentences item w = (Normal r, w')
      /\ replaced r = item
      /\ (w' = w \/ w' = afterDraw w)
      /\ (candidates <> [] ->
          w' = afterDraw w
          /\ replacementSentence r
             = nth_error candidates
                 (Double.scaled (hd Double.zero (entropy w)) (List.length candidates)))
      /\ (candidates = [] ->
          (replacementSentence r = Some (originalSentence item) /\ w' = w)
          \/ (replacementSentence r = None /\ w' = afterDraw w
              /\ exists parameters : option nat,
                   memberFor store (category item) = Inherited parameters
                   /\ parameters <> Some 0)).
Proof.
  intros store openingSentences closingSentences item w. cbv zeta.
  unfold pool, replaceItem, storedFor.
  destruct (isOpening (position item) && (0 <? List.length openingSentences)) eqn:Eo.
  { apply andb_prop in Eo. destruct Eo as [_ Eo]. apply Nat.ltb_lt in Eo.
    eexists. eexists. split; [reflexivity |]. split; [reflexivity |].
    split; [right; reflexivity |].
    split; [intros _; split; reflexivity | intros E; rewrite E in Eo; cbn in Eo; lia]. }
  destruct (isClosing (position item) && (0 <? List.length closingSentences)) eqn:Ec.
  { apply andb_prop in Ec. destruct Ec as [_ Ec]. apply Nat.ltb_lt in Ec.
    eexists. eexists. split; [reflexivity |]. split; [reflexivity |].
    split; [right; reflexivity |].
    split; [intros _; split; reflexivity | intros E; rewrite E in Ec; cbn in Ec; lia]. }
  destruct (memberFor store (category item)) as [sentences | [parameters |] |].
  - destruct (List.length sentences =? 0) eqn:E0.
    + apply Nat.eqb_eq, length_zero_iff_nil in E0.
      eexists. eexists. split; [reflexivity |]. split; [reflexivity |].
      split; [left; reflexivity |].
      split; [intros Hne; congruence | intros _; left; split; reflexivity].
    + eexists. eexists. split; [reflexivity |]. split; [reflexivity |].
      split; [right; reflexivity |].
      split; [intros _; split; reflexivity | intros E; rewrite E in E0; discriminate E0].
  - destruct (parameters =? 0) eqn:E0.
    + eexists. eexists. split; [reflexivity |]. split; [reflexivity |].
      split; [left; reflexivity |].
      split; [intros Hne; congruence | intros _; left; split; reflexivity].
    + eexists. eexists. split; [reflexivity |]. split; [reflexivity |].
      split; [right; reflexivity |].
      split; [intros Hne; congruence |].
      intros _. right. split; [reflexivity |]. split; [reflexivity |].
      exists (Some parameters). split; [reflexivity |].
      intros H. injection H as ->. discriminate E0.
  - eexists. eexists. split; [reflexivity |]. split; [reflexivity |].
    split; [right; reflexivity |].
    split; [intros Hne; congruence |].
    intros _. right. split; [reflexivity |]. split; [reflexivity |].
    exists None. split; [reflexivity | discriminate].
  - eexists. eexists. split; [reflexivity |]. split; [reflexivity |].
    split; [left; reflexivity |].
    split; [intros Hne; congruence | intros _; left; split; reflexivity].
Qed.

(** [replaceAll] answers one item for each item of the template; what holds
    of the world before and after each item holds of the whole run, and what
    each replaced item satisfies, all of them do. *)
Lemma replaceAll_each :
  forall (store : AnalysisCategories) (openingSentences closingSentences : list string)
         (inv : World -> Prop) (P : ReplacedItem -> Prop),
    (forall (item : TemplateItem) (w : World),
        inv w ->
        exists (r : ReplacedItem) (w' : World),
          replaceItem store openingSentences closingSentences item w = (Normal r, w')
          /\ replaced r = item /\ inv w' /\ P r) ->
    forall (templateStructure : list TemplateItem) (w : World),
      inv w ->
      exists (replacedStructure : list ReplacedItem) (w' : World),
        replaceAll store openingSentences closingSentences templateStructure w
        = (Normal replacedStructure, w')
        /\ map replaced replacedStructure = templateStructure
        /\ inv w' /\ Forall P replacedStructure.
Proof.
  intros store openingSentences closingSentences inv P Hstep templateStructure.
  induction templateStructure as [| item rest IH]; intros w Hw.
  - exists [], w. repeat split; [exact Hw | constructor].
  - cbn [replaceAll]. unfold bind, ret.
    destruct (Hstep item w Hw) as [r [w1 [-> [Hr [Hw1 HP]]]]].
    destruct (IH w1 Hw1) as [rs [w' [-> [Hmap [Hw' Hall]]]]].
    exists (r :: rs), w'. split; [reflexivity |].
    cbn [map]. rewrite Hr, Hmap. split; [reflexivity |]. split; [exact Hw' |].
    constructor; assumption.
Qed.

(** X22.  Where the sentences of the draft come from.  [generateLetter]'s
    [map] answers one item for each item of the template, in order, and the
    sentence it puts in the draft for an item is the item's own sentence or
    a sentence of the item's pool: an opening pattern for an opening item, a
    closing pattern for a closing item, when there are patterns, and
    otherwise a sentence that the store holds under the item's label.  An
    item whose pool is empty keeps its own sentence; this is so for a label
    that names no category, also when the label is the name of a member
    that the store inherits from [Object.prototype]. *)
Theorem replaceAll_sources :
  forall (store : AnalysisCategories) (openingSentences closingSentences : list string)
         (templateStructure : list TemplateItem) (w : World),
    exists (replacedStructure : list ReplacedItem) (w' : World),
      replaceAll store openingSentences closingSentences templateStructure w
      = (Normal replacedStructure, w')
      /\ map replaced replacedStructure = templateStructure
      /\ Forall (fun r =>
                   (pool store openingSentences closingSentences (replaced r) = [] ->
                    finalSentence r = originalSentence (replaced r))
                   /\ (finalSentence r = originalSentence (replaced r)
                       \/ In (finalSentence r)
                             (pool store openingSentences closingSentences (replaced r))))
                replacedStructure.
Proof.
  intros store openingSentences closingSentences templateStructure w.
  set (P := fun r =>
              (pool store openingSentences closingSentences (replaced r) = [] ->
               finalSentence r = originalSentence (replaced r))
              /\ (finalSentence r = originalSentence (replaced r)
                  \/ In (finalSentence r)
                        (pool store openingSentences closingSentences (replaced r)))).
  enough (Hstep : forall (item : TemplateItem) (w0 : World),
             True ->
             exists (r : ReplacedItem) (w1 : World),
               replaceItem store openingSentences closingSentences item w0 = (Normal r, w1)
               /\ replaced r = item /\ True /\ P r).
  { destruct (replaceAll_each store openingSentences closingSentences (fun _ => True) P
                Hstep templateStructure w I) as [rs [w' [Hrun [Hmap [_ Hall]]]]].
    exists rs, w'. repeat split; assumption. }
  intros item w0 _. unfold P.
  destruct (replaceItem_pool store openingSentences closingSentences item w0)
    as [r [w1 [Hrun [Hr [_ [Hsome Hnone]]]]]].
  exists r, w1. split; [exact Hrun |]. split; [exact Hr |]. split; [exact I |].
  rewrite Hr. unfold finalSentence. rewrite Hr.
  destruct (list_eq_dec string_dec
              (pool store openingSentences closingSentences item) []) as [Hempty | Hfull].
  - assert (Hkept : match replacementSentence r with
                    | Some s => if isEmpty s then originalSentence item else s
                    | None => originalSentence item
                    end = originalSentence item).
    { destruct (Hnone Hempty) as [[-> _] | [-> _]]; [| reflexivity].
      destruct (originalSentence item); reflexivity. }
    split; [intros _; exact Hkept | left; exact Hkept].
  - split; [intros Hempty; contradiction |].
    destruct (Hsome Hfull) as [_ ->].
    destruct (nth_error _ _) as [s |] eqn:Es; [| left; reflexivity].
    destruct (isEmpty s); [left; reflexivity |].
    right. apply (nth_error_In _ _ Es).
Qed.

(** A label that is the name of an inherited member.  The store has no
    array under [constructor]; the code finds the function [Object] there,
    whose [length] is 1, draws, and reads an index of the function: the item
    keeps its own sentence and the next item gets the second draw. *)
Example inherited_label_draws :
  option_map draftOf
    (match fst (replaceAll sparseStore [] [] inheritedItems twoDraws) with
     | Normal replacedStructure => Some replacedStructure
     | Throw _ => None
     end)
  = Some "First stays. I endorse Tom."
  /\ entropy (snd (replaceAll sparseStore [] [] inheritedItems twoDraws)) = [].
Proof. split; vm_compute; reflexivity. Qed.



(** The product of a draw and a length is a double before it is floored:
    three times the double next below a third is 1 when rounded, so the
    index is 1, where the exact product would give 0.  The rounding is that
    of binary64, as the multiplication of the standard library's
    specification of IEEE 754 has it. *)
Example product_rounds_up :
  Double.scaled belowOneThird 3 = 1
  /\ Qfloor (Double.valueOf belowOneThird * 3) = 0%Z
  /\ SFmul 53 1024 (S754_finite false 6004799503160661 (-54)) (S754_finite false 3 0)
     = S754_finite false 4503599627370496 (-52).
Proof. repeat split; vm_compute; reflexivity. Qed.

(** More products, among them those of the largest double below 1 and of
    the smallest double above 0: each is rounded as binary64 rounds it. *)
Example products_round_as_binary64 :
  forallb (fun p => roundsAsBinary64 (fst p) (snd p))
    [ (belowOneThird, 3%positive); (twoThirds, 3%positive);
      ({| Double.mantissa := 7; Double.scale := 3 |}, 5%positive);
      ({| Double.mantissa := 9007199254740991; Double.scale := 53 |}, 7%positive);
      ({| Double.mantissa := 9007199254740991; Double.scale := 53 |}, 4294967295%positive);
      ({| Double.mantissa := 6004799503160661; Double.scale := 54 |}, 1000003%positive);
      ({| Double.mantissa := 1; Double.scale := 1074 |}, 3%positive);
      ({| Double.mantissa := 8106479329266893; Double.scale := 53 |}, 10%positive) ]
  = true.
Proof. vm_compute. reflexivity. Qed.

(** What the read of the writing samples answers. *)
Lemma getTeacherWritingSamples_outcome :
  forall (teacher : string) (w : World),
    DbStorage.getTeacherWritingSamples teacher w
    = match database w with
      | Rejected e :: _ => (Throw e, settled w)
      | _ => (Normal (filter (fun u => String.eqb (teacherName u) teacher
                                       && DbStorage.isWritingSample (type u))
                             (userInputs w)),
              settled w)
      end.
Proof.
  intros teacher w. unfold DbStorage.getTeacherWritingSamples, DbStorage.settle, bind, settled.
  destruct (database w) as [| [| e] rest]; reflexivity.
Qed.

(** X24.  The template is a writing sample of the teacher.  When the
    database carries out the read and the draw is a double in [0, 1),
    [getRandomWritingSample] answers a record of the object store that is a
    writing sample of this teacher when there is one, and [null], without a
    draw, when there is none.  When the database rejects the read,
    [getRandomWritingSample] is rejected with the same reason, without a
    draw. *)
Theorem getRandomWritingSample_picks :
  forall (teacherName' : string) (w : World),
    Double.isDraw (hd Double.zero (entropy w)) = true ->
    (carriesOut w = true ->
     (exists sample : UserInput,
         fst (getRandomWritingSample teacherName' w) = Normal (Some sample)
         /\ In sample (userInputs w)
         /\ teacherName sample = teacherName'
         /\ type sample = WritingSample)
     \/ (getRandomWritingSample teacherName' w = (Normal None, settled w)
         /\ forall sample, In sample (userInputs w) -> teacherName sample = teacherName' ->
                           type sample <> WritingSample))
    /\ (forall (e : Thrown) (rest : list DbOutcome),
           database w = Rejected e :: rest ->
           getRandomWritingSample teacherName' w = (Throw e, settled w)).
Proof.
  intros teacherName' w Hdraw.
  unfold getRandomWritingSample, bind. rewrite getTeacherWritingSamples_outcome. split.
  - intros Hdb.
    assert (E : match database w with
                | Rejected e :: _ => (Throw e, settled w)
                | _ => (Normal (filter (fun u => String.eqb (teacherName u) teacherName'
                                                 && DbStorage.isWritingSample (type u))
                                       (userInputs w)),
                        settled w)
                end
                = (Normal (filter (fun u => String.eqb (teacherName u) teacherName'
                                            && DbStorage.isWritingSample (type u))
                                  (userInputs w)),
                   settled w)).
    { unfold carriesOut in Hdb. destruct (database w) as [| [| e] rest];
        [reflexivity | reflexivity | discriminate Hdb]. }
    rewrite E. clear E.
    set (samples := filter _ (userInputs w)).
    destruct samples as [| first others] eqn:Es.
    + right. split; [reflexivity |].
      intros sample Hin Hteacher Htype.
      assert (Hs : In sample samples).
      { apply filter_In. split; [exact Hin |].
        rewrite Hteacher, String.eqb_refl, Htype. reflexivity. }
      rewrite Es in Hs. destruct Hs.
    + left. cbn [List.length Nat.eqb]. unfold randomIndex, ret. cbn [fst].
      destruct (nth_error_drawn _ (first :: others) (hd Double.zero (entropy w)) Hdraw)
        as [s [Hs Hin]]; [discriminate |].
      cbn [List.length] in Hs. exists s.
      split; [change (entropy (settled w)) with (entropy w); rewrite Hs; reflexivity |].
      rewrite <- Es in Hin. apply filter_In in Hin. destruct Hin as [Hin Hmatch].
      apply andb_prop in Hmatch. destruct Hmatch as [Ht Hty].
      split; [exact Hin |]. split; [apply String.eqb_eq, Ht |].
      destruct (type s); try discriminate Hty. reflexivity.
  - intros e rest Hdb. rewrite Hdb. reflexivity.
Qed.

Lemma getRandomWritingSample_picks_witness :
  (exists sample : UserInput,
      fst (getRandomWritingSample "Ms Smith"
             (drawingFrom [letterA; letterB; janeSample] [twoThirds]))
      = Normal (Some sample)
      /\ In sample (userInputs (drawingFrom [letterA; letterB; janeSample] [twoThirds]))
      /\ teacherName sample = "Ms Smith"
      /\ type sample = WritingSample)
  /\ fst (getRandomWritingSample "Ms Smith"
            (rejecting (drawingFrom [letterA; letterB; janeSample] [twoThirds])))
     = Throw (Rejection "Could not open IndexedDB").
Proof.
  split.
  - destruct (getRandomWritingSample_picks "Ms Smith"
                (drawingFrom [letterA; letterB; janeSample] [twoThirds]))
      as [H _]; [reflexivity |].
    destruct (H eq_refl) as [Hsample | [Hnone _]]; [exact Hsample |].
    vm_compute in Hnone. discriminate Hnone.
  - destruct (getRandomWritingSample_picks "Ms Smith"
                (rejecting (drawingFrom [letterA; letterB; janeSample] [twoThirds])))
      as [_ H]; [reflexivity |].
    rewrite (H (Rejection "Could not open IndexedDB") [] eq_refl). reflexivity.
Defined.

Example third_sample_drawn :
  fst (getRandomWritingSample "Ms Smith"
         (drawingFrom [letterA; letterB; janeSample] [twoThirds]))
  = Normal (Some janeSample).
Proof. vm_compute. reflexivity. Qed.

(** ** The object store *)






(** ** The common patterns of samples that are the same *)

Lemma sumOfLengths_repeat : forall (s : string) (n : nat),
  sumOfLengths (repeat s n) = n * String.length s.
Proof.
  intros s n. unfold sumOfLengths.
  assert (H : forall a, fold_left (fun sum x => sum + String.length x) (repeat s n) a
                        = a + n * String.length s).
  { induction n as [| n IH]; intros a; cbn [repeat fold_left]; [lia |].
    rewrite IH. lia. }
  apply H.
Qed.

Lemma inject_Z_positive : forall n : nat, 0 < n -> ~ (inject_Z (Z.of_nat n) == 0)%Q.
Proof. intros n Hn H. unfold Qeq, inject_Z in H. cbn [Qnum Qden] in H. lia. Qed.

Lemma lenRatio_repeat : forall (s : string) (n : nat),
  0 < n -> isEmpty s = false -> (lenRatio (repeat s n) s == 1)%Q.
Proof.
  intros s n Hn Hs. apply isEmpty_length in Hs.
  unfold lenRatio. rewrite sumOfLengths_repeat, repeat_length. unfold ofNatQ.
  rewrite Nat2Z.inj_mul, inject_Z_mult.
  pose proof (inject_Z_positive n Hn). pose proof (inject_Z_positive _ Hs).
  field. split; assumption.
Qed.

Lemma withinLength_repeat : forall (s : string) (n : nat),
  0 < n -> isEmpty s = false -> withinLength (repeat s n) s = true.
Proof.
  intros s n Hn Hs. unfold withinLength.
  rewrite (Qle_bool_proper _ _ _ (lenRatio_repeat s n Hn Hs)).
  assert (E : Qle_bool (lenRatio (repeat s n) s) (13 # 10) = true).
  { apply Qle_bool_iff. rewrite (lenRatio_repeat s n Hn Hs). discriminate. }
  rewrite E. reflexivity.
Qed.

Lemma pairSimilarities_repeat : forall (words : list string) (n : nat),
  Forall (fun q => q = similarity words words) (pairSimilarities (repeat words n)).
Proof.
  intros words n. induction n as [| n IH]; [constructor |].
  cbn [repeat pairSimilarities]. apply Forall_app. split; [| exact IH].
  apply Forall_forall. intros q Hq. apply in_map_iff in Hq.
  destruct Hq as [x [<- Hx]]. apply repeat_spec in Hx. subst x. reflexivity.
Qed.

Lemma sum_constant : forall (q : Q) (l : list Q) (a : Q),
  Forall (fun x => x = q) l ->
  (fold_left Qplus l a == a + ofNatQ (List.length l) * q)%Q.
Proof.
  intros q l. induction l as [| x rest IH]; intros a H.
  - cbn. unfold ofNatQ. cbn. ring.
  - inversion H as [| y l' Hx Hrest]; subst. cbn [fold_left List.length].
    rewrite (IH _ Hrest). unfold ofNatQ. rewrite Nat2Z.inj_succ, <- Z.add_1_r, inject_Z_plus.
    ring.
Qed.

Lemma avgSimilarity_repeat : forall (words : list string) (n : nat),
  2 <= n -> (avgSimilarity (repeat words n) == similarity words words)%Q.
Proof.
  intros words n Hn. unfold avgSimilarity.
  pose proof (pairSimilarities_repeat words n) as Hall.
  assert (Hlen : 0 < List.length (pairSimilarities (repeat words n))).
  { destruct n as [| [| n]]; try lia. cbn [repeat pairSimilarities map].
    cbn [app List.length]. lia. }
  assert (E : (0 <? List.length (pairSimilarities (repeat words n))) = true)
    by (apply Nat.ltb_lt; exact Hlen).
  rewrite E, (sum_constant _ _ 0%Q Hall).
  pose proof (inject_Z_positive _ Hlen). unfold ofNatQ. field. assumption.
Qed.

Lemma existsb_repeat : forall (A : Type) (p : A -> bool) (x : A) (n : nat),
  existsb p (repeat x n) = (0 <? n) && p x.
Proof.
  intros A p x n. induction n as [| n IH]; [reflexivity |].
  cbn [repeat existsb]. rewrite IH. destruct (p x); [reflexivity |].
  rewrite andb_false_r. reflexivity.
Qed.

(** A sentence that every sample has, word for word, is similar to itself
    as soon as it is recognizable, whatever the number of samples. *)
Lemma areSentencesSimilar_repeat : forall (s : string) (n : nat),
  2 <= n -> recognizable s = true -> areSentencesSimilar (repeat s n) = true.
Proof.
  intros s n Hn Hrec. pose proof (recognizable_nonempty s Hrec) as Hs.
  unfold areSentencesSimilar. rewrite repeat_length.
  assert (E : (n <? 2) = false) by (apply Nat.ltb_ge; exact Hn). rewrite E.
  rewrite existsb_repeat, Hs, andb_false_r.
  rewrite (filter_all _ (withinLength (repeat s n)) (repeat s n)).
  2: { intros x Hx. apply repeat_spec in Hx. subst x. apply withinLength_repeat; [lia | exact Hs]. }
  rewrite repeat_length, all_kept. cbn [negb].
  rewrite map_repeat, (Qle_bool_proper _ _ _ (avgSimilarity_repeat _ n Hn)), similarity_self.
  rewrite existsb_repeat.
  assert (E0 : (0 <? n) = true) by (apply Nat.ltb_lt; lia). rewrite E0. cbn [andb].
  exact Hrec.
Qed.

Lemma nth_repeat_head : forall (x : string) (n : nat),
  0 < n -> nth 0 (repeat x n) EmptyString = x.
Proof. intros x [| n] H; [lia | reflexivity]. Qed.

Lemma openingLoop_repeat :
  forall (S0 : list string) (n rounds position : nat) (found : list string),
    2 <= n ->
    position + rounds <= List.length S0 ->
    (forall s, In s (firstn rounds (skipn position S0)) -> recognizable s = true) ->
    openingLoop rounds position (repeat S0 n) found
    = found ++ firstn rounds (skipn position S0).
Proof.
  intros S0 n rounds. induction rounds as [| r IH]; intros position found Hn Hlen Hrec.
  - cbn. rewrite app_nil_r. reflexivity.
  - cbn [openingLoop]. rewrite map_repeat.
    rewrite (skipn_nth S0 position) in * by lia.
    cbn [firstn] in *.
    rewrite areSentencesSimilar_repeat; [| exact Hn | apply Hrec; left; reflexivity].
    rewrite nth_repeat_head by lia.
    rewrite IH; [| exact Hn | lia | intros s Hs; apply Hrec; right; exact Hs].
    rewrite <- app_assoc. reflexivity.
Qed.

Lemma closingLoop_repeat :
  forall (S0 : list string) (n rounds j : nat) (found : list string),
    2 <= n ->
    j + rounds <= List.length S0 ->
    (forall i, List.length S0 - j - rounds <= i < List.length S0 - j ->
               recognizable (nth i S0 EmptyString) = true) ->
    closingLoop rounds (S j) (repeat S0 n) found
    = skipn (List.length S0 - j - rounds) (firstn (List.length S0 - j) S0) ++ found.
Proof.
  intros S0 n rounds. induction rounds as [| r IH]; intros j found Hn Hlen Hrec.
  - cbn [closingLoop]. rewrite Nat.sub_0_r.
    rewrite skipn_all2; [reflexivity |].
    rewrite length_firstn. lia.
  - cbn [closingLoop]. rewrite map_repeat.
    rewrite fromEnd_nth by lia.
    rewrite areSentencesSimilar_repeat; [| exact Hn | apply Hrec; lia].
    rewrite nth_repeat_head by lia.
    rewrite IH; [| exact Hn | lia | intros i Hi; apply Hrec; lia].
    replace (List.length S0 - j) with (S (List.length S0 - S j)) by lia.
    rewrite (firstn_snoc S0 (List.length S0 - S j)) by lia.
    replace (S (List.length S0 - S j) - S r) with (List.length S0 - S j - r) by lia.
    rewrite skipn_app.
    replace (List.length S0 - S j - r - List.length (firstn (List.length S0 - S j) S0))
      with 0 by (rewrite length_firstn; lia).
    cbn [skipn]. rewrite <- app_assoc. reflexivity.
Qed.

(** Samples that all have the text [content']: each one adds the same
    sentences, and the bound is half their number. *)
Lemma parseSamples_same :
  forall (content' : string) (samples : list UserInput) (acc : list (list string) * nat),
    (forall sample, In sample samples -> content sample = content') ->
    isEmpty content' = false ->
    0 < List.length (matchSentences content') ->
    snd acc = 0 \/ snd acc = List.length (matchSentences content') / 2 ->
    fold_left parseSample samples acc
    = (fst acc ++ repeat (map trim (matchSentences content')) (List.length samples),
       match samples with
       | [] => snd acc
       | _ :: _ => List.length (matchSentences content') / 2
       end).
Proof.
  intros content' samples. induction samples as [| sample rest IH];
    intros [sampleSentences m] Hsame Hcontent Hsentences Hm.
  - cbn. rewrite app_nil_r. reflexivity.
  - cbn [fold_left]. unfold parseSample at 2.
    rewrite (Hsame sample (or_introl eq_refl)), Hcontent.
    apply Nat.ltb_lt in Hsentences. rewrite Hsentences.
    rewrite IH; [| intros s Hs; apply Hsame; right; exact Hs | exact Hcontent
                 | apply Nat.ltb_lt; exact Hsentences |].
    + cbn [fst snd List.length repeat]. rewrite <- app_assoc. cbn [app].
      f_equal. destruct rest; [| reflexivity].
      cbn [snd] in Hm. destruct Hm as [-> | ->]; [reflexivity |].
      destruct (_ =? 0); [reflexivity | apply Nat.min_id].
    + cbn [snd] in *. right.
      destruct Hm as [-> | ->]; [reflexivity |].
      destruct (_ =? 0); [reflexivity | apply Nat.min_id].
Qed.

(** X26.  Samples that are the same, however many.  When two samples or
    more all have the same content, the opening sentences that
    [extractCommonPatterns] answers are the first half of the sentences of
    that content, rounded down, and the closing sentences are as many from
    its end, provided that each of these sentences is recognizable: it has a
    word of more than three characters other than [__proto__], or a phrase
    of the lexicon. *)
Theorem patterns_of_same_samples :
  forall (teacherName : string) (w w' : World) (samples : list UserInput)
         (content' : string),
    DbStorage.getTeacherWritingSamples teacherName w = (Normal samples, w') ->
    2 <= List.length samples ->
    (forall sample, In sample samples -> content sample = content') ->
    let sentences := map trim (matchSentences content') in
    let maxOpeningPatternLength := List.length sentences / 2 in
    (forall s, In s (firstn maxOpeningPatternLength sentences) -> recognizable s = true) ->
    (forall s, In s (skipn (List.length sentences - maxOpeningPatternLength) sentences) ->
               recognizable s = true) ->
    extractCommonPatterns teacherName w
    = (Normal {| openingSentences := firstn maxOpeningPatternLength sentences;
                 closingSentences :=
                   skipn (List.length sentences - maxOpeningPatternLength) sentences |},
       w').
Proof.
  intros teacherName w w' samples content' Hread Hlen Hsame sentences m Hopen Hclose.
  rewrite (extractCommonPatterns_reads teacherName w w' samples Hread).
  unfold patternsOf.
  assert (E : (List.length samples <? 2) = false) by (apply Nat.ltb_ge; exact Hlen).
  rewrite E.
  assert (Hsize : List.length sentences = List.length (matchSentences content')).
  { unfold sentences. apply length_map. }
  assert (Hf : List.length (matchSentences content') / 2 = m).
  { unfold m. rewrite Hsize. reflexivity. }
  assert (Hm : m <= List.length sentences).
  { unfold m. apply Nat.Div0.div_le_upper_bound. lia. }
  destruct (Nat.eq_dec (List.length (matchSentences content')) 0) as [Hzero | Hpos].
  - (* no sentence: nothing is kept *)
    assert (Hnone : fold_left parseSample samples ([], 0) = ([], 0)).
    { clear - Hsame Hzero. induction samples as [| sample rest IH]; [reflexivity |].
      cbn [fold_left]. unfold parseSample at 2.
      rewrite (Hsame sample (or_introl eq_refl)), Hzero.
      destruct (isEmpty content'); apply IH; intros s Hs; apply Hsame; right; exact Hs. }
    rewrite Hnone. cbn [List.length Nat.ltb Nat.leb].
    assert (Hnil : sentences = []).
    { apply length_zero_iff_nil. rewrite Hsize. exact Hzero. }
    clearbody sentences. subst sentences. reflexivity.
  - assert (Hcontent : isEmpty content' = false).
    { destruct content'; [cbn in Hpos; congruence | reflexivity]. }
    rewrite (parseSamples_same content' samples ([], 0) Hsame Hcontent);
      [| lia | left; reflexivity].
    cbn [fst snd app]. rewrite repeat_length, E, Hf. fold sentences.
    destruct samples as [| s0 rest]; [cbn in Hlen; lia |].
    rewrite (openingLoop_repeat sentences _ m 0 []); [| exact Hlen | lia | exact Hopen].
    rewrite (closingLoop_repeat sentences _ m 0 []).
    + rewrite Nat.sub_0_r, firstn_all, app_nil_r. reflexivity.
    + exact Hlen.
    + lia.
    + intros i Hi. apply Hclose.
      replace i with ((List.length sentences - m) + (i - (List.length sentences - m))) by lia.
      rewrite <- nth_skipn. apply nth_In. rewrite length_skipn. lia.
Qed.

Lemma patterns_of_same_samples_witness :
  extractCommonPatterns "Ms Smith" (worldWithInputs [letterA; letterB; letterC])
  = (Normal {| openingSentences := ["I am writing to recommend Jane."; "She works hard."];
               closingSentences :=
                 ["Please feel free to contact me."; "Sincerely yours."] |},
     worldWithInputs [letterA; letterB; letterC]).
Proof.
  apply (patterns_of_same_samples "Ms Smith" (worldWithInputs [letterA; letterB; letterC])
           (worldWithInputs [letterA; letterB; letterC])
           [letterA; letterB; letterC] letterText).
  - reflexivity.
  - cbn. lia.
  - intros sample [<- | [<- | [<- | []]]]; reflexivity.
  - intros s [<- | [<- | []]]; vm_compute; reflexivity.
  - intros s [<- | [<- | []]]; vm_compute; reflexivity.
Defined.

(** ** Requests to the model *)

Lemma replaceAll_world :
  forall (store : AnalysisCategories) (openingSentences closingSentences : list string)
         (templateStructure : list TemplateItem) (w : World),
    exists (replacedStructure : list ReplacedItem) (w' : World),
      replaceAll store openingSentences closingSentences templateStructure w
      = (Normal replacedStructure, w')
      /\ posted w' = posted w /\ backend w' = backend w /\ clock w' = clock w
      /\ localStorage w' = localStorage w /\ userInputs w' = userInputs w.
Proof.
  intros store openingSentences closingSentences templateStructure w.
  set (inv := fun w' : World =>
                posted w' = posted w /\ backend w' = backend w /\ clock w' = clock w
                /\ localStorage w' = localStorage w /\ userInputs w' = userInputs w).
  enough (Hstep : forall (item : TemplateItem) (w0 : World),
             inv w0 ->
             exists (r : ReplacedItem) (w1 : World),
               replaceItem store openingSentences closingSentences item w0 = (Normal r, w1)
               /\ replaced r = item /\ inv w1 /\ True).
  { destruct (replaceAll_each store openingSentences closingSentences inv (fun _ => True)
                Hstep templateStructure w) as [rs [w' [Hrun [_ [Hinv _]]]]].
    - unfold inv. repeat split.
    - exists rs, w'. split; [exact Hrun | exact Hinv]. }
  intros item w0 Hw0.
  destruct (replaceItem_pool store openingSentences closingSentences item w0)
    as [r [w1 [Hrun [Hr [Hworld _]]]]].
  exists r, w1. split; [exact Hrun |]. split; [exact Hr |]. split; [| exact I].
  destruct Hworld as [-> | ->]; exact Hw0.
Qed.

(** X27.  One request at most for each operation.  [analyzeSample] posts
    one request, with the prompt that holds the sample, whatever the sample
    is; [categorizeTemplate] posts no request for a content without a
    sentence and one request otherwise, with the prompt that lists the
    sentences; [generateLetter] posts no request for an empty template and
    one request otherwise, with the prompt that holds the draft; this is so
    whether the call of the model succeeds or throws. *)
Theorem requests_per_operation :
  forall (J : JSON) (w : World),
    (forall sample teacherName : string,
        posted (snd (analyzeSample sample teacherName w))
        = posted w ++ [ {| body_model := "gemma3";
                           body_prompt := analysisPrompt sample;
                           body_temperature := (3 # 10)%Q;
                           body_max_tokens := 2000%N |} ])
    /\ (forall templateContent : string,
        posted (snd (categorizeTemplate templateContent w))
        = posted w
          ++ match matchSentences templateContent with
             | [] => []
             | sentences =>
                 [ {| body_model := "gemma3";
                      body_prompt := templatePrompt sentences;
                      body_temperature := (3 # 10)%Q;
                      body_max_tokens := 1000%N |} ]
             end)
    /\ (forall (templateStructure : list TemplateItem) (store : AnalysisCategories)
               (studentInfo : StudentInfo) (teacherName : string)
               (openingSentences closingSentences : list string),
          exists (replacedStructure : list ReplacedItem) (w' : World),
            replaceAll store openingSentences closingSentences templateStructure w
            = (Normal replacedStructure, w')
            /\ posted (snd (generateLetter templateStructure store studentInfo teacherName
                              openingSentences closingSentences w))
               = posted w
                 ++ match templateStructure with
                    | [] => []
                    | _ :: _ =>
                        [ {| body_model := "gemma3";
                             body_prompt := personalizePrompt (draftOf replacedStructure)
                                              studentInfo teacherName;
                             body_temperature := (7 # 10)%Q;
                             body_max_tokens := 2000%N |} ]
                    end).
Proof.
  intros J w. split; [intros sample teacherName; apply analyzeSample_posts |]. split.
  - intros templateContent. unfold categorizeTemplate.
    destruct (isEmpty templateContent) eqn:Eempty.
    { destruct templateContent; [| discriminate Eempty]. cbn. rewrite app_nil_r. reflexivity. }
    destruct (matchSentences templateContent) as [| first others] eqn:Ematch.
    { cbn. rewrite app_nil_r. reflexivity. }
    cbn [List.length Nat.eqb]. unfold bind at 1.
    match goal with
    | |- context [QueryService.generateText ?request w] =>
        pose proof (generateText_posts J request w) as Hposted;
          destruct (QueryService.generateText request w) as [[response | e] w1]
    end; cbn [snd] in *; [| exact Hposted].
    unfold bind, lift, ret.
    destruct (extractCategories (text response) (first :: others)); exact Hposted.
  - intros templateStructure store studentInfo teacherName openingSentences closingSentences.
    destruct (replaceAll_world store openingSentences closingSentences templateStructure w)
      as [rs [w' [Hrun [Hposted _]]]].
    exists rs, w'. split; [exact Hrun |].
    unfold generateLetter. destruct templateStructure as [| item rest].
    { cbn. rewrite app_nil_r. reflexivity. }
    cbn [List.length Nat.eqb]. unfold bind at 1. rewrite Hrun.
    unfold personalizeLetter, bind, ret.
    match goal with
    | |- context [QueryService.generateText ?request w'] =>
        pose proof (generateText_posts J request w') as Hgen;
          destruct (QueryService.generateText request w') as [[response | e] w1]
    end; cbn [snd] in *; rewrite Hgen, Hposted; reflexivity.
Qed.

(** The draft that is posted for a template whose first label is the name
    of a member of [Object.prototype]: the first item keeps its sentence and
    takes the first draw, the second item gets the second draw. *)
Example inherited_label_posted :
  map body_prompt
    (posted (snd (@generateLetter MiniJson.codec inheritedItems sparseStore jane "Ms Smith"
                    [] [] twoDraws)))
  = [personalizePrompt "First stays. I endorse Tom." jane "Ms Smith"].
Proof. vm_compute. reflexivity. Qed.

(** ** The labels of the template *)

Lemma tagFrom_labels : forall (sentences : list string) (index len : nat)
                              (categories : list json),
  map category (tagFrom index len categories sentences)
  = map (categoryAt categories) (seq index (List.length sentences)).
Proof.
  induction sentences as [| s rest IH]; intros index len categories; [reflexivity |].
  cbn [tagFrom map category List.length seq]. rewrite IH. reflexivity.
Qed.

Lemma nth_error_firstn_below : forall (A : Type) (n i : nat) (l : list A),
  i < n -> nth_error (firstn n l) i = nth_error l i.
Proof.
  intros A n. induction n as [| n IH]; intros i l Hi; [lia |].
  destruct l as [| a l]; [reflexivity |].
  destruct i as [| i]; [reflexivity |].
  cbn [firstn nth_error]. apply IH. lia.
Qed.

(** Padding and cutting the labels does not change the label that a
    sentence receives. *)
Lemma categoryAt_align : forall (labels : list json) (n i : nat),
  i < n -> categoryAt (align labels n) i = categoryAt labels i.
Proof.
  intros labels n i Hi. unfold align.
  destruct (List.length labels =? n); [reflexivity |].
  unfold categoryAt. rewrite nth_error_firstn_below by exact Hi.
  destruct (Nat.lt_ge_cases i (List.length labels)) as [Hlt | Hge].
  - rewrite nth_error_app1 by exact Hlt. reflexivity.
  - rewrite nth_error_app2 by exact Hge.
    assert (Hnone : nth_error labels i = None) by (apply nth_error_None; exact Hge).
    rewrite Hnone.
    assert (Hpad : nth_error (repeat (JStr "commentary") (n - List.length labels))
                     (i - List.length labels) = Some (JStr "commentary")).
    { rewrite nth_error_repeat by lia. reflexivity. }
    rewrite Hpad. reflexivity.
Qed.

(** X28.  Labels go to sentences by index.  When the answer of the model
    holds, between its first bracket and its last one, a JSON array, the
    item of the i-th sentence has the i-th element of that array as its
    category when there is one and it is truthy, and [commentary]
    otherwise; elements beyond the number of sentences are ignored. *)
Theorem categorizeTemplate_labels :
  forall (J : JSON) (templateContent : string) (w w' : World) (items : list TemplateItem)
         (r : HttpResponse) (rest : list FetchOutcome) (data : json)
         (answer matched : string) (labels : list json),
    categorizeTemplate templateContent w = (Normal items, w') ->
    backend w = Responds r :: rest ->
    JSON_parse (body r) = Some data ->
    property data "response" = Normal (Some (JStr answer)) ->
    matchSpan "[" "]" answer = Some matched ->
    JSON_parse matched = Some (JArr labels) ->
    map category items
    = map (fun i => match nth_error labels i with
                    | Some label => if truthy label then label else JStr "commentary"
                    | None => JStr "commentary"
                    end)
          (seq 0 (List.length (matchSentences templateContent))).
Proof.
  intros J templateContent w w' items r rest data answer matched labels
         H Hbackend Hdata Hanswer Hspan Hlabels.
  unfold categorizeTemplate in H.
  destruct (isEmpty templateContent) eqn:Eempty.
  { destruct templateContent; [| discriminate Eempty]. injection H as <- _. reflexivity. }
  destruct (List.length (matchSentences templateContent) =? 0) eqn:Ezero.
  { apply Nat.eqb_eq in Ezero. rewrite Ezero. injection H as <- _. reflexivity. }
  unfold QueryService.generateText in H. revert H. run. rewrite Hbackend.
  destruct (negb (ok r)); [discriminate |].
  rewrite Hdata, Hanswer. cbn.
  assert (Hextract : extractCategories (Some (JStr answer)) (matchSentences templateContent)
                     = Normal labels).
  { unfold extractCategories. cbn [truthyValue truthy].
    destruct (negb (isEmpty answer)) eqn:Ea.
    - rewrite Hspan, Hlabels. reflexivity.
    - destruct answer; [discriminate Hspan | discriminate Ea]. }
  rewrite Hextract. intros H. injection H as <- _.
  rewrite tagFrom_labels. apply map_ext_in. intros i Hi.
  apply in_seq in Hi. rewrite categoryAt_align by lia. reflexivity.
Qed.

Lemma categorizeTemplate_labels_witness :
  map category fiveItems
  = map (fun i => match nth_error [ JStr "introduction_context"; JStr "qualities";
                                     JStr "qualities"; JStr "endorsement";
                                     JStr "further_discussion" ] i with
                  | Some label => if truthy label then label else JStr "commentary"
                  | None => JStr "commentary"
                  end)
        (seq 0 (List.length (matchSentences fiveSentences))).
Proof.
  apply (categorizeTemplate_labels MiniJson.codec fiveSentences (worldAnswering [fiveLabels])
           (snd (@categorizeTemplate MiniJson.codec fiveSentences
                   (worldAnswering [fiveLabels])))
           fiveItems
           {| status := 200%N; body := MiniJson.print (JObj [("response", JStr fiveLabels)]) |}
           [] (JObj [("response", JStr fiveLabels)]) fiveLabels fiveLabels).
  - vm_compute. reflexivity.
  - reflexivity.
  - vm_compute. reflexivity.
  - reflexivity.
  - vm_compute. reflexivity.
  - vm_compute. reflexivity.
Defined.

(** ** From the analysis to the store *)

Section AnalyzeThenGet.
Context {J : JSON}.

Hypothesis JSON_roundtrip :
  forall c : AnalysisCategories,
    JSON_parse (JSON_stringify (categoriesToJson c)) = Some (categoriesToJson c).
Hypothesis JSON_parse_empty : JSON_parse EmptyString = None.

(** X29.  What has been analyzed can be read back.  Let the teacher's entry
    be absent, be no JSON, or be the JSON of some categories.  When
    [analyzeSample] returns categories that hold strings only,
    [getCategories] afterwards answers categories that hold every sentence
    of the result, up to the white space around it. *)
Theorem analyzeSample_then_getCategories :
  forall (sample teacherName : string) (w : World) (result : Categories json)
         (C : AnalysisCategories),
    holdsCategories teacherName w ->
    fst (analyzeSample sample teacherName w) = Normal result ->
    asSentences result = Some C ->
    exists merged : AnalysisCategories,
      fst (getCategories teacherName (snd (analyzeSample sample teacherName w)))
      = Normal (categoriesToJson merged)
      /\ forall (c : Category) (s : string),
           In s (get c C) -> In (trim s) (map trim (allSentences merged)).
Proof.
  intros sample teacherName w result C Hholds.
  destruct (holdsCategories_stored teacherName w Hholds) as [existing Hexisting].
  unfold analyzeSample. unfold bind, tryCatch, lift, ret, throw.
  match goal with
  | |- context [QueryService.generateText ?request w] =>
      destruct (generateText_frame J request w) as [Hls _];
      destruct (QueryService.generateText request w) as [[response | e0] w1]
  end; cbn [snd] in Hls; [| cbn; discriminate].
  destruct (parseAnalysisResponse (text response)) as [analysisResult | e1];
    [| cbn; discriminate].
  destruct (asSentences analysisResult) as [sentences |] eqn:Esentences.
  - rewrite <- Hls in Hexisting.
    rewrite (storeAndAppendCategories_runs sentences existing _ _ _ Hexisting).
    destruct (saveAnalysisToDatabase_saves J analysisResult sample teacherName
                (afterStore (mergedWith existing sentences) teacherName sample w1))
      as [record [w3 [-> [Hkept _]]]].
    cbn [fst snd]. intros H HC. injection H as <-.
    rewrite Esentences in HC. injection HC as <-.
    exists (mergedWith existing sentences). split.
    + unfold getCategories, bind, ret, LocalStorage.getItem. cbn [fst].
      rewrite Hkept, stored_after. unfold storedOrEmpty.
      rewrite (stringify_not_empty JSON_roundtrip JSON_parse_empty), JSON_roundtrip.
      reflexivity.
    + apply mergedWith_holds_all.
  - destruct (saveAnalysisToDatabase_saves J analysisResult sample teacherName w1)
      as [record [w3 [-> _]]].
    cbn [fst snd]. intros H HC. injection H as <-. congruence.
Qed.

End AnalyzeThenGet.

Lemma analyzeSample_then_getCategories_witness :
  exists merged : AnalysisCategories,
    fst (@getCategories MiniJson.codec "Ms Smith"
           (snd (@analyzeSample MiniJson.codec "She is great." "Ms Smith"
                   (worldAnswering [endorsementAnswer]))))
    = Normal (categoriesToJson merged)
    /\ In (trim "She is great.") (map trim (allSentences merged)).
Proof.
  destruct (@analyzeSample_then_getCategories MiniJson.codec MiniJsonFacts.roundtrip
              MiniJsonFacts.parse_empty "She is great." "Ms Smith"
              (worldAnswering [endorsementAnswer])
              {| introduction_context := []; endorsement := [JStr "She is great."];
                 commentary := []; qualities := []; further_discussion := [] |}
              {| introduction_context := []; endorsement := ["She is great."];
                 commentary := []; qualities := []; further_discussion := [] |})
    as [merged [H1 H2]].
  - intros stored v Hstored. discriminate Hstored.
  - vm_compute. reflexivity.
  - reflexivity.
  - exists merged. split; [exact H1 |]. apply (H2 Endorsement). left. reflexivity.
Defined.
